(** * SceneManager: texture and material registries, transform composer
      and shader-state binder

    A shallow embedding of [SceneManager.cpp].  The scene manager owns a
    fixed array of texture records with a fill counter, a vector of material
    presets, a pointer to the shader manager and a pointer to the mesh
    library.  Every member function is a state transformer over that object
    and over the two external services it drives: the OpenGL context and the
    image decoder.

    Conventions.
    - [int] values are [Z]; [GLuint] values are [Z] in [0, 2^32) and the
      conversion to [int] is written out ([int_of_GLuint]).
    - [float] values are idealised as real numbers.  Materials, colours and
      UV scales are only stored and copied; the transform composer is the one
      place that computes with them, and there the embedding gives the exact
      value where the code rounds to single precision.  Only properties that
      do not depend on the rounded entries are stated about it.
    - A null-pointer dereference or an access outside the texture array is
      undefined behaviour in C++; the embedding makes it an explicit fault.
    - Output written to [std::cout] is not part of the state. *)

From Stdlib Require Import ZArith Reals Lra Lia.
From stdpp Require Import base gmap strings list.

Local Open Scope Z_scope.

(** ** Outcomes of a member function *)

Inductive fault : Type :=
  | NullDereference
  | OutOfBounds.

Inductive result (A : Type) : Type :=
  | Ok (a : A)
  | Fault (f : fault).

Arguments Ok {A} a.
Arguments Fault {A} f.

#[global] Instance result_ret : MRet result := fun A a => Ok a.

#[global] Instance result_bind : MBind result := fun A B k r =>
  match r with
  | Ok a => k a
  | Fault f => Fault f
  end.

(** ** GLM vectors and matrices *)

Module glm.

Record vec2 : Type := mkvec2 { x2 : R; y2 : R }.
Record vec3 : Type := mkvec3 { x3 : R; y3 : R; z3 : R }.
Record vec4 : Type := mkvec4 { x4 : R; y4 : R; z4 : R; w4 : R }.

(** A [mat4] is four columns: [m[c]] is column [c], [m[c][r]] its row [r]. *)
Record mat4 : Type := mkmat4 { col0 : vec4; col1 : vec4; col2 : vec4; col3 : vec4 }.

Local Open Scope R_scope.

Definition vadd (a b : vec4) : vec4 :=
  mkvec4 (x4 a + x4 b) (y4 a + y4 b) (z4 a + z4 b) (w4 a + w4 b).

Definition vscale (a : vec4) (k : R) : vec4 :=
  mkvec4 (x4 a * k) (y4 a * k) (z4 a * k) (w4 a * k).

(** [mat4(1.0f)] *)
Definition identity : mat4 :=
  mkmat4 (mkvec4 1 0 0 0) (mkvec4 0 1 0 0) (mkvec4 0 0 1 0) (mkvec4 0 0 0 1).

(** [m * v]: the linear combination of the columns of [m]. *)
Definition mul_vec (m : mat4) (v : vec4) : vec4 :=
  vadd (vadd (vadd (vscale (col0 m) (x4 v)) (vscale (col1 m) (y4 v)))
             (vscale (col2 m) (z4 v)))
       (vscale (col3 m) (w4 v)).

(** [m1 * m2]: column [c] of the product is [m1] applied to column [c] of
    [m2]. *)
Definition mul (m1 m2 : mat4) : mat4 :=
  mkmat4 (mul_vec m1 (col0 m2)) (mul_vec m1 (col1 m2))
         (mul_vec m1 (col2 m2)) (mul_vec m1 (col3 m2)).

(** [glm::radians] *)
Definition radians (degrees : R) : R := degrees * (PI / 180).

Definition dot3 (a b : vec3) : R := x3 a * x3 b + y3 a * y3 b + z3 a * z3 b.

(** [glm::normalize(v) = v * inversesqrt(dot(v, v))] *)
Definition normalize (v : vec3) : vec3 :=
  let k := / sqrt (dot3 v v) in
  mkvec3 (x3 v * k) (y3 v * k) (z3 v * k).

(** [glm::scale(v)], that is [scale(mat4(1), v)]. *)
Definition scale (v : vec3) : mat4 :=
  let m := identity in
  mkmat4 (vscale (col0 m) (x3 v)) (vscale (col1 m) (y3 v))
         (vscale (col2 m) (z3 v)) (col3 m).

(** [glm::translate(v)], that is [translate(mat4(1), v)]. *)
Definition translate (v : vec3) : mat4 :=
  let m := identity in
  mkmat4 (col0 m) (col1 m) (col2 m)
         (vadd (vadd (vadd (vscale (col0 m) (x3 v)) (vscale (col1 m) (y3 v)))
                     (vscale (col2 m) (z3 v)))
               (col3 m)).

(** [glm::rotate(angle, v)], that is [rotate(mat4(1), angle, v)]. *)
Definition rotate (angle : R) (v : vec3) : mat4 :=
  let m := identity in
  let c := cos angle in
  let s := sin angle in
  let axis := normalize v in
  let temp := mkvec3 ((1 - c) * x3 axis) ((1 - c) * y3 axis) ((1 - c) * z3 axis) in
  let r00 := c + x3 temp * x3 axis in
  let r01 := x3 temp * y3 axis + s * z3 axis in
  let r02 := x3 temp * z3 axis - s * y3 axis in
  let r10 := y3 temp * x3 axis - s * z3 axis in
  let r11 := c + y3 temp * y3 axis in
  let r12 := y3 temp * z3 axis + s * x3 axis in
  let r20 := z3 temp * x3 axis + s * y3 axis in
  let r21 := z3 temp * y3 axis - s * x3 axis in
  let r22 := c + z3 temp * z3 axis in
  mkmat4
    (vadd (vadd (vscale (col0 m) r00) (vscale (col1 m) r01)) (vscale (col2 m) r02))
    (vadd (vadd (vscale (col0 m) r10) (vscale (col1 m) r11)) (vscale (col2 m) r12))
    (vadd (vadd (vscale (col0 m) r20) (vscale (col1 m) r21)) (vscale (col2 m) r22))
    (col3 m).

End glm.

(** ** The shader-parameter interface

    [ShaderManager] is an external class; what the scene manager relies on is
    that each setter stores a value under a uniform name.  The model is the
    table of the values last uploaded. *)

Inductive uniform : Type :=
  | UInt (i : Z)
  | UBool (b : bool)
  | UFloat (f : R)
  | UVec2 (v : glm.vec2)
  | UVec3 (v : glm.vec3)
  | UVec4 (v : glm.vec4)
  | UMat4 (m : glm.mat4)
  | USampler2D (unit : Z).

Abbreviation ShaderManager := (gmap string uniform).

Definition setIntValue (name : string) (v : Z) (sm : ShaderManager) : ShaderManager :=
  <[name := UInt v]> sm.
Definition setBoolValue (name : string) (v : bool) (sm : ShaderManager) : ShaderManager :=
  <[name := UBool v]> sm.
Definition setFloatValue (name : string) (v : R) (sm : ShaderManager) : ShaderManager :=
  <[name := UFloat v]> sm.
Definition setVec2Value (name : string) (v : glm.vec2) (sm : ShaderManager) : ShaderManager :=
  <[name := UVec2 v]> sm.
Definition setVec3Value (name : string) (v : glm.vec3) (sm : ShaderManager) : ShaderManager :=
  <[name := UVec3 v]> sm.
Definition setVec4Value (name : string) (v : glm.vec4) (sm : ShaderManager) : ShaderManager :=
  <[name := UVec4 v]> sm.
Definition setMat4Value (name : string) (v : glm.mat4) (sm : ShaderManager) : ShaderManager :=
  <[name := UMat4 v]> sm.
Definition setSampler2DValue (name : string) (v : Z) (sm : ShaderManager) : ShaderManager :=
  <[name := USampler2D v]> sm.

(** The file-scope uniform names. *)
Definition g_ModelName : string := "model".
Definition g_ColorValueName : string := "objectColor".
Definition g_TextureValueName : string := "objectTexture".
Definition g_UseTextureName : string := "bUseTexture".
Definition g_UseLightingName : string := "bUseLighting".

(** ** The OpenGL context

    Only the texture state the scene manager touches: the texture names in
    use, the active texture unit, the 2D binding of every unit and the state
    of each texture object.  The context is assumed to offer at least as many
    texture units as the texture array has slots. *)

Definition GL_TEXTURE_2D : Z := 0x0DE1.
Definition GL_TEXTURE_MAG_FILTER : Z := 0x2800.
Definition GL_TEXTURE_MIN_FILTER : Z := 0x2801.
Definition GL_TEXTURE_WRAP_S : Z := 0x2802.
Definition GL_TEXTURE_WRAP_T : Z := 0x2803.
Definition GL_LINEAR : Z := 0x2601.
Definition GL_REPEAT : Z := 0x2901.
Definition GL_RGB : Z := 0x1907.
Definition GL_RGBA : Z := 0x1908.
Definition GL_RGB8 : Z := 0x8051.
Definition GL_RGBA8 : Z := 0x8058.
Definition GL_TEXTURE0 : Z := 0x84C0.

(** A decoded image, as [stbi_load] reports it. *)
Record Image : Type := mkImage {
  img_width : Z;
  img_height : Z;
  img_channels : Z
}.

Record TextureObject : Type := mkTextureObject {
  tex_params : gmap Z Z;                  (* parameter name => value *)
  tex_storage : option (Z * Z * Z);       (* internal format, width, height *)
  tex_mipmaps : bool
}.

Definition new_texture_object : TextureObject :=
  mkTextureObject ∅ None false.

Record GLContext : Type := mkGLContext {
  gl_names : list Z;                      (* texture names in use, newest first *)
  gl_active : Z;                          (* selector set by glActiveTexture *)
  gl_binding_2d : gmap Z Z;               (* unit index => name bound to GL_TEXTURE_2D *)
  gl_objects : gmap Z TextureObject       (* name => object state *)
}.

(** A name not in use: one above the largest name in use. *)
Definition fresh_name (names : list Z) : Z :=
  1 + foldr Z.max 0 names.

(** [glGenTextures(1, &id)]: reserves one unused name and returns it. *)
Definition glGenTextures (c : GLContext) : Z * GLContext :=
  let id := fresh_name (gl_names c) in
  (id, mkGLContext (id :: gl_names c) (gl_active c) (gl_binding_2d c) (gl_objects c)).

Definition active_unit (c : GLContext) : Z := gl_active c - GL_TEXTURE0.

(** The name bound to [GL_TEXTURE_2D] on the active unit (0 when none). *)
Definition bound_2d (c : GLContext) : Z :=
  default 0 (gl_binding_2d c !! active_unit c).

Definition object_of (c : GLContext) (name : Z) : TextureObject :=
  default new_texture_object (gl_objects c !! name).

(** [glActiveTexture(texture)] *)
Definition glActiveTexture (texture : Z) (c : GLContext) : GLContext :=
  mkGLContext (gl_names c) texture (gl_binding_2d c) (gl_objects c).

(** [glBindTexture(GL_TEXTURE_2D, id)]: binds [id] on the active unit; the
    first bind of a name creates its object. *)
Definition glBindTexture (id : Z) (c : GLContext) : GLContext :=
  mkGLContext (gl_names c) (gl_active c)
    (<[active_unit c := id]> (gl_binding_2d c))
    (<[id := object_of c id]> (gl_objects c)).

Definition update_bound (f : TextureObject -> TextureObject) (c : GLContext) : GLContext :=
  mkGLContext (gl_names c) (gl_active c) (gl_binding_2d c)
    (<[bound_2d c := f (object_of c (bound_2d c))]> (gl_objects c)).

(** [glTexParameteri(GL_TEXTURE_2D, pname, param)] *)
Definition glTexParameteri (pname param : Z) (c : GLContext) : GLContext :=
  update_bound (fun o =>
    mkTextureObject (<[pname := param]> (tex_params o)) (tex_storage o) (tex_mipmaps o)) c.

(** [glTexImage2D(GL_TEXTURE_2D, 0, internalformat, width, height, 0, format,
    GL_UNSIGNED_BYTE, pixels)] *)
Definition glTexImage2D (internalformat width height : Z) (c : GLContext) : GLContext :=
  update_bound (fun o =>
    mkTextureObject (tex_params o) (Some (internalformat, width, height)) (tex_mipmaps o)) c.

(** [glGenerateMipmap(GL_TEXTURE_2D)] *)
Definition glGenerateMipmap (c : GLContext) : GLContext :=
  update_bound (fun o => mkTextureObject (tex_params o) (tex_storage o) true) c.

(** ** The scene manager *)

Module TEXTURE_INFO.
Record t : Type := mk { ID : Z; tag : string }.
End TEXTURE_INFO.

Module OBJECT_MATERIAL.
Record t : Type := mk {
  diffuseColor : glm.vec3;
  specularColor : glm.vec3;
  shininess : R;
  tag : string
}.
End OBJECT_MATERIAL.

Inductive mesh : Type :=
  | PlaneMesh
  | BoxMesh
  | TaperedCylinderMesh
  | CylinderMesh
  | TorusMesh.

(** [ShapeMeshes] is external; the model records which meshes were
    generated, in order. *)
Abbreviation ShapeMeshes := (list mesh).

(** Modelled from the spec: the number of slots of [m_textureIDs], declared
    in SceneManager.h, which is not among the sources.  The spec gives the
    capacity as 16, and so does the comment on [BindGLTextures]. *)
Definition TEXTURE_SLOTS : nat := 16.

(** The object together with the services it acts on. *)
Record state : Type := mkState {
  m_pShaderManager : option ShaderManager;      (* None: the null pointer *)
  m_basicMeshes : option ShapeMeshes;           (* None: the null pointer *)
  m_loadedTextures : Z;
  m_textureIDs : list TEXTURE_INFO.t;           (* the array, TEXTURE_SLOTS long *)
  m_objectMaterials : list OBJECT_MATERIAL.t;   (* the std::vector *)
  gl : GLContext;
  files : gmap string Image;                    (* what stbi_load can decode *)
  image_buffers : Z                             (* decoded buffers not yet freed *)
}.

Definition set_gl (c : GLContext) (st : state) : state :=
  mkState (m_pShaderManager st) (m_basicMeshes st) (m_loadedTextures st)
    (m_textureIDs st) (m_objectMaterials st) c (files st) (image_buffers st).

Definition set_shader (sm : option ShaderManager) (st : state) : state :=
  mkState sm (m_basicMeshes st) (m_loadedTextures st)
    (m_textureIDs st) (m_objectMaterials st) (gl st) (files st) (image_buffers st).

Definition set_meshes (ms : option ShapeMeshes) (st : state) : state :=
  mkState (m_pShaderManager st) ms (m_loadedTextures st)
    (m_textureIDs st) (m_objectMaterials st) (gl st) (files st) (image_buffers st).

Definition set_loadedTextures (n : Z) (st : state) : state :=
  mkState (m_pShaderManager st) (m_basicMeshes st) n
    (m_textureIDs st) (m_objectMaterials st) (gl st) (files st) (image_buffers st).

Definition set_textureIDs (a : list TEXTURE_INFO.t) (st : state) : state :=
  mkState (m_pShaderManager st) (m_basicMeshes st) (m_loadedTextures st)
    a (m_objectMaterials st) (gl st) (files st) (image_buffers st).

Definition set_objectMaterials (ms : list OBJECT_MATERIAL.t) (st : state) : state :=
  mkState (m_pShaderManager st) (m_basicMeshes st) (m_loadedTextures st)
    (m_textureIDs st) ms (gl st) (files st) (image_buffers st).

Definition set_image_buffers (n : Z) (st : state) : state :=
  mkState (m_pShaderManager st) (m_basicMeshes st) (m_loadedTextures st)
    (m_textureIDs st) (m_objectMaterials st) (gl st) (files st) n.

(** [GLuint] to [int]. *)
Definition int_of_GLuint (u : Z) : Z :=
  if u <? 2 ^ 31 then u else u - 2 ^ 32.

(** [m_textureIDs[i]] as an rvalue. *)
Definition texture_at (st : state) (i : Z) : result TEXTURE_INFO.t :=
  if i <? 0 then Fault OutOfBounds
  else match m_textureIDs st !! Z.to_nat i with
       | Some e => Ok e
       | None => Fault OutOfBounds
       end.

(** [m_textureIDs[i] = f(m_textureIDs[i])]. *)
Definition texture_update (i : Z) (f : TEXTURE_INFO.t -> TEXTURE_INFO.t)
    (st : state) : result state :=
  e ← texture_at st i;
  Ok (set_textureIDs (<[Z.to_nat i := f e]> (m_textureIDs st)) st).

(** *** CreateGLTexture *)

(** The tail of [CreateGLTexture] after the pixel upload: mipmaps, release of
    the decoded buffer, unbind, registration in the next free slot. *)
Definition register_texture (textureID : Z) (tag : string) (st : state)
    : result (bool * state) :=
  let st := set_gl (glGenerateMipmap (gl st)) st in
  let st := set_image_buffers (image_buffers st - 1) st in
  let st := set_gl (glBindTexture 0 (gl st)) st in
  st ← texture_update (m_loadedTextures st)
         (fun e => TEXTURE_INFO.mk textureID (TEXTURE_INFO.tag e)) st;
  st ← texture_update (m_loadedTextures st)
         (fun e => TEXTURE_INFO.mk (TEXTURE_INFO.ID e) tag) st;
  let st := set_loadedTextures (m_loadedTextures st + 1) st in
  Ok (true, st).

(** [stbi_load] is the lookup in [files]; a hit allocates the decoded
    buffer.  The vertical-flip flag set just before concerns the pixel data,
    which the model does not carry. *)
Definition CreateGLTexture (filename tag : string) (st : state)
    : result (bool * state) :=
  match files st !! filename with
  | Some image =>
      let width := img_width image in
      let height := img_height image in
      let colorChannels := img_channels image in
      let st := set_image_buffers (image_buffers st + 1) st in
      let '(textureID, c) := glGenTextures (gl st) in
      let c := glBindTexture textureID c in
      let c := glTexParameteri GL_TEXTURE_WRAP_S GL_REPEAT c in
      let c := glTexParameteri GL_TEXTURE_WRAP_T GL_REPEAT c in
      let c := glTexParameteri GL_TEXTURE_MIN_FILTER GL_LINEAR c in
      let c := glTexParameteri GL_TEXTURE_MAG_FILTER GL_LINEAR c in
      let st := set_gl c st in
      if colorChannels =? 3 then
        register_texture textureID tag
          (set_gl (glTexImage2D GL_RGB8 width height (gl st)) st)
      else if colorChannels =? 4 then
        register_texture textureID tag
          (set_gl (glTexImage2D GL_RGBA8 width height (gl st)) st)
      else
        Ok (false, st)
  | None => Ok (false, st)
  end.

(** *** Counted loops

    [for (int i = 0; i < m_loadedTextures; i++) body(i)], where the body does
    not change [m_loadedTextures]: the trip count is known on entry. *)
Fixpoint for_loop (trips : nat) (i : Z) (body : Z -> state -> result state)
    (st : state) : result state :=
  match trips with
  | O => Ok st
  | S trips' => st' ← body i st; for_loop trips' (i + 1) body st'
  end.

(** *** BindGLTextures *)

Definition BindGLTextures_body (i : Z) (st : state) : result state :=
  let st := set_gl (glActiveTexture (GL_TEXTURE0 + i) (gl st)) st in
  e ← texture_at st i;
  Ok (set_gl (glBindTexture (TEXTURE_INFO.ID e) (gl st)) st).

Definition BindGLTextures (st : state) : result state :=
  for_loop (Z.to_nat (m_loadedTextures st)) 0 BindGLTextures_body st.

(** *** DestroyGLTextures *)

Definition DestroyGLTextures_body (i : Z) (st : state) : result state :=
  let '(id, c) := glGenTextures (gl st) in
  texture_update i (fun e => TEXTURE_INFO.mk id (TEXTURE_INFO.tag e)) (set_gl c st).

Definition DestroyGLTextures (st : state) : result state :=
  for_loop (Z.to_nat (m_loadedTextures st)) 0 DestroyGLTextures_body st.

(** *** FindTextureID and FindTextureSlot

    [while ((index < m_loadedTextures) && (bFound == false))]: every round
    either sets [bFound], which ends the loop, or increments [index], so the
    loop runs at most [m_loadedTextures - index] rounds. *)
Fixpoint FindTextureID_loop (rounds : nat) (index : Z) (textureID : Z)
    (tag : string) (st : state) : result Z :=
  match rounds with
  | O => Ok textureID
  | S rounds' =>
      e ← texture_at st index;
      if String.eqb (TEXTURE_INFO.tag e) tag
      then Ok (int_of_GLuint (TEXTURE_INFO.ID e))
      else FindTextureID_loop rounds' (index + 1) textureID tag st
  end.

Definition FindTextureID (tag : string) (st : state) : result Z :=
  FindTextureID_loop (Z.to_nat (m_loadedTextures st)) 0 (-1) tag st.

Fixpoint FindTextureSlot_loop (rounds : nat) (index : Z) (textureSlot : Z)
    (tag : string) (st : state) : result Z :=
  match rounds with
  | O => Ok textureSlot
  | S rounds' =>
      e ← texture_at st index;
      if String.eqb (TEXTURE_INFO.tag e) tag
      then Ok index
      else FindTextureSlot_loop rounds' (index + 1) textureSlot tag st
  end.

Definition FindTextureSlot (tag : string) (st : state) : result Z :=
  FindTextureSlot_loop (Z.to_nat (m_loadedTextures st)) 0 (-1) tag st.

(** *** FindMaterial

    [material] is the caller's object, passed by reference: it is written
    only on a match.  The returned pair is the function result and the
    caller's object afterwards. *)
Fixpoint FindMaterial_loop (rounds : nat) (index : nat) (tag : string)
    (material : OBJECT_MATERIAL.t) (mats : list OBJECT_MATERIAL.t)
    : bool * OBJECT_MATERIAL.t :=
  match rounds with
  | O => (false, material)
  | S rounds' =>
      match mats !! index with
      | Some m =>
          if String.eqb (OBJECT_MATERIAL.tag m) tag
          then (true,
                OBJECT_MATERIAL.mk (OBJECT_MATERIAL.diffuseColor m)
                  (OBJECT_MATERIAL.specularColor m)
                  (OBJECT_MATERIAL.shininess m)
                  (OBJECT_MATERIAL.tag material))
          else FindMaterial_loop rounds' (S index) tag material mats
      | None => (false, material)
      end
  end.

Definition FindMaterial (tag : string) (material : OBJECT_MATERIAL.t)
    (st : state) : bool * OBJECT_MATERIAL.t :=
  if (length (m_objectMaterials st) =? 0)%nat then (false, material)
  else
    let '(bFound, material) :=
      FindMaterial_loop (length (m_objectMaterials st)) 0 tag material
        (m_objectMaterials st) in
    (true, material).

(** *** The shader-state binder *)

(** [m_pShaderManager->f(...)] with no guard in front of it. *)
Definition deref_shader (f : ShaderManager -> ShaderManager) (st : state)
    : result state :=
  match m_pShaderManager st with
  | Some sm => Ok (set_shader (Some (f sm)) st)
  | None => Fault NullDereference
  end.

(** [if (NULL != m_pShaderManager) { m_pShaderManager->f(...); }] *)
Definition guarded_shader (f : ShaderManager -> ShaderManager) (st : state)
    : state :=
  match m_pShaderManager st with
  | Some sm => set_shader (Some (f sm)) st
  | None => st
  end.

Definition SetTransformations (scaleXYZ : glm.vec3)
    (XrotationDegrees YrotationDegrees ZrotationDegrees : R)
    (positionXYZ : glm.vec3) (st : state) : state :=
  let scale := glm.scale scaleXYZ in
  let rotationX := glm.rotate (glm.radians XrotationDegrees) (glm.mkvec3 1 0 0) in
  let rotationY := glm.rotate (glm.radians YrotationDegrees) (glm.mkvec3 0 1 0) in
  let rotationZ := glm.rotate (glm.radians ZrotationDegrees) (glm.mkvec3 0 0 1) in
  let translation := glm.translate positionXYZ in
  let modelView :=
    glm.mul (glm.mul (glm.mul (glm.mul translation rotationZ) rotationY) rotationX)
      scale in
  guarded_shader (setMat4Value g_ModelName modelView) st.

Definition SetShaderColor (redColorValue greenColorValue blueColorValue alphaValue : R)
    (st : state) : state :=
  let currentColor :=
    glm.mkvec4 redColorValue greenColorValue blueColorValue alphaValue in
  guarded_shader
    (fun sm => setVec4Value g_ColorValueName currentColor
                 (setIntValue g_UseTextureName 0 sm)) st.

Definition SetShaderTexture (textureTag : string) (st : state) : result state :=
  match m_pShaderManager st with
  | Some sm =>
      let sm := setIntValue g_UseTextureName 1 sm in
      textureID ← FindTextureSlot textureTag st;
      Ok (set_shader (Some (setSampler2DValue g_TextureValueName textureID sm)) st)
  | None => Ok st
  end.

Definition SetTextureUVScale (u v : R) (st : state) : state :=
  guarded_shader (setVec2Value "UVscale" (glm.mkvec2 u v)) st.

(** [material] is a local without initialiser; [indeterminate] stands for
    whatever it holds before [FindMaterial] is called. *)
Definition SetShaderMaterial (materialTag : string)
    (indeterminate : OBJECT_MATERIAL.t) (st : state) : result state :=
  if (0 <? length (m_objectMaterials st))%nat then
    let '(bReturn, material) := FindMaterial materialTag indeterminate st in
    if bReturn then
      st ← deref_shader (setVec3Value "material.diffuseColor"
                           (OBJECT_MATERIAL.diffuseColor material)) st;
      st ← deref_shader (setVec3Value "material.specularColor"
                           (OBJECT_MATERIAL.specularColor material)) st;
      deref_shader (setFloatValue "material.shininess"
                      (OBJECT_MATERIAL.shininess material)) st
    else Ok st
  else Ok st.

(** *** Scene preparation *)

Definition LoadSceneTextures (st : state) : result state :=
  '(bReturn, st) ← CreateGLTexture "textures/Floor.jpg" "floor" st;
  '(bReturn, st) ← CreateGLTexture "textures/Leg.jpg" "leg" st;
  '(bReturn, st) ← CreateGLTexture "textures/Tabletop.jpg" "tabletop" st;
  '(bReturn, st) ← CreateGLTexture "textures/Plate.jpg" "plate" st;
  '(bReturn, st) ← CreateGLTexture "textures/Mug.jpg" "mug" st;
  BindGLTextures st.

Definition push_back (m : OBJECT_MATERIAL.t) (st : state) : state :=
  set_objectMaterials (m_objectMaterials st ++ [m]) st.

Definition gravelMaterial : OBJECT_MATERIAL.t :=
  OBJECT_MATERIAL.mk (glm.mkvec3 0.502 0.502 0.502) (glm.mkvec3 0.502 0.502 0.502)
    20 "gravel".
Definition metalMaterial : OBJECT_MATERIAL.t :=
  OBJECT_MATERIAL.mk (glm.mkvec3 0 0 0) (glm.mkvec3 0.78 0.78 0.78) 85 "metal".
Definition woodMaterial : OBJECT_MATERIAL.t :=
  OBJECT_MATERIAL.mk (glm.mkvec3 0.3 0.25 0.24) (glm.mkvec3 0.66 0.26 0.18) 80 "wood".
Definition porcelainMaterial : OBJECT_MATERIAL.t :=
  OBJECT_MATERIAL.mk (glm.mkvec3 0.96 0.96 0.96) (glm.mkvec3 0.78 0.78 0.78)
    80 "porcelain".
Definition glassMaterial : OBJECT_MATERIAL.t :=
  OBJECT_MATERIAL.mk (glm.mkvec3 1 1 1) (glm.mkvec3 0.21 0.21 0.21) 95 "glass".

Definition DefineObjectMaterials (st : state) : state :=
  let st := push_back gravelMaterial st in
  let st := push_back metalMaterial st in
  let st := push_back woodMaterial st in
  let st := push_back porcelainMaterial st in
  push_back glassMaterial st.

Definition SetupSceneLights (st : state) : result state :=
  st ← deref_shader (setVec3Value "directionalLight.direction" (glm.mkvec3 (-6) 5 5)) st;
  st ← deref_shader (setVec3Value "directionalLight.ambient" (glm.mkvec3 0.4 0.4 0.4)) st;
  st ← deref_shader (setVec3Value "directionalLight.diffuse" (glm.mkvec3 0.6 0.6 0.6)) st;
  st ← deref_shader (setVec3Value "directionalLight.specular" (glm.mkvec3 0 0 0)) st;
  st ← deref_shader (setBoolValue "directionalLight.bActive" true) st;
  st ← deref_shader (setVec3Value "pointLights[0].position" (glm.mkvec3 0 15 (-8))) st;
  st ← deref_shader (setVec3Value "pointLights[0].ambient" (glm.mkvec3 0.03 0.03 0)) st;
  st ← deref_shader (setVec3Value "pointLights[0].diffuse" (glm.mkvec3 0.4 0.4 0)) st;
  st ← deref_shader (setVec3Value "pointLights[0].specular" (glm.mkvec3 1 1 0)) st;
  st ← deref_shader (setBoolValue "pointLights[0].bActive" true) st;
  st ← deref_shader (setVec3Value "pointLights[1].position" (glm.mkvec3 5 0 10)) st;
  st ← deref_shader (setVec3Value "pointLights[1].ambient" (glm.mkvec3 0 0 0)) st;
  st ← deref_shader (setVec3Value "pointLights[1].diffuse" (glm.mkvec3 0.2 0.2 0)) st;
  st ← deref_shader (setVec3Value "pointLights[1].specular" (glm.mkvec3 1 1 0)) st;
  st ← deref_shader (setBoolValue "pointLights[1].bActive" true) st;
  st ← deref_shader (setVec3Value "pointLights[2].position" (glm.mkvec3 (-5) 0 10)) st;
  st ← deref_shader (setVec3Value "pointLights[2].ambient" (glm.mkvec3 0 0 0)) st;
  st ← deref_shader (setVec3Value "pointLights[2].diffuse" (glm.mkvec3 0.2 0.2 0)) st;
  st ← deref_shader (setVec3Value "pointLights[2].specular" (glm.mkvec3 1 1 0)) st;
  st ← deref_shader (setBoolValue "pointLights[2].bActive" true) st;
  deref_shader (setBoolValue "bUseLighting" true) st.

(** [m_basicMeshes->Load...Mesh()] *)
Definition load_mesh (m : mesh) (st : state) : result state :=
  match m_basicMeshes st with
  | Some ms => Ok (set_meshes (Some (ms ++ [m])) st)
  | None => Fault NullDereference
  end.

Definition PrepareScene (st : state) : result state :=
  st ← LoadSceneTextures st;
  let st := DefineObjectMaterials st in
  st ← SetupSceneLights st;
  st ← load_mesh PlaneMesh st;
  st ← load_mesh BoxMesh st;
  st ← load_mesh TaperedCylinderMesh st;
  st ← load_mesh CylinderMesh st;
  load_mesh TorusMesh st.

(** ** Vocabulary of the properties *)

(** [st'] differs from [st] at most in the texture registry, the context and
    the count of decoded buffers. *)
Definition same_but_textures (st st' : state) : Prop :=
  m_pShaderManager st' = m_pShaderManager st /\
  m_basicMeshes st' = m_basicMeshes st /\
  m_objectMaterials st' = m_objectMaterials st /\
  files st' = files st.

(** [st'] differs from [st] at most in the context. *)
Definition same_but_context (st st' : state) : Prop :=
  same_but_textures st st' /\
  m_loadedTextures st' = m_loadedTextures st /\
  m_textureIDs st' = m_textureIDs st /\
  image_buffers st' = image_buffers st.

(** [stbi_load] decodes [filename] to an image the loader supports. *)
Definition loadable (filename : string) (st : state) : Prop :=
  exists image : Image,
    files st !! filename = Some image /\
    (img_channels image = 3 \/ img_channels image = 4).


(** The registered textures: the first [m_loadedTextures] slots. *)
Definition registered (st : state) : list TEXTURE_INFO.t :=
  take (Z.to_nat (m_loadedTextures st)) (m_textureIDs st).

(** The fill counter does not run past the array. *)
Definition within_array (st : state) : Prop :=
  m_loadedTextures st <= Z.of_nat (length (m_textureIDs st)).

(** Entry [i] is the first one of [l] carrying [tag]. *)
Definition first_match (tag : string) (l : list TEXTURE_INFO.t) (i : nat)
    (e : TEXTURE_INFO.t) : Prop :=
  l !! i = Some e /\ TEXTURE_INFO.tag e = tag /\
  forall (j : nat) (e' : TEXTURE_INFO.t),
    (j < i)%nat -> l !! j = Some e' -> TEXTURE_INFO.tag e' <> tag.

(** The five texture files of the scene all decode to supported images. *)
Definition scene_loadable (st : state) : Prop :=
  loadable "textures/Floor.jpg" st /\
  loadable "textures/Leg.jpg" st /\
  loadable "textures/Tabletop.jpg" st /\
  loadable "textures/Plate.jpg" st /\
  loadable "textures/Mug.jpg" st.

(** ** Sample states *)

Definition empty_context : GLContext :=
  mkGLContext [] GL_TEXTURE0 ∅ ∅.

Definition blank_slot : TEXTURE_INFO.t := TEXTURE_INFO.mk 0 "".

(** A freshly constructed scene manager with cleared registries. *)
Definition fresh_state (fs : gmap string Image) : state :=
  mkState (Some ∅) (Some []) 0 (replicate TEXTURE_SLOTS blank_slot) [] empty_context fs 0.

(** Three registered textures, the tag "leg" stored twice. *)
Definition three_textures : state :=
  mkState (Some ∅) (Some []) 3
    ([TEXTURE_INFO.mk 7 "leg"; TEXTURE_INFO.mk 8 "floor"; TEXTURE_INFO.mk 9 "leg"]
       ++ replicate 13 blank_slot)
    [] (mkGLContext [9; 8; 7] GL_TEXTURE0 ∅ ∅) ∅ 0.

(** A value for the uninitialised local of [SetShaderMaterial]. *)
Definition scrap_material : OBJECT_MATERIAL.t :=
  OBJECT_MATERIAL.mk (glm.mkvec3 0 0 0) (glm.mkvec3 0 0 0) 0 "".

(** The five presets defined, nothing else done. *)
Definition defined_materials : state :=
  DefineObjectMaterials (fresh_state ∅).

(** The same with a null shader-manager pointer. *)
Definition null_shader : state :=
  set_shader None defined_materials.

(** One decodable file holding a two-channel image. *)
Definition gray_file : gmap string Image :=
  {[ "textures/Gray.png" := mkImage 64 64 2 ]}.

(** The five scene textures on disk, three-channel JPEGs. *)
Definition scene_files : gmap string Image :=
  {[ "textures/Floor.jpg" := mkImage 1024 1024 3;
     "textures/Leg.jpg" := mkImage 512 512 3;
     "textures/Tabletop.jpg" := mkImage 1024 512 3;
     "textures/Plate.jpg" := mkImage 256 256 3;
     "textures/Mug.jpg" := mkImage 256 256 3 ]}.

(** ** Invariant of the texture registry *)

(** The GL names held by the registered entries. *)
Definition registered_IDs (st : state) : list Z :=
  TEXTURE_INFO.ID <$> registered st.

(** The counter is within the array, and the registered entries hold
    pairwise distinct GL names that are in use in the context. *)
Definition registry_ok (st : state) : Prop :=
  0 <= m_loadedTextures st /\
  within_array st /\
  NoDup (registered_IDs st) /\
  forall id : Z, id ∈ registered_IDs st -> id ∈ gl_names (gl st).

(** Entry [i] is the first material of [l] carrying [tag]. *)
Definition first_material (tag : string) (l : list OBJECT_MATERIAL.t) (i : nat)
    (m : OBJECT_MATERIAL.t) : Prop :=
  l !! i = Some m /\ OBJECT_MATERIAL.tag m = tag /\
  forall (j : nat) (m' : OBJECT_MATERIAL.t),
    (j < i)%nat -> l !! j = Some m' -> OBJECT_MATERIAL.tag m' <> tag.

(** What [FindMaterial] writes into the caller's object on a match. *)
Definition copy_material (m material : OBJECT_MATERIAL.t) : OBJECT_MATERIAL.t :=
  OBJECT_MATERIAL.mk (OBJECT_MATERIAL.diffuseColor m)
    (OBJECT_MATERIAL.specularColor m) (OBJECT_MATERIAL.shininess m)
    (OBJECT_MATERIAL.tag material).

(** The state of a texture object right after a successful load. *)
Definition loaded_texture (image : Image) (o : TextureObject) : Prop :=
  tex_params o !! GL_TEXTURE_WRAP_S = Some GL_REPEAT /\
  tex_params o !! GL_TEXTURE_WRAP_T = Some GL_REPEAT /\
  tex_params o !! GL_TEXTURE_MIN_FILTER = Some GL_LINEAR /\
  tex_params o !! GL_TEXTURE_MAG_FILTER = Some GL_LINEAR /\
  tex_storage o
    = Some (if img_channels image =? 3 then GL_RGB8 else GL_RGBA8,
            img_width image, img_height image) /\
  tex_mipmaps o = true.

(** Does [stbi_load] decode [filename] to an image the loader supports? *)
Definition supported (filename : string) (st : state) : bool :=
  match files st !! filename with
  | Some image => (img_channels image =? 3) || (img_channels image =? 4)
  | None => false
  end.

(** How many of the five texture files of the scene are supported. *)
Definition supported_scene_files (st : state) : Z :=
  Z.b2z (supported "textures/Floor.jpg" st)
  + Z.b2z (supported "textures/Leg.jpg" st)
  + Z.b2z (supported "textures/Tabletop.jpg" st)
  + Z.b2z (supported "textures/Plate.jpg" st)
  + Z.b2z (supported "textures/Mug.jpg" st).

(** ** Rendering

    [RenderScene] is one group of statements written out forty-two times,
    each time with its own constants: set the five transformation variables,
    [SetTransformations], [SetShaderColor], then (for all but two objects)
    [SetShaderTexture] and [SetShaderMaterial], then one draw call of the
    mesh library.  [scene_script] lists the constants of the groups in source
    order and [render_object] is the group. *)

Record SceneObject : Type := mkSceneObject {
  obj_scaleXYZ : glm.vec3;
  obj_XrotationDegrees : R;
  obj_YrotationDegrees : R;
  obj_ZrotationDegrees : R;
  obj_positionXYZ : glm.vec3;
  obj_color : glm.vec4;                (* the arguments of SetShaderColor *)
  obj_texture : option string;         (* the argument of SetShaderTexture, if called *)
  obj_material : option string;        (* the argument of SetShaderMaterial, if called *)
  obj_mesh : mesh                      (* which Draw...Mesh is called *)
}.

(** One draw call: the mesh drawn and the uniform table at that moment
    ([None] when there is no shader manager to ask). *)
Abbreviation draw := (mesh * option ShaderManager)%type.

(** [m_basicMeshes->Draw...Mesh()] *)
Definition draw_mesh (m : mesh) (st : state) (frame : list draw)
    : result (list draw) :=
  match m_basicMeshes st with
  | Some _ => Ok (frame ++ [(m, m_pShaderManager st)])
  | None => Fault NullDereference
  end.

Definition render_object (indeterminate : OBJECT_MATERIAL.t) (o : SceneObject)
    (st : state) (frame : list draw) : result (state * list draw) :=
  let st :=
    SetTransformations (obj_scaleXYZ o) (obj_XrotationDegrees o)
      (obj_YrotationDegrees o) (obj_ZrotationDegrees o) (obj_positionXYZ o) st in
  let st :=
    SetShaderColor (glm.x4 (obj_color o)) (glm.y4 (obj_color o))
      (glm.z4 (obj_color o)) (glm.w4 (obj_color o)) st in
  st ← match obj_texture o with
       | Some textureTag => SetShaderTexture textureTag st
       | None => Ok st
       end;
  st ← match obj_material o with
       | Some materialTag => SetShaderMaterial materialTag indeterminate st
       | None => Ok st
       end;
  frame ← draw_mesh (obj_mesh o) st frame;
  Ok (st, frame).

Definition scene_script : list SceneObject := [
  (* lines 546-557 *)
  mkSceneObject (glm.mkvec3 20 1 10) 0 0 0 (glm.mkvec3 0 0 0)
    (glm.mkvec4 1 1 1 1) (Some "floor") (Some "gravel") PlaneMesh;
  (* lines 570-580 *)
  mkSceneObject (glm.mkvec3 5 0.7 0.5) 0 0 90 (glm.mkvec3 3 1.5 3)
    (glm.mkvec4 1 0 0 1) (Some "leg") (Some "metal") BoxMesh;
  (* lines 592-602 *)
  mkSceneObject (glm.mkvec3 5 0.7 0.5) 0 0 90 (glm.mkvec3 (-3) 1.5 3)
    (glm.mkvec4 1 0 0 1) (Some "leg") (Some "metal") BoxMesh;
  (* lines 614-624 *)
  mkSceneObject (glm.mkvec3 5 0.7 0.5) 0 0 90 (glm.mkvec3 (-3) 1.5 (-3))
    (glm.mkvec4 1 0 0 1) (Some "leg") (Some "metal") BoxMesh;
  (* lines 637-647 *)
  mkSceneObject (glm.mkvec3 5 0.7 0.5) 0 0 90 (glm.mkvec3 3 1.5 (-3))
    (glm.mkvec4 1 0 0 1) (Some "leg") (Some "metal") BoxMesh;
  (* lines 660-670 *)
  mkSceneObject (glm.mkvec3 8 1 7) 0 0 0 (glm.mkvec3 0 4.5 0)
    (glm.mkvec4 0 0 1 1) (Some "tabletop") (Some "wood") BoxMesh;
  (* lines 682-692 *)
  mkSceneObject (glm.mkvec3 5 0.7 0.5) 0 0 90 (glm.mkvec3 8 1 2)
    (glm.mkvec4 0 0 1 1) (Some "leg") (Some "metal") BoxMesh;
  (* lines 704-714 *)
  mkSceneObject (glm.mkvec3 5 0.7 0.5) 0 0 90 (glm.mkvec3 2 1 2)
    (glm.mkvec4 0 0 1 1) (Some "leg") (Some "metal") BoxMesh;
  (* lines 726-736 *)
  mkSceneObject (glm.mkvec3 5 0.7 0.5) 0 0 90 (glm.mkvec3 8 5 2)
    (glm.mkvec4 0 0 1 1) (Some "leg") (Some "metal") BoxMesh;
  (* lines 748-758 *)
  mkSceneObject (glm.mkvec3 5 0.7 0.5) 0 0 90 (glm.mkvec3 2 1 (-2))
    (glm.mkvec4 0 0 1 1) (Some "leg") (Some "metal") BoxMesh;
  (* lines 770-780 *)
  mkSceneObject (glm.mkvec3 5 0.7 0.5) 0 0 90 (glm.mkvec3 8 1 (-2))
    (glm.mkvec4 0 0 1 1) (Some "leg") (Some "metal") BoxMesh;
  (* lines 792-802 *)
  mkSceneObject (glm.mkvec3 5 0.7 0.5) 0 0 90 (glm.mkvec3 8 5 (-2))
    (glm.mkvec4 0 0 1 1) (Some "leg") (Some "metal") BoxMesh;
  (* lines 814-824 *)
  mkSceneObject (glm.mkvec3 6 0.3 0.3) 0 0 0 (glm.mkvec3 5 1.5 (-2))
    (glm.mkvec4 0 0 1 1) (Some "leg") (Some "metal") BoxMesh;
  (* lines 836-846 *)
  mkSceneObject (glm.mkvec3 6 0.3 0.3) 0 0 0 (glm.mkvec3 5 1.5 2)
    (glm.mkvec4 0 0 1 1) (Some "leg") (Some "metal") BoxMesh;
  (* lines 858-868 *)
  mkSceneObject (glm.mkvec3 6.5 0.7 0.5) 0 0 0 (glm.mkvec3 4.9 3.5 (-2))
    (glm.mkvec4 0 0 1 1) (Some "leg") (Some "metal") BoxMesh;
  (* lines 880-890 *)
  mkSceneObject (glm.mkvec3 6.5 0.7 0.5) 0 0 0 (glm.mkvec3 4.9 3.5 2)
    (glm.mkvec4 0 0 1 1) (Some "leg") (Some "metal") BoxMesh;
  (* lines 902-912 *)
  mkSceneObject (glm.mkvec3 6.5 0.7 3.5) 0 0 0 (glm.mkvec3 5 3.5 0)
    (glm.mkvec4 0 0 1 1) (Some "tabletop") (Some "wood") BoxMesh;
  (* lines 924-934 *)
  mkSceneObject (glm.mkvec3 4 0.7 0.5) 0 90 0 (glm.mkvec3 8 4.5 0)
    (glm.mkvec4 0 0 1 1) (Some "leg") (Some "metal") BoxMesh;
  (* lines 946-956 *)
  mkSceneObject (glm.mkvec3 4 0.7 0.5) 0 90 0 (glm.mkvec3 8 5.5 0)
    (glm.mkvec4 0 0 1 1) (Some "leg") (Some "metal") BoxMesh;
  (* lines 968-978 *)
  mkSceneObject (glm.mkvec3 4 0.7 0.5) 0 90 0 (glm.mkvec3 8 6.5 0)
    (glm.mkvec4 0 0 1 1) (Some "leg") (Some "metal") BoxMesh;
  (* lines 990-1000 *)
  mkSceneObject (glm.mkvec3 5 0.7 0.5) 0 0 90 (glm.mkvec3 (-8) 1 2)
    (glm.mkvec4 0 0 1 1) (Some "leg") (Some "metal") BoxMesh;
  (* lines 1012-1022 *)
  mkSceneObject (glm.mkvec3 5 0.7 0.5) 0 0 90 (glm.mkvec3 (-2) 1 2)
    (glm.mkvec4 0 0 1 1) (Some "leg") (Some "metal") BoxMesh;
  (* lines 1034-1044 *)
  mkSceneObject (glm.mkvec3 5 0.7 0.5) 0 0 90 (glm.mkvec3 (-8) 5 2)
    (glm.mkvec4 0 0 1 1) (Some "leg") (Some "metal") BoxMesh;
  (* lines 1056-1066 *)
  mkSceneObject (glm.mkvec3 5 0.7 0.5) 0 0 90 (glm.mkvec3 (-2) 1 (-2))
    (glm.mkvec4 0 0 1 1) (Some "leg") (Some "metal") BoxMesh;
  (* lines 1078-1088 *)
  mkSceneObject (glm.mkvec3 5 0.7 0.5) 0 0 90 (glm.mkvec3 (-8) 1 (-2))
    (glm.mkvec4 0 0 1 1) (Some "leg") (Some "metal") BoxMesh;
  (* lines 1100-1110 *)
  mkSceneObject (glm.mkvec3 5 0.7 0.5) 0 0 90 (glm.mkvec3 (-8) 5 (-2))
    (glm.mkvec4 0 0 1 1) (Some "leg") (Some "metal") BoxMesh;
  (* lines 1122-1132 *)
  mkSceneObject (glm.mkvec3 6 0.3 0.3) 0 0 0 (glm.mkvec3 (-5) 1.5 (-2))
    (glm.mkvec4 0 0 1 1) (Some "leg") (Some "metal") BoxMesh;
  (* lines 1144-1154 *)
  mkSceneObject (glm.mkvec3 6 0.3 0.3) 0 0 0 (glm.mkvec3 (-5) 1.5 2)
    (glm.mkvec4 0 0 1 1) (Some "leg") (Some "metal") BoxMesh;
  (* lines 1166-1176 *)
  mkSceneObject (glm.mkvec3 6.5 0.7 0.5) 0 0 0 (glm.mkvec3 (-4.9) 3.5 (-2))
    (glm.mkvec4 0 0 1 1) (Some "leg") (Some "metal") BoxMesh;
  (* lines 1188-1198 *)
  mkSceneObject (glm.mkvec3 6.5 0.7 0.5) 0 0 0 (glm.mkvec3 (-4.9) 3.5 2)
    (glm.mkvec4 0 0 1 1) (Some "leg") (Some "metal") BoxMesh;
  (* lines 1210-1220 *)
  mkSceneObject (glm.mkvec3 6.5 0.7 3.5) 0 0 0 (glm.mkvec3 (-5) 3.5 0)
    (glm.mkvec4 0 0 1 1) (Some "tabletop") (Some "wood") BoxMesh;
  (* lines 1232-1242 *)
  mkSceneObject (glm.mkvec3 4 0.7 0.5) 0 90 0 (glm.mkvec3 (-8) 4.5 0)
    (glm.mkvec4 0 0 1 1) (Some "leg") (Some "metal") BoxMesh;
  (* lines 1254-1264 *)
  mkSceneObject (glm.mkvec3 4 0.7 0.5) 0 90 0 (glm.mkvec3 (-8) 5.5 0)
    (glm.mkvec4 0 0 1 1) (Some "leg") (Some "metal") BoxMesh;
  (* lines 1276-1286 *)
  mkSceneObject (glm.mkvec3 4 0.7 0.5) 0 90 0 (glm.mkvec3 (-8) 6.5 0)
    (glm.mkvec4 0 0 1 1) (Some "leg") (Some "metal") BoxMesh;
  (* lines 1298-1308 *)
  mkSceneObject (glm.mkvec3 1 (-0.4) 0.5) 0 0 0 (glm.mkvec3 (-2) 5.4 0)
    (glm.mkvec4 0 0 1 1) (Some "plate") (Some "porcelain") TaperedCylinderMesh;
  (* lines 1320-1330 *)
  mkSceneObject (glm.mkvec3 1 (-0.4) 0.5) 0 0 0 (glm.mkvec3 2 5.4 0)
    (glm.mkvec4 0 0 1 1) (Some "plate") (Some "porcelain") TaperedCylinderMesh;
  (* lines 1342-1350 *)
  mkSceneObject (glm.mkvec3 0.3 0.02 0.2) 0 0 0 (glm.mkvec3 1 5.68 (-1))
    (glm.mkvec4 0 0 1 1) None None CylinderMesh;
  (* lines 1362-1372 *)
  mkSceneObject (glm.mkvec3 0.3 0.7 0.2) 0 0 0 (glm.mkvec3 1 5 (-1))
    (glm.mkvec4 0 0 1 1) (Some "mug") (Some "glass") CylinderMesh;
  (* lines 1384-1392 *)
  mkSceneObject (glm.mkvec3 0.3 0.02 0.2) 0 0 0 (glm.mkvec3 (-1) 5.68 (-1))
    (glm.mkvec4 0 0 1 1) None None CylinderMesh;
  (* lines 1404-1414 *)
  mkSceneObject (glm.mkvec3 0.3 0.7 0.2) 0 0 0 (glm.mkvec3 (-1) 5 (-1))
    (glm.mkvec4 0 0 1 1) (Some "mug") (Some "glass") CylinderMesh;
  (* lines 1426-1436 *)
  mkSceneObject (glm.mkvec3 0.09 0.25 0.1) 0 0 0 (glm.mkvec3 (-1.3) 5.35 (-1))
    (glm.mkvec4 1 0 0 1) (Some "mug") (Some "glass") TorusMesh;
  (* lines 1448-1458 *)
  mkSceneObject (glm.mkvec3 0.09 0.25 0.1) 0 0 0 (glm.mkvec3 1.3 5.35 (-1))
    (glm.mkvec4 1 0 0 1) (Some "mug") (Some "glass") TorusMesh
].

(** The objects of [script] in order; object number [k] finds
    [indeterminate k] in the uninitialised local of its [SetShaderMaterial]
    call. *)
Fixpoint render_objects (indeterminate : nat -> OBJECT_MATERIAL.t) (k : nat)
    (script : list SceneObject) (st : state) (frame : list draw)
    : result (state * list draw) :=
  match script with
  | [] => Ok (st, frame)
  | o :: script' =>
      '(st, frame) ← render_object (indeterminate k) o st frame;
      render_objects indeterminate (S k) script' st frame
  end.

Definition RenderScene (indeterminate : nat -> OBJECT_MATERIAL.t) (st : state)
    : result (state * list draw) :=
  render_objects indeterminate 0 scene_script st [].

(** The three material uniforms of a uniform table. *)
Definition material_uniforms (sm : ShaderManager)
    : option uniform * option uniform * option uniform :=
  (sm !! "material.diffuseColor", sm !! "material.specularColor",
   sm !! "material.shininess").

(** ** Further sample states *)

(** Three registered textures, with the scene's files on disk. *)
Definition three_textures_on_disk : state :=
  mkState (Some ∅) (Some []) 3
    ([TEXTURE_INFO.mk 7 "leg"; TEXTURE_INFO.mk 8 "floor"; TEXTURE_INFO.mk 9 "leg"]
       ++ replicate 13 blank_slot)
    [] (mkGLContext [9; 8; 7] GL_TEXTURE0 ∅ ∅) scene_files 0.

(** A fresh scene manager whose counter has been set to [n]. *)
Definition counter_at (n : Z) : state :=
  set_loadedTextures n (fresh_state scene_files).

(** The same uninitialised local for every object of the script. *)
Definition scrap_locals : nat -> OBJECT_MATERIAL.t := fun _ => scrap_material.

(** ** Lookup in the texture registry *)

Section TextureLookup.

Variable tag : string.
Variable st : state.

Lemma texture_at_lookup (i : nat) (e : TEXTURE_INFO.t) :
  m_textureIDs st !! i = Some e -> texture_at st (Z.of_nat i) = Ok e.
Proof.
  intros H. unfold texture_at.
  destruct (Z.ltb_spec (Z.of_nat i) 0) as [Hneg|_]; [lia|].
  now rewrite Nat2Z.id, H.
Qed.

Lemma FindTextureSlot_loop_miss (rounds i : nat) (dflt : Z) :
  (forall k : nat, (k < rounds)%nat ->
     exists e, m_textureIDs st !! (i + k)%nat = Some e /\ TEXTURE_INFO.tag e <> tag) ->
  FindTextureSlot_loop rounds (Z.of_nat i) dflt tag st = Ok dflt.
Proof.
  revert i. induction rounds as [|rounds IH]; intros i Hall; [reflexivity|].
  destruct (Hall 0%nat) as (e & He & Hne); [lia|].
  rewrite Nat.add_0_r in He. cbn [FindTextureSlot_loop].
  rewrite (texture_at_lookup _ _ He). cbn.
  apply String.eqb_neq in Hne. rewrite Hne.
  replace (Z.of_nat i + 1) with (Z.of_nat (S i)) by lia.
  apply IH. intros k Hk. destruct (Hall (S k)) as (e' & He' & Hne'); [lia|].
  exists e'. split; [|assumption].
  now replace (S i + k)%nat with (i + S k)%nat by lia.
Qed.

Lemma FindTextureID_loop_miss (rounds i : nat) (dflt : Z) :
  (forall k : nat, (k < rounds)%nat ->
     exists e, m_textureIDs st !! (i + k)%nat = Some e /\ TEXTURE_INFO.tag e <> tag) ->
  FindTextureID_loop rounds (Z.of_nat i) dflt tag st = Ok dflt.
Proof.
  revert i. induction rounds as [|rounds IH]; intros i Hall; [reflexivity|].
  destruct (Hall 0%nat) as (e & He & Hne); [lia|].
  rewrite Nat.add_0_r in He. cbn [FindTextureID_loop].
  rewrite (texture_at_lookup _ _ He). cbn.
  apply String.eqb_neq in Hne. rewrite Hne.
  replace (Z.of_nat i + 1) with (Z.of_nat (S i)) by lia.
  apply IH. intros k Hk. destruct (Hall (S k)) as (e' & He' & Hne'); [lia|].
  exists e'. split; [|assumption].
  now replace (S i + k)%nat with (i + S k)%nat by lia.
Qed.

Lemma FindTextureSlot_loop_hit (k rounds i : nat) (dflt : Z) (e : TEXTURE_INFO.t) :
  (k < rounds)%nat ->
  m_textureIDs st !! (i + k)%nat = Some e -> TEXTURE_INFO.tag e = tag ->
  (forall j : nat, (j < k)%nat ->
     exists e', m_textureIDs st !! (i + j)%nat = Some e' /\ TEXTURE_INFO.tag e' <> tag) ->
  FindTextureSlot_loop rounds (Z.of_nat i) dflt tag st = Ok (Z.of_nat (i + k)).
Proof.
  revert rounds i. induction k as [|k IH]; intros rounds i Hlt He Htag Hbefore.
  - destruct rounds as [|rounds]; [lia|]. rewrite Nat.add_0_r in *.
    cbn [FindTextureSlot_loop]. rewrite (texture_at_lookup _ _ He). cbn.
    apply String.eqb_eq in Htag. now rewrite Htag.
  - destruct rounds as [|rounds]; [lia|].
    destruct (Hbefore 0%nat) as (e0 & He0 & Hne0); [lia|].
    rewrite Nat.add_0_r in He0. cbn [FindTextureSlot_loop].
    rewrite (texture_at_lookup _ _ He0). cbn.
    apply String.eqb_neq in Hne0. rewrite Hne0.
    replace (Z.of_nat i + 1) with (Z.of_nat (S i)) by lia.
    replace (i + S k)%nat with (S i + k)%nat in * by lia.
    apply IH; [lia|assumption|assumption|].
    intros j Hj. destruct (Hbefore (S j)) as (e' & He' & Hne'); [lia|].
    exists e'. split; [|assumption].
    now replace (S i + j)%nat with (i + S j)%nat by lia.
Qed.

Lemma FindTextureID_loop_hit (k rounds i : nat) (dflt : Z) (e : TEXTURE_INFO.t) :
  (k < rounds)%nat ->
  m_textureIDs st !! (i + k)%nat = Some e -> TEXTURE_INFO.tag e = tag ->
  (forall j : nat, (j < k)%nat ->
     exists e', m_textureIDs st !! (i + j)%nat = Some e' /\ TEXTURE_INFO.tag e' <> tag) ->
  FindTextureID_loop rounds (Z.of_nat i) dflt tag st
    = Ok (int_of_GLuint (TEXTURE_INFO.ID e)).
Proof.
  revert rounds i. induction k as [|k IH]; intros rounds i Hlt He Htag Hbefore.
  - destruct rounds as [|rounds]; [lia|]. rewrite Nat.add_0_r in *.
    cbn [FindTextureID_loop]. rewrite (texture_at_lookup _ _ He). cbn.
    apply String.eqb_eq in Htag. now rewrite Htag.
  - destruct rounds as [|rounds]; [lia|].
    destruct (Hbefore 0%nat) as (e0 & He0 & Hne0); [lia|].
    rewrite Nat.add_0_r in He0. cbn [FindTextureID_loop].
    rewrite (texture_at_lookup _ _ He0). cbn.
    apply String.eqb_neq in Hne0. rewrite Hne0.
    replace (Z.of_nat i + 1) with (Z.of_nat (S i)) by lia.
    replace (i + S k)%nat with (S i + k)%nat in * by lia.
    apply IH; [lia|assumption|assumption|].
    intros j Hj. destruct (Hbefore (S j)) as (e' & He' & Hne'); [lia|].
    exists e'. split; [|assumption].
    now replace (S i + j)%nat with (i + S j)%nat by lia.
Qed.

(** Every registered slot holds an entry when the counter is within the
    array. *)
Lemma registered_slot (k : nat) :
  within_array st -> (k < Z.to_nat (m_loadedTextures st))%nat ->
  exists e, m_textureIDs st !! k = Some e /\ registered st !! k = Some e.
Proof.
  intros Hin Hk. unfold within_array in Hin.
  destruct (lookup_lt_is_Some_2 (m_textureIDs st) k) as [e He]; [lia|].
  exists e. split; [assumption|].
  unfold registered. now rewrite lookup_take_lt.
Qed.

Lemma registered_lookup (k : nat) (e : TEXTURE_INFO.t) :
  registered st !! k = Some e ->
  (k < Z.to_nat (m_loadedTextures st))%nat /\ m_textureIDs st !! k = Some e.
Proof.
  unfold registered. intros H. apply lookup_take_Some in H. tauto.
Qed.

Lemma absent_slots :
  within_array st -> tag ∉ (TEXTURE_INFO.tag <$> registered st) ->
  forall k : nat, (k < Z.to_nat (m_loadedTextures st))%nat ->
    exists e, m_textureIDs st !! (0 + k)%nat = Some e /\ TEXTURE_INFO.tag e <> tag.
Proof.
  intros Hin Habsent k Hk.
  destruct (registered_slot k Hin Hk) as (e & He & Hreg).
  exists e. split; [assumption|]. intros Heq. apply Habsent.
  apply list_elem_of_fmap. exists e. split; [now symmetry|].
  eapply list_elem_of_lookup_2, Hreg.
Qed.

Lemma slots_before_first (i : nat) (e : TEXTURE_INFO.t) :
  within_array st -> first_match tag (registered st) i e ->
  (i < Z.to_nat (m_loadedTextures st))%nat /\
  m_textureIDs st !! (0 + i)%nat = Some e /\
  forall j : nat, (j < i)%nat ->
    exists e', m_textureIDs st !! (0 + j)%nat = Some e' /\ TEXTURE_INFO.tag e' <> tag.
Proof.
  intros Hin (Hi & Htag & Hfirst).
  apply registered_lookup in Hi as [Hlt Hi].
  split; [assumption|]. split; [assumption|].
  intros j Hj. destruct (registered_slot j Hin) as (e' & He' & Hreg); [lia|].
  exists e'. split; [assumption|]. eapply Hfirst; eassumption.
Qed.

Lemma FindTextureSlot_absent :
  within_array st -> tag ∉ (TEXTURE_INFO.tag <$> registered st) ->
  FindTextureSlot tag st = Ok (-1).
Proof.
  intros Hin Habsent.
  apply (FindTextureSlot_loop_miss _ 0%nat), absent_slots; assumption.
Qed.

Lemma FindTextureID_absent :
  within_array st -> tag ∉ (TEXTURE_INFO.tag <$> registered st) ->
  FindTextureID tag st = Ok (-1).
Proof.
  intros Hin Habsent.
  apply (FindTextureID_loop_miss _ 0%nat), absent_slots; assumption.
Qed.

Lemma FindTextureSlot_first (i : nat) (e : TEXTURE_INFO.t) :
  within_array st -> first_match tag (registered st) i e ->
  FindTextureSlot tag st = Ok (Z.of_nat i).
Proof.
  intros Hin Hfirst.
  destruct (slots_before_first i e Hin Hfirst) as (Hlt & Hi & Hbefore).
  destruct Hfirst as (_ & Htag & _).
  apply (FindTextureSlot_loop_hit i _ 0%nat (-1) e); assumption.
Qed.

Lemma FindTextureID_first (i : nat) (e : TEXTURE_INFO.t) :
  within_array st -> first_match tag (registered st) i e ->
  FindTextureID tag st = Ok (int_of_GLuint (TEXTURE_INFO.ID e)).
Proof.
  intros Hin Hfirst.
  destruct (slots_before_first i e Hin Hfirst) as (Hlt & Hi & Hbefore).
  destruct Hfirst as (_ & Htag & _).
  apply (FindTextureID_loop_hit i _ 0%nat (-1) e); assumption.
Qed.

End TextureLookup.

(** C7.  In every state whose fill counter is within the array (the empty
    registry included), a tag carried by no registered entry makes both
    [FindTextureID] and [FindTextureSlot] return -1; and when entry [i] is
    the first registered entry carrying the tag, [FindTextureSlot] returns
    [i] and [FindTextureID] returns that entry's ID (converted to [int]),
    whatever later entries carry the same tag. *)
Theorem FindTexture_absent_or_first (tag : string) (st : state) :
  within_array st ->
  (tag ∉ (TEXTURE_INFO.tag <$> registered st) ->
     FindTextureID tag st = Ok (-1) /\ FindTextureSlot tag st = Ok (-1)) /\
  (forall (i : nat) (e : TEXTURE_INFO.t),
     first_match tag (registered st) i e ->
     FindTextureID tag st = Ok (int_of_GLuint (TEXTURE_INFO.ID e)) /\
     FindTextureSlot tag st = Ok (Z.of_nat i)).
Proof.
  intros Hin. split.
  - intros Habsent. split.
    + now apply FindTextureID_absent.
    + now apply FindTextureSlot_absent.
  - intros i e Hfirst. split.
    + now apply (FindTextureID_first tag st i e).
    + now apply (FindTextureSlot_first tag st i e).
Qed.

Lemma FindTexture_absent_or_first_witness :
  within_array three_textures /\
  (FindTextureID "mug" three_textures = Ok (-1) /\
   FindTextureSlot "mug" three_textures = Ok (-1)) /\
  (FindTextureID "leg" three_textures = Ok 7 /\
   FindTextureSlot "leg" three_textures = Ok 0).
Proof.
  assert (Hin : within_array three_textures) by (unfold within_array; simpl; lia).
  split; [exact Hin|].
  destruct (FindTexture_absent_or_first "mug" three_textures Hin) as [Hmiss _].
  destruct (FindTexture_absent_or_first "leg" three_textures Hin) as [_ Hhit].
  split.
  - apply Hmiss. apply (proj1 (bool_decide_eq_false _)). vm_compute. reflexivity.
  - apply (Hhit 0%nat (TEXTURE_INFO.mk 7 "leg")).
    split; [reflexivity|]. split; [reflexivity|]. intros j e' Hj. lia.
Defined.

(** ** Lookup in the material registry *)

Lemma FindMaterial_empty (tag : string) (m : OBJECT_MATERIAL.t) (st : state) :
  m_objectMaterials st = [] -> FindMaterial tag m st = (false, m).
Proof. intros H. unfold FindMaterial. now rewrite H. Qed.

Lemma FindMaterial_nonempty (tag : string) (m : OBJECT_MATERIAL.t) (st : state) :
  m_objectMaterials st <> [] -> fst (FindMaterial tag m st) = true.
Proof.
  intros H. unfold FindMaterial.
  destruct (m_objectMaterials st) as [|m0 ms] eqn:E; [congruence|].
  cbn [length Nat.eqb].
  now destruct (FindMaterial_loop _ _ _ _ _).
Qed.

Lemma FindMaterial_false_iff (tag : string) (m : OBJECT_MATERIAL.t) (st : state) :
  fst (FindMaterial tag m st) = false <-> m_objectMaterials st = [].
Proof.
  split.
  - intros H. destruct (m_objectMaterials st) as [|m0 ms] eqn:E; [reflexivity|].
    rewrite FindMaterial_nonempty in H; [discriminate|]. now rewrite E.
  - intros H. now rewrite FindMaterial_empty.
Qed.

(** The scan leaves the caller's object alone when no entry carries the tag. *)
Lemma FindMaterial_loop_miss (tag : string) (m : OBJECT_MATERIAL.t)
    (mats : list OBJECT_MATERIAL.t) (rounds index : nat) :
  tag ∉ (OBJECT_MATERIAL.tag <$> mats) ->
  FindMaterial_loop rounds index tag m mats = (false, m).
Proof.
  intros Habsent. revert index.
  induction rounds as [|rounds IH]; intros index; [reflexivity|].
  cbn [FindMaterial_loop].
  destruct (mats !! index) as [m'|] eqn:E; [|reflexivity].
  destruct (String.eqb_spec (OBJECT_MATERIAL.tag m') tag) as [Heq|_]; [|apply IH].
  exfalso. apply Habsent. apply list_elem_of_fmap. exists m'.
  split; [now symmetry|]. eapply list_elem_of_lookup_2, E.
Qed.

(** C1 (defect).  With the five presets defined, the tag "plastic" is
    carried by no entry, and yet [FindMaterial] returns [true], leaving the
    caller's object as it was. *)
Theorem FindMaterial_absent_tag_reports_found :
  m_objectMaterials defined_materials <> [] /\
  ("plastic" ∉ (OBJECT_MATERIAL.tag <$> m_objectMaterials defined_materials)) /\
  forall m : OBJECT_MATERIAL.t,
    FindMaterial "plastic" m defined_materials = (true, m).
Proof.
  split; [discriminate|].
  assert (Habsent :
    "plastic" ∉ (OBJECT_MATERIAL.tag <$> m_objectMaterials defined_materials)).
  { apply (proj1 (bool_decide_eq_false _)). reflexivity. }
  split; [exact Habsent|].
  intros m. unfold FindMaterial.
  rewrite (FindMaterial_loop_miss _ _ _ _ _ Habsent). reflexivity.
Qed.

(** ** The shader-state binder *)

(** With a non-empty registry [FindMaterial] never reports failure, so for a
    tag carried by no entry the three uploads run on the uninitialised local. *)
Lemma SetShaderMaterial_absent_tag_uploads (materialTag : string)
    (indeterminate : OBJECT_MATERIAL.t) (st : state) (sm : ShaderManager) :
  m_pShaderManager st = Some sm -> m_objectMaterials st <> [] ->
  materialTag ∉ (OBJECT_MATERIAL.tag <$> m_objectMaterials st) ->
  SetShaderMaterial materialTag indeterminate st
    = Ok (set_shader
            (Some (setFloatValue "material.shininess"
                     (OBJECT_MATERIAL.shininess indeterminate)
                     (setVec3Value "material.specularColor"
                        (OBJECT_MATERIAL.specularColor indeterminate)
                        (setVec3Value "material.diffuseColor"
                           (OBJECT_MATERIAL.diffuseColor indeterminate) sm))))
            st).
Proof.
  intros Hsm Hne Habsent. unfold SetShaderMaterial, FindMaterial.
  destruct (m_objectMaterials st) as [|m0 ms] eqn:E; [congruence|].
  cbn [length Nat.ltb Nat.leb Nat.eqb].
  rewrite (FindMaterial_loop_miss _ _ _ _ _ Habsent).
  unfold deref_shader. rewrite Hsm. reflexivity.
Qed.

(** C2 (defect).  With the five presets defined and the material uniforms
    holding what [SetShaderMaterial] uploaded for "metal", a call for the
    tag "plastic", which no entry carries, does not leave them alone: the
    lookup reports success, and the three uploads overwrite
    material.diffuseColor, material.specularColor and material.shininess
    with the fields of the uninitialised local, whatever it holds.  With
    the local holding zeros the specular colour and the shininess uploaded
    for "metal" are lost. *)
Theorem SetShaderMaterial_absent_tag_overwrites_uniforms :
  exists (st1 : state) (sm1 : ShaderManager),
    SetShaderMaterial "metal" scrap_material defined_materials = Ok st1 /\
    m_pShaderManager st1 = Some sm1 /\
    sm1 !! "material.diffuseColor" = Some (UVec3 (glm.mkvec3 0 0 0)) /\
    sm1 !! "material.specularColor" = Some (UVec3 (glm.mkvec3 0.78 0.78 0.78)) /\
    sm1 !! "material.shininess" = Some (UFloat 85) /\
    ("plastic" ∉ (OBJECT_MATERIAL.tag <$> m_objectMaterials st1)) /\
    (forall indeterminate : OBJECT_MATERIAL.t,
       exists (st2 : state) (sm2 : ShaderManager),
         SetShaderMaterial "plastic" indeterminate st1 = Ok st2 /\
         m_pShaderManager st2 = Some sm2 /\
         sm2 !! "material.diffuseColor"
           = Some (UVec3 (OBJECT_MATERIAL.diffuseColor indeterminate)) /\
         sm2 !! "material.specularColor"
           = Some (UVec3 (OBJECT_MATERIAL.specularColor indeterminate)) /\
         sm2 !! "material.shininess"
           = Some (UFloat (OBJECT_MATERIAL.shininess indeterminate))) /\
    exists (st2 : state) (sm2 : ShaderManager),
      SetShaderMaterial "plastic" scrap_material st1 = Ok st2 /\
      m_pShaderManager st2 = Some sm2 /\
      sm2 !! "material.specularColor" <> sm1 !! "material.specularColor" /\
      sm2 !! "material.shininess" <> sm1 !! "material.shininess".
Proof.
  pose (sm1 := setFloatValue "material.shininess" 85
                 (setVec3Value "material.specularColor" (glm.mkvec3 0.78 0.78 0.78)
                    (setVec3Value "material.diffuseColor" (glm.mkvec3 0 0 0)
                       (∅ : ShaderManager)))).
  pose (st1 := set_shader (Some sm1) defined_materials).
  assert (Hdiffuse : sm1 !! "material.diffuseColor" = Some (UVec3 (glm.mkvec3 0 0 0))).
  { unfold sm1, setFloatValue, setVec3Value.
    rewrite !lookup_insert_ne by discriminate. apply lookup_insert_eq. }
  assert (Hspecular :
    sm1 !! "material.specularColor" = Some (UVec3 (glm.mkvec3 0.78 0.78 0.78))).
  { unfold sm1, setFloatValue, setVec3Value.
    rewrite lookup_insert_ne by discriminate. apply lookup_insert_eq. }
  assert (Hshininess : sm1 !! "material.shininess" = Some (UFloat 85)).
  { unfold sm1, setFloatValue. apply lookup_insert_eq. }
  assert (Habsent :
    "plastic" ∉ (OBJECT_MATERIAL.tag <$> m_objectMaterials st1)).
  { apply (proj1 (bool_decide_eq_false _)). reflexivity. }
  assert (Hcall : forall indeterminate : OBJECT_MATERIAL.t,
    SetShaderMaterial "plastic" indeterminate st1
      = Ok (set_shader
              (Some (setFloatValue "material.shininess"
                       (OBJECT_MATERIAL.shininess indeterminate)
                       (setVec3Value "material.specularColor"
                          (OBJECT_MATERIAL.specularColor indeterminate)
                          (setVec3Value "material.diffuseColor"
                             (OBJECT_MATERIAL.diffuseColor indeterminate) sm1))))
              st1)).
  { intros indeterminate.
    apply SetShaderMaterial_absent_tag_uploads;
      [reflexivity|discriminate|exact Habsent]. }
  exists st1, sm1.
  split; [reflexivity|]. split; [reflexivity|].
  split; [exact Hdiffuse|]. split; [exact Hspecular|]. split; [exact Hshininess|].
  split; [exact Habsent|]. split.
  - intros indeterminate. eexists _, _.
    split; [apply Hcall|]. split; [reflexivity|].
    unfold setFloatValue, setVec3Value. split; [|split].
    + rewrite !lookup_insert_ne by discriminate. apply lookup_insert_eq.
    + rewrite lookup_insert_ne by discriminate. apply lookup_insert_eq.
    + apply lookup_insert_eq.
  - eexists _, _.
    split; [apply Hcall|]. split; [reflexivity|].
    rewrite Hspecular, Hshininess.
    unfold setFloatValue, setVec3Value, scrap_material.
    cbn [OBJECT_MATERIAL.specularColor OBJECT_MATERIAL.shininess].
    split.
    + rewrite lookup_insert_ne by discriminate. rewrite lookup_insert_eq.
      intros Heq. injection Heq as Heq. lra.
    + rewrite lookup_insert_eq.
      intros Heq. injection Heq as Heq. lra.
Qed.

(** A successful lookup reaches the three uploads, each through the
    unguarded pointer. *)
Lemma SetShaderMaterial_null (materialTag : string)
    (indeterminate : OBJECT_MATERIAL.t) (st : state) :
  m_pShaderManager st = None -> m_objectMaterials st <> [] ->
  fst (FindMaterial materialTag indeterminate st) = true ->
  SetShaderMaterial materialTag indeterminate st = Fault NullDereference.
Proof.
  intros Hnull Hne Hfound. unfold SetShaderMaterial.
  destruct (m_objectMaterials st) as [|m0 ms] eqn:E; [congruence|].
  cbn [length Nat.ltb Nat.leb].
  destruct (FindMaterial materialTag indeterminate st) as [bReturn material].
  cbn in Hfound. subst bReturn.
  unfold deref_shader. now rewrite Hnull.
Qed.

(** C10.  With a null shader-manager pointer, [SetTransformations],
    [SetShaderColor], [SetShaderTexture] and [SetTextureUVScale] leave the
    state as it is; [SetShaderMaterial], called with a non-empty material
    registry and a lookup that reports success, dereferences the null
    pointer. *)
Theorem null_shader_manager_guards (st : state) :
  m_pShaderManager st = None ->
  (forall (scaleXYZ positionXYZ : glm.vec3) (rx ry rz : R),
     SetTransformations scaleXYZ rx ry rz positionXYZ st = st) /\
  (forall r g b a : R, SetShaderColor r g b a st = st) /\
  (forall textureTag : string, SetShaderTexture textureTag st = Ok st) /\
  (forall u v : R, SetTextureUVScale u v st = st) /\
  (forall (materialTag : string) (indeterminate : OBJECT_MATERIAL.t),
     m_objectMaterials st <> [] ->
     fst (FindMaterial materialTag indeterminate st) = true ->
     SetShaderMaterial materialTag indeterminate st = Fault NullDereference).
Proof.
  intros Hnull. repeat split.
  - intros. unfold SetTransformations, guarded_shader. now rewrite Hnull.
  - intros. unfold SetShaderColor, guarded_shader. now rewrite Hnull.
  - intros. unfold SetShaderTexture. now rewrite Hnull.
  - intros. unfold SetTextureUVScale, guarded_shader. now rewrite Hnull.
  - intros. now apply SetShaderMaterial_null.
Qed.

Lemma null_shader_manager_guards_witness :
  m_pShaderManager null_shader = None /\
  SetShaderColor 1 1 1 1 null_shader = null_shader /\
  SetShaderTexture "floor" null_shader = Ok null_shader /\
  m_objectMaterials null_shader <> [] /\
  fst (FindMaterial "gravel" scrap_material null_shader) = true /\
  SetShaderMaterial "gravel" scrap_material null_shader = Fault NullDereference.
Proof.
  destruct (null_shader_manager_guards null_shader eq_refl)
    as (_ & Hcolor & Htexture & _ & Hmaterial).
  split; [reflexivity|]. split; [apply Hcolor|]. split; [apply Htexture|].
  split; [discriminate|]. split; [reflexivity|].
  apply Hmaterial; [discriminate|reflexivity].
Defined.

(** C9.  For a tag that no registered texture carries, [SetShaderTexture]
    (with a shader manager present) still sets bUseTexture to 1, uploads -1
    as the objectTexture sampler, and touches no other uniform: the flat
    colour is left as it was. *)
Theorem SetShaderTexture_unresolved_tag
    (textureTag : string) (st : state) (sm : ShaderManager) :
  m_pShaderManager st = Some sm ->
  within_array st ->
  textureTag ∉ (TEXTURE_INFO.tag <$> registered st) ->
  exists sm' : ShaderManager,
    SetShaderTexture textureTag st = Ok (set_shader (Some sm') st) /\
    sm' !! g_UseTextureName = Some (UInt 1) /\
    sm' !! g_TextureValueName = Some (USampler2D (-1)) /\
    forall name : string,
      name <> g_UseTextureName -> name <> g_TextureValueName ->
      sm' !! name = sm !! name.
Proof.
  intros Hsm Hin Habsent.
  exists (setSampler2DValue g_TextureValueName (-1)
            (setIntValue g_UseTextureName 1 sm)).
  split.
  - unfold SetShaderTexture. rewrite Hsm.
    now rewrite (FindTextureSlot_absent _ _ Hin Habsent).
  - unfold setSampler2DValue, setIntValue. split; [|split].
    + rewrite lookup_insert_ne by discriminate. apply lookup_insert_eq.
    + apply lookup_insert_eq.
    + intros name Hne1 Hne2. now rewrite !lookup_insert_ne by congruence.
Qed.

Lemma SetShaderTexture_unresolved_tag_witness :
  m_pShaderManager three_textures = Some ∅ /\
  within_array three_textures /\
  ("mug" ∉ (TEXTURE_INFO.tag <$> registered three_textures)) /\
  exists sm' : ShaderManager,
    SetShaderTexture "mug" three_textures = Ok (set_shader (Some sm') three_textures) /\
    sm' !! g_UseTextureName = Some (UInt 1) /\
    sm' !! g_TextureValueName = Some (USampler2D (-1)) /\
    forall name : string,
      name <> g_UseTextureName -> name <> g_TextureValueName ->
      sm' !! name = (∅ : ShaderManager) !! name.
Proof.
  assert (Hin : within_array three_textures) by (unfold within_array; simpl; lia).
  assert (Habsent : "mug" ∉ (TEXTURE_INFO.tag <$> registered three_textures)).
  { apply (proj1 (bool_decide_eq_false _)). vm_compute. reflexivity. }
  split; [reflexivity|]. split; [exact Hin|]. split; [exact Habsent|].
  exact (SetShaderTexture_unresolved_tag "mug" three_textures ∅ eq_refl Hin Habsent).
Defined.

(** ** The texture state of the context *)

Section Context.

Variable c : GLContext.

Lemma gl_names_glBindTexture (id : Z) :
  gl_names (glBindTexture id c) = gl_names c.
Proof. reflexivity. Qed.

Lemma gl_names_update_bound (f : TextureObject -> TextureObject) :
  gl_names (update_bound f c) = gl_names c.
Proof. reflexivity. Qed.

Lemma gl_names_glActiveTexture (texture : Z) :
  gl_names (glActiveTexture texture c) = gl_names c.
Proof. reflexivity. Qed.

Lemma gl_names_glGenTextures :
  gl_names (snd (glGenTextures c)) = fst (glGenTextures c) :: gl_names c.
Proof. reflexivity. Qed.

Lemma object_glBindTexture (id : Z) :
  is_Some (gl_objects (glBindTexture id c) !! id).
Proof. unfold glBindTexture. cbn. rewrite lookup_insert_eq. eauto. Qed.

Lemma object_update_bound (f : TextureObject -> TextureObject) (name : Z) :
  is_Some (gl_objects c !! name) ->
  is_Some (gl_objects (update_bound f c) !! name).
Proof.
  intros H. unfold update_bound. cbn.
  destruct (decide (bound_2d c = name)) as [->|Hne].
  - rewrite lookup_insert_eq. eauto.
  - now rewrite lookup_insert_ne.
Qed.

End Context.

Create HintDb gl.

#[local] Hint Resolve object_glBindTexture object_update_bound : gl.

(** ** Loading and releasing textures *)

(** An image with a channel count other than 3 or 4: the call fails and the
    registry is as before, but by then a texture name has been generated and
    bound, and the decoded buffer is not freed. *)
Lemma CreateGLTexture_unsupported (filename tag : string) (image : Image) (st : state) :
  files st !! filename = Some image ->
  img_channels image <> 3 -> img_channels image <> 4 ->
  exists st' : state,
    CreateGLTexture filename tag st = Ok (false, st') /\
    m_loadedTextures st' = m_loadedTextures st /\
    m_textureIDs st' = m_textureIDs st /\
    gl_names (gl st') = fresh_name (gl_names (gl st)) :: gl_names (gl st) /\
    is_Some (gl_objects (gl st') !! fresh_name (gl_names (gl st))) /\
    image_buffers st' = image_buffers st + 1.
Proof.
  intros Hfile H3 H4. unfold CreateGLTexture. rewrite Hfile. cbn zeta.
  destruct (Z.eqb_spec (img_channels image) 3) as [|_]; [contradiction|].
  destruct (Z.eqb_spec (img_channels image) 4) as [|_]; [contradiction|].
  cbn [glGenTextures]. eexists. split; [reflexivity|].
  cbn [m_loadedTextures m_textureIDs gl image_buffers set_gl set_image_buffers].
  unfold glTexParameteri.
  repeat split; auto 10 with gl.
Qed.

(** C3 (defect).  Loading a two-channel image into a fresh scene manager
    returns [false] and registers nothing, but the context, which had no
    texture name in use, now has name 1 in use with an object behind it. *)
Theorem CreateGLTexture_two_channels_creates_texture :
  exists st' : state,
    CreateGLTexture "textures/Gray.png" "gray" (fresh_state gray_file) = Ok (false, st') /\
    m_loadedTextures st' = m_loadedTextures (fresh_state gray_file) /\
    registered st' = [] /\
    gl_names (gl (fresh_state gray_file)) = [] /\
    gl_names (gl st') = [1] /\
    is_Some (gl_objects (gl st') !! 1).
Proof.
  destruct (CreateGLTexture_unsupported "textures/Gray.png" "gray"
              (mkImage 64 64 2) (fresh_state gray_file))
    as (st' & Hcall & Hcount & Harray & Hnames & Hobj & _);
    [reflexivity|discriminate|discriminate|].
  exists st'. split; [exact Hcall|]. split; [exact Hcount|].
  split; [unfold registered; now rewrite Hcount|].
  split; [reflexivity|]. split; [exact Hnames|exact Hobj].
Qed.

Lemma texture_update_ok (i : Z) (f : TEXTURE_INFO.t -> TEXTURE_INFO.t)
    (st : state) (e : TEXTURE_INFO.t) :
  0 <= i -> m_textureIDs st !! Z.to_nat i = Some e ->
  texture_update i f st
    = Ok (set_textureIDs (<[Z.to_nat i := f e]> (m_textureIDs st)) st).
Proof.
  intros Hi He. unfold texture_update, texture_at.
  destruct (Z.ltb_spec i 0) as [Hneg|_]; [lia|]. now rewrite He.
Qed.

Lemma register_texture_ok (textureID : Z) (tag : string) (st : state) :
  0 <= m_loadedTextures st ->
  (Z.to_nat (m_loadedTextures st) < length (m_textureIDs st))%nat ->
  exists st' : state,
    register_texture textureID tag st = Ok (true, st') /\
    same_but_textures st st' /\
    m_loadedTextures st' = m_loadedTextures st + 1 /\
    m_textureIDs st'
      = <[Z.to_nat (m_loadedTextures st) := TEXTURE_INFO.mk textureID tag]>
          (m_textureIDs st) /\
    gl_names (gl st') = gl_names (gl st).
Proof.
  intros Hpos Hlt.
  destruct (lookup_lt_is_Some_2 _ _ Hlt) as [e He].
  unfold register_texture. cbn zeta.
  rewrite (texture_update_ok _ _ _ e) by (cbn; assumption).
  cbn [mbind result_bind].
  rewrite (texture_update_ok _ _ _ (TEXTURE_INFO.mk textureID (TEXTURE_INFO.tag e))).
  2: { cbn. assumption. }
  2: { cbn. now apply list_lookup_insert_eq. }
  cbn. eexists. split; [reflexivity|]. cbn.
  split; [repeat split|]. split; [reflexivity|].
  split; [apply list_insert_insert_eq|reflexivity].
Qed.

(** A decodable image with three or four channels and a free slot: the call
    succeeds and fills the slot at the counter. *)
Lemma CreateGLTexture_supported (filename tag : string) (st : state) :
  loadable filename st ->
  0 <= m_loadedTextures st ->
  (Z.to_nat (m_loadedTextures st) < length (m_textureIDs st))%nat ->
  exists st' : state,
    CreateGLTexture filename tag st = Ok (true, st') /\
    same_but_textures st st' /\
    m_loadedTextures st' = m_loadedTextures st + 1 /\
    m_textureIDs st'
      = <[Z.to_nat (m_loadedTextures st) :=
            TEXTURE_INFO.mk (fresh_name (gl_names (gl st))) tag]>
          (m_textureIDs st).
Proof.
  intros (image & Hfile & Hchannels) Hpos Hlt.
  unfold CreateGLTexture. rewrite Hfile. cbn zeta. cbn [glGenTextures].
  destruct Hchannels as [H|H]; rewrite H; cbn [Z.eqb Pos.eqb].
  - edestruct register_texture_ok as (st' & Hcall & Hsame & Hcount & Harray & _);
      [| |exists st'; split; [exact Hcall|]]; cbn; auto.
  - edestruct register_texture_ok as (st' & Hcall & Hsame & Hcount & Harray & _);
      [| |exists st'; split; [exact Hcall|]]; cbn; auto.
Qed.

Lemma same_but_textures_refl (st : state) : same_but_textures st st.
Proof. repeat split. Qed.

Lemma same_but_textures_trans (st1 st2 st3 : state) :
  same_but_textures st1 st2 -> same_but_textures st2 st3 ->
  same_but_textures st1 st3.
Proof.
  intros (H1 & H2 & H3 & H4) (K1 & K2 & K3 & K4).
  repeat split; congruence.
Qed.

Lemma same_but_context_refl (st : state) : same_but_context st st.
Proof. repeat split. Qed.

Lemma same_but_context_trans (st1 st2 st3 : state) :
  same_but_context st1 st2 -> same_but_context st2 st3 ->
  same_but_context st1 st3.
Proof.
  intros (H0 & H1 & H2 & H3) (K0 & K1 & K2 & K3).
  split; [eapply same_but_textures_trans; eassumption|].
  repeat split; congruence.
Qed.

Lemma same_but_context_set_gl (c : GLContext) (st : state) :
  same_but_context st (set_gl c st).
Proof. repeat split. Qed.

(** After a successful load the registered entries are the old ones followed
    by the new one. *)
Lemma registered_after_load (st st' : state) (x : TEXTURE_INFO.t) :
  0 <= m_loadedTextures st ->
  (Z.to_nat (m_loadedTextures st) < length (m_textureIDs st))%nat ->
  m_loadedTextures st' = m_loadedTextures st + 1 ->
  m_textureIDs st' = <[Z.to_nat (m_loadedTextures st) := x]> (m_textureIDs st) ->
  registered st' = registered st ++ [x] /\
  length (registered st) = Z.to_nat (m_loadedTextures st) /\
  length (m_textureIDs st') = length (m_textureIDs st).
Proof.
  intros Hpos Hlt Hcount Harray. unfold registered.
  rewrite Hcount, Harray.
  replace (Z.to_nat (m_loadedTextures st + 1))
    with (S (Z.to_nat (m_loadedTextures st))) by lia.
  split; [|split].
  - rewrite (take_S_r _ _ x) by now apply list_lookup_insert_eq.
    now rewrite take_insert_ge.
  - apply length_take_le. lia.
  - apply length_insert.
Qed.

(** A tag carried only by the last registered entry resolves to that entry's
    index. *)
Lemma FindTextureSlot_last (tag : string) (st : state)
    (l : list TEXTURE_INFO.t) (x : TEXTURE_INFO.t) :
  within_array st -> registered st = l ++ [x] ->
  TEXTURE_INFO.tag x = tag -> tag ∉ (TEXTURE_INFO.tag <$> l) ->
  FindTextureSlot tag st = Ok (Z.of_nat (length l)).
Proof.
  intros Hin Hreg Htag Habsent.
  apply (FindTextureSlot_first tag st (length l) x Hin).
  rewrite Hreg. split; [|split; [assumption|]].
  - rewrite lookup_app_r by lia. now rewrite Nat.sub_diag.
  - intros j e' Hj He' Heq. apply Habsent.
    rewrite lookup_app_l in He' by assumption.
    apply list_elem_of_fmap. exists e'. split; [now symmetry|].
    eapply list_elem_of_lookup_2, He'.
Qed.

Lemma BindGLTextures_body_ok (i : nat) (st : state) (e : TEXTURE_INFO.t) :
  m_textureIDs st !! i = Some e ->
  BindGLTextures_body (Z.of_nat i) st
    = Ok (set_gl (glBindTexture (TEXTURE_INFO.ID e)
                    (glActiveTexture (GL_TEXTURE0 + Z.of_nat i) (gl st))) st).
Proof.
  intros He. unfold BindGLTextures_body. cbn zeta.
  rewrite (texture_at_lookup _ i e) by (cbn; assumption). reflexivity.
Qed.

(** The binding loop from slot [i0] on: it touches the context only, and
    leaves unit [k] bound to the ID stored in slot [k]. *)
Lemma BindGLTextures_loop (trips i0 : nat) (st : state) :
  (i0 + trips <= length (m_textureIDs st))%nat ->
  exists st' : state,
    for_loop trips (Z.of_nat i0) BindGLTextures_body st = Ok st' /\
    same_but_context st st' /\
    gl_names (gl st') = gl_names (gl st) /\
    (forall (k : nat) (e : TEXTURE_INFO.t),
       (i0 <= k < i0 + trips)%nat -> m_textureIDs st !! k = Some e ->
       gl_binding_2d (gl st') !! Z.of_nat k = Some (TEXTURE_INFO.ID e)) /\
    (forall u : Z, u < Z.of_nat i0 ->
       gl_binding_2d (gl st') !! u = gl_binding_2d (gl st) !! u).
Proof.
  revert i0 st. induction trips as [|trips IH]; intros i0 st Hlen.
  - exists st. split; [reflexivity|]. split; [apply same_but_context_refl|].
    split; [reflexivity|]. split; [intros; lia|reflexivity].
  - destruct (lookup_lt_is_Some_2 (m_textureIDs st) i0) as [e He]; [lia|].
    cbn [for_loop]. rewrite (BindGLTextures_body_ok i0 st e He).
    cbn [mbind result_bind].
    set (st1 := set_gl _ _).
    replace (Z.of_nat i0 + 1) with (Z.of_nat (S i0)) by lia.
    destruct (IH (S i0) st1) as (st' & Hloop & Hsame & Hnames & Hbound & Hbelow).
    { subst st1. cbn. lia. }
    exists st'. split; [exact Hloop|].
    assert (Hunit : gl_binding_2d (gl st1)
                    = <[Z.of_nat i0 := TEXTURE_INFO.ID e]> (gl_binding_2d (gl st))).
    { subst st1. cbn. unfold active_unit. cbn. f_equal. lia. }
    split; [|split; [|split]].
    + eapply same_but_context_trans; [|exact Hsame]. subst st1.
      apply same_but_context_set_gl.
    + rewrite Hnames. reflexivity.
    + intros k e' Hk He'. destruct (decide (k = i0)) as [->|Hne].
      * rewrite Hbelow by lia. rewrite Hunit, lookup_insert_eq. congruence.
      * apply Hbound; [lia|]. subst st1. cbn. assumption.
    + intros u Hu. rewrite Hbelow by lia. rewrite Hunit.
      apply lookup_insert_ne. lia.
Qed.

Lemma BindGLTextures_ok (st : state) :
  within_array st ->
  exists st' : state,
    BindGLTextures st = Ok st' /\
    same_but_context st st' /\
    gl_names (gl st') = gl_names (gl st) /\
    forall (i : nat) (e : TEXTURE_INFO.t),
      registered st !! i = Some e ->
      gl_binding_2d (gl st') !! Z.of_nat i = Some (TEXTURE_INFO.ID e).
Proof.
  intros Hin. unfold within_array in Hin.
  destruct (BindGLTextures_loop (Z.to_nat (m_loadedTextures st)) 0 st)
    as (st' & Hloop & Hsame & Hnames & Hbound & _); [lia|].
  exists st'. split; [exact Hloop|]. split; [exact Hsame|].
  split; [exact Hnames|].
  intros i e Hreg. apply registered_lookup in Hreg as [Hlt Hi].
  apply Hbound; [lia|assumption].
Qed.

(** One successful load of a fresh tag, with where the tag then resolves. *)
Lemma load_then_find (filename tag : string) (st : state) :
  0 <= m_loadedTextures st ->
  (Z.to_nat (m_loadedTextures st) < length (m_textureIDs st))%nat ->
  loadable filename st ->
  tag ∉ (TEXTURE_INFO.tag <$> registered st) ->
  exists (st' : state) (id : Z),
    CreateGLTexture filename tag st = Ok (true, st') /\
    same_but_textures st st' /\
    m_loadedTextures st' = m_loadedTextures st + 1 /\
    length (m_textureIDs st') = length (m_textureIDs st) /\
    registered st' = registered st ++ [TEXTURE_INFO.mk id tag] /\
    FindTextureSlot tag st' = Ok (m_loadedTextures st).
Proof.
  intros Hpos Hlt Hload Hfresh.
  destruct (CreateGLTexture_supported filename tag st Hload Hpos Hlt)
    as (st' & Hcall & Hsame & Hcount & Harray).
  destruct (registered_after_load st st' _ Hpos Hlt Hcount Harray)
    as (Hreg & Hlen & Hsize).
  exists st', (fresh_name (gl_names (gl st))).
  split; [exact Hcall|]. split; [exact Hsame|]. split; [exact Hcount|].
  split; [exact Hsize|]. split; [exact Hreg|].
  rewrite (FindTextureSlot_last tag st' _ _ ltac:(unfold within_array; lia)
             Hreg eq_refl Hfresh).
  f_equal. lia.
Qed.

(** C8.  In a state with a non-negative fill counter within the array:
    (1) [BindGLTextures] binds every registered texture to the unit whose
    index is the texture's position in the registry; (2) with two free
    slots, a successful load under a fresh tag followed by [FindTextureSlot]
    on that tag returns the insertion index, which is non-negative, and a
    second successful load under another fresh tag resolves to that index
    plus one. *)
Theorem Load_FindTextureSlot_BindGLTextures (st : state) :
  0 <= m_loadedTextures st ->
  within_array st ->
  (exists st' : state,
     BindGLTextures st = Ok st' /\
     forall (i : nat) (e : TEXTURE_INFO.t),
       registered st !! i = Some e ->
       gl_binding_2d (gl st') !! Z.of_nat i = Some (TEXTURE_INFO.ID e)) /\
  (forall file1 tag1 file2 tag2 : string,
     m_loadedTextures st + 2 <= Z.of_nat (length (m_textureIDs st)) ->
     loadable file1 st -> loadable file2 st ->
     tag1 ∉ (TEXTURE_INFO.tag <$> registered st) ->
     tag2 ∉ (TEXTURE_INFO.tag <$> registered st) ->
     tag1 <> tag2 ->
     exists (st1 st2 : state) (slot : Z),
       CreateGLTexture file1 tag1 st = Ok (true, st1) /\
       FindTextureSlot tag1 st1 = Ok slot /\
       0 <= slot /\
       slot = Z.of_nat (length (registered st)) /\
       CreateGLTexture file2 tag2 st1 = Ok (true, st2) /\
       FindTextureSlot tag2 st2 = Ok (slot + 1)).
Proof.
  intros Hpos Hin. split.
  - destruct (BindGLTextures_ok st Hin) as (st' & Hcall & _ & _ & Hbound).
    exists st'. split; assumption.
  - intros file1 tag1 file2 tag2 Hroom Hload1 Hload2 Hfresh1 Hfresh2 Hne.
    destruct (load_then_find file1 tag1 st Hpos ltac:(lia) Hload1 Hfresh1)
      as (st1 & id1 & Hcall1 & Hsame1 & Hcount1 & Hsize1 & Hreg1 & Hfind1).
    assert (Hload2' : loadable file2 st1).
    { destruct Hload2 as (image & Hfile & Hch). exists image.
      destruct Hsame1 as (_ & _ & _ & Hfiles). now rewrite Hfiles. }
    assert (Hfresh2' : tag2 ∉ (TEXTURE_INFO.tag <$> registered st1)).
    { rewrite Hreg1, fmap_app. intros [H|H]%elem_of_app; [now apply Hfresh2|].
      cbn in H. apply list_elem_of_singleton in H. congruence. }
    destruct (load_then_find file2 tag2 st1 ltac:(lia) ltac:(lia) Hload2' Hfresh2')
      as (st2 & id2 & Hcall2 & _ & _ & _ & _ & Hfind2).
    exists st1, st2, (m_loadedTextures st).
    split; [exact Hcall1|]. split; [exact Hfind1|]. split; [exact Hpos|].
    split; [|split; [exact Hcall2|]].
    + unfold registered. unfold within_array in Hin. rewrite length_take_le; lia.
    + rewrite Hfind2, Hcount1. reflexivity.
Qed.

Lemma Load_FindTextureSlot_BindGLTextures_witness :
  0 <= m_loadedTextures three_textures /\
  within_array three_textures /\
  (exists st' : state,
     BindGLTextures three_textures = Ok st' /\
     gl_binding_2d (gl st') !! 0 = Some 7 /\
     gl_binding_2d (gl st') !! 1 = Some 8 /\
     gl_binding_2d (gl st') !! 2 = Some 9) /\
  (exists (st1 st2 : state),
     CreateGLTexture "textures/Plate.jpg" "plate"
       (fresh_state scene_files) = Ok (true, st1) /\
     FindTextureSlot "plate" st1 = Ok 0 /\
     CreateGLTexture "textures/Mug.jpg" "mug" st1 = Ok (true, st2) /\
     FindTextureSlot "mug" st2 = Ok 1).
Proof.
  assert (Hin : within_array three_textures) by (unfold within_array; simpl; lia).
  assert (Hpos : 0 <= m_loadedTextures three_textures) by (simpl; lia).
  split; [exact Hpos|]. split; [exact Hin|]. split.
  - destruct (Load_FindTextureSlot_BindGLTextures three_textures Hpos Hin)
      as [(st' & Hcall & Hbound) _].
    exists st'. split; [exact Hcall|].
    split; [|split].
    + apply (Hbound 0%nat (TEXTURE_INFO.mk 7 "leg")). reflexivity.
    + apply (Hbound 1%nat (TEXTURE_INFO.mk 8 "floor")). reflexivity.
    + apply (Hbound 2%nat (TEXTURE_INFO.mk 9 "leg")). reflexivity.
  - destruct (Load_FindTextureSlot_BindGLTextures (fresh_state scene_files))
      as [_ Hload]; [simpl; lia|unfold within_array; simpl; lia|].
    destruct (Hload "textures/Plate.jpg" "plate" "textures/Mug.jpg" "mug")
      as (st1 & st2 & slot & Hcall1 & Hfind1 & _ & Hslot & Hcall2 & Hfind2).
    + simpl. lia.
    + exists (mkImage 256 256 3). split; [reflexivity|]. left. reflexivity.
    + exists (mkImage 256 256 3). split; [reflexivity|]. left. reflexivity.
    + apply (proj1 (bool_decide_eq_false _)). reflexivity.
    + apply (proj1 (bool_decide_eq_false _)). reflexivity.
    + discriminate.
    + cbn in Hslot. subst slot. exists st1, st2. auto.
Defined.

Lemma for_loop_preserves (P : state -> Prop) (body : Z -> state -> result state) :
  (forall (i : Z) (st st' : state), P st -> body i st = Ok st' -> P st') ->
  forall (trips : nat) (i : Z) (st st' : state),
    P st -> for_loop trips i body st = Ok st' -> P st'.
Proof.
  intros Hbody trips. induction trips as [|trips IH]; intros i st st' HP Hloop.
  - cbn in Hloop. now inversion Hloop; subst.
  - cbn [for_loop] in Hloop.
    destruct (body i st) as [st1|f] eqn:E; [|discriminate].
    cbn in Hloop. eapply IH; [|exact Hloop]. eapply Hbody; eassumption.
Qed.

Lemma texture_update_gl (i : Z) (f : TEXTURE_INFO.t -> TEXTURE_INFO.t)
    (st st' : state) :
  texture_update i f st = Ok st' -> gl st' = gl st.
Proof.
  unfold texture_update. destruct (texture_at st i) as [e|]; [|discriminate].
  cbn. intros H. now inversion H; subst.
Qed.

(** Whatever the registry holds, a texture name in use before
    [DestroyGLTextures] is in use after it. *)
Lemma DestroyGLTextures_keeps_names (st st' : state) (id : Z) :
  DestroyGLTextures st = Ok st' ->
  id ∈ gl_names (gl st) -> id ∈ gl_names (gl st').
Proof.
  intros Hcall Hid. unfold DestroyGLTextures in Hcall.
  apply (for_loop_preserves (fun s => id ∈ gl_names (gl s))
           DestroyGLTextures_body) in Hcall; [exact Hcall| |exact Hid].
  intros i s s' Hs Hbody. unfold DestroyGLTextures_body in Hbody.
  cbn [glGenTextures] in Hbody. apply texture_update_gl in Hbody.
  rewrite Hbody. cbn. now apply list_elem_of_further.
Qed.

(** C5 (defect).  On the registry of three textures with names 7, 8 and 9
    in use, [DestroyGLTextures] releases none of them: afterwards the three
    names are still in use, three more (10, 11, 12) have been generated, and
    the registry entries have been overwritten with the new names. *)
Theorem DestroyGLTextures_releases_nothing :
  exists st' : state,
    DestroyGLTextures three_textures = Ok st' /\
    gl_names (gl three_textures) = [9; 8; 7] /\
    gl_names (gl st') = [12; 11; 10; 9; 8; 7] /\
    TEXTURE_INFO.ID <$> registered st' = [10; 11; 12].
Proof.
  eexists. split; [vm_compute; reflexivity|].
  repeat split.
Qed.

(** ** Scene preparation *)

Lemma loadable_same_files (filename : string) (st st' : state) :
  same_but_textures st st' -> loadable filename st -> loadable filename st'.
Proof.
  intros (_ & _ & _ & Hfiles) (image & Hfile & Hch).
  exists image. now rewrite Hfiles.
Qed.

(** A load that succeeds, as one step of [LoadSceneTextures]. *)
Lemma CreateGLTexture_step (filename tag : string) (st : state) (n : Z) :
  loadable filename st ->
  m_loadedTextures st = n -> 0 <= n -> n < Z.of_nat (length (m_textureIDs st)) ->
  exists st' : state,
    CreateGLTexture filename tag st = Ok (true, st') /\
    same_but_textures st st' /\
    m_loadedTextures st' = n + 1 /\
    length (m_textureIDs st') = length (m_textureIDs st).
Proof.
  intros Hload Hn Hpos Hlt. subst n.
  destruct (CreateGLTexture_supported filename tag st Hload Hpos ltac:(lia))
    as (st' & Hcall & Hsame & Hcount & Harray).
  exists st'. split; [exact Hcall|]. split; [exact Hsame|].
  split; [exact Hcount|]. rewrite Harray. apply length_insert.
Qed.

Lemma LoadSceneTextures_ok (st : state) :
  scene_loadable st ->
  0 <= m_loadedTextures st ->
  m_loadedTextures st + 5 <= Z.of_nat (length (m_textureIDs st)) ->
  exists st' : state,
    LoadSceneTextures st = Ok st' /\
    same_but_textures st st' /\
    m_loadedTextures st' = m_loadedTextures st + 5 /\
    length (m_textureIDs st') = length (m_textureIDs st).
Proof.
  intros (L1 & L2 & L3 & L4 & L5) Hpos Hroom. unfold LoadSceneTextures.
  destruct (CreateGLTexture_step "textures/Floor.jpg" "floor" st _ L1 eq_refl)
    as (st1 & E1 & S1 & C1 & A1); [lia|lia|].
  rewrite E1. cbn [mbind result_bind].
  destruct (CreateGLTexture_step "textures/Leg.jpg" "leg" st1 _
              (loadable_same_files _ _ _ S1 L2) C1)
    as (st2 & E2 & S2 & C2 & A2); [lia|lia|].
  rewrite E2. cbn [mbind result_bind].
  pose proof (same_but_textures_trans _ _ _ S1 S2) as S12.
  destruct (CreateGLTexture_step "textures/Tabletop.jpg" "tabletop" st2 _
              (loadable_same_files _ _ _ S12 L3) C2)
    as (st3 & E3 & S3 & C3 & A3); [lia|lia|].
  rewrite E3. cbn [mbind result_bind].
  pose proof (same_but_textures_trans _ _ _ S12 S3) as S13.
  destruct (CreateGLTexture_step "textures/Plate.jpg" "plate" st3 _
              (loadable_same_files _ _ _ S13 L4) C3)
    as (st4 & E4 & S4 & C4 & A4); [lia|lia|].
  rewrite E4. cbn [mbind result_bind].
  pose proof (same_but_textures_trans _ _ _ S13 S4) as S14.
  destruct (CreateGLTexture_step "textures/Mug.jpg" "mug" st4 _
              (loadable_same_files _ _ _ S14 L5) C4)
    as (st5 & E5 & S5 & C5 & A5); [lia|lia|].
  rewrite E5. cbn [mbind result_bind].
  pose proof (same_but_textures_trans _ _ _ S14 S5) as S15.
  destruct (BindGLTextures_ok st5) as (st' & -> & (S6 & C6 & A6 & _) & _).
  { unfold within_array. lia. }
  exists st'. split; [reflexivity|].
  split; [eapply same_but_textures_trans; eassumption|].
  split; [lia|congruence].
Qed.

Lemma DefineObjectMaterials_appends (st : state) :
  m_objectMaterials (DefineObjectMaterials st)
    = m_objectMaterials st
        ++ [gravelMaterial; metalMaterial; woodMaterial; porcelainMaterial;
            glassMaterial].
Proof.
  unfold DefineObjectMaterials, push_back. cbn [m_objectMaterials set_objectMaterials].
  now rewrite <- !app_assoc.
Qed.

Lemma deref_shader_Some (f : ShaderManager -> ShaderManager) (st : state)
    (sm : ShaderManager) :
  m_pShaderManager st = Some sm ->
  deref_shader f st = Ok (set_shader (Some (f sm)) st).
Proof. intros H. unfold deref_shader. now rewrite H. Qed.

Ltac upload :=
  erewrite deref_shader_Some by reflexivity; cbn [mbind result_bind].

Lemma SetupSceneLights_ok (st : state) (sm : ShaderManager) :
  m_pShaderManager st = Some sm ->
  exists sm' : ShaderManager, SetupSceneLights st = Ok (set_shader (Some sm') st).
Proof.
  intros H. unfold SetupSceneLights.
  rewrite (deref_shader_Some _ st sm H). cbn [mbind result_bind].
  do 20 upload. eexists. reflexivity.
Qed.

Lemma load_mesh_Some (m : mesh) (st : state) (ms : ShapeMeshes) :
  m_basicMeshes st = Some ms ->
  load_mesh m st = Ok (set_meshes (Some (ms ++ [m])) st).
Proof. intros H. unfold load_mesh. now rewrite H. Qed.

Ltac generate :=
  erewrite load_mesh_Some by reflexivity; cbn [mbind result_bind].

(** One run of [PrepareScene] on a state with five free texture slots. *)
Lemma PrepareScene_ok (st : state) :
  scene_loadable st ->
  is_Some (m_pShaderManager st) -> is_Some (m_basicMeshes st) ->
  0 <= m_loadedTextures st ->
  m_loadedTextures st + 5 <= Z.of_nat (length (m_textureIDs st)) ->
  exists st' : state,
    PrepareScene st = Ok st' /\
    m_loadedTextures st' = m_loadedTextures st + 5 /\
    m_objectMaterials st'
      = m_objectMaterials st
          ++ [gravelMaterial; metalMaterial; woodMaterial; porcelainMaterial;
              glassMaterial] /\
    length (m_textureIDs st') = length (m_textureIDs st) /\
    files st' = files st /\
    is_Some (m_pShaderManager st') /\ is_Some (m_basicMeshes st').
Proof.
  intros Hload [sm Hsm] [ms Hms] Hpos Hroom. unfold PrepareScene.
  destruct (LoadSceneTextures_ok st Hload Hpos Hroom)
    as (st1 & -> & (S1 & S2 & S3 & S4) & Hcount & Hlen).
  cbn [mbind result_bind].
  destruct (SetupSceneLights_ok (DefineObjectMaterials st1) sm) as (sm' & ->).
  { cbn. congruence. }
  cbn [mbind result_bind].
  erewrite load_mesh_Some by (cbn; rewrite S2; exact Hms).
  cbn [mbind result_bind]. do 4 generate.
  eexists. split; [reflexivity|].
  cbn [m_loadedTextures m_objectMaterials m_textureIDs files m_pShaderManager
       m_basicMeshes set_meshes set_shader].
  split; [exact Hcount|].
  split; [rewrite DefineObjectMaterials_appends; now rewrite S3|].
  split; [exact Hlen|]. split; [exact S4|]. split; eauto.
Qed.

(** C6.  [PrepareScene] has no guard against a second call.  From a state
    with both registries empty, a full-size texture array, the five texture
    files decodable and both pointers set, the first call ends with five
    loaded textures and five materials, and a second call on the resulting
    state runs again and ends with ten of each. *)
Theorem PrepareScene_twice_doubles (st : state) :
  m_loadedTextures st = 0 ->
  m_objectMaterials st = [] ->
  length (m_textureIDs st) = TEXTURE_SLOTS ->
  scene_loadable st ->
  is_Some (m_pShaderManager st) ->
  is_Some (m_basicMeshes st) ->
  exists st1 st2 : state,
    PrepareScene st = Ok st1 /\
    m_loadedTextures st1 = 5 /\
    length (m_objectMaterials st1) = 5%nat /\
    PrepareScene st1 = Ok st2 /\
    m_loadedTextures st2 = 10 /\
    length (m_objectMaterials st2) = 10%nat.
Proof.
  intros Hcount Hmats Hlen Hload Hsm Hms.
  unfold TEXTURE_SLOTS in Hlen.
  destruct (PrepareScene_ok st Hload Hsm Hms)
    as (st1 & Hcall1 & Hcount1 & Hmats1 & Hlen1 & Hfiles1 & Hsm1 & Hms1);
    [lia|lia|].
  assert (Hload1 : scene_loadable st1).
  { unfold scene_loadable, loadable in *. now rewrite Hfiles1. }
  destruct (PrepareScene_ok st1 Hload1 Hsm1 Hms1)
    as (st2 & Hcall2 & Hcount2 & Hmats2 & _); [lia|lia|].
  exists st1, st2.
  split; [exact Hcall1|]. split; [lia|].
  split; [now rewrite Hmats1, Hmats|].
  split; [exact Hcall2|]. split; [lia|].
  now rewrite Hmats2, Hmats1, Hmats.
Qed.

Lemma PrepareScene_twice_doubles_witness :
  m_loadedTextures (fresh_state scene_files) = 0 /\
  m_objectMaterials (fresh_state scene_files) = [] /\
  exists st1 st2 : state,
    PrepareScene (fresh_state scene_files) = Ok st1 /\
    m_loadedTextures st1 = 5 /\
    length (m_objectMaterials st1) = 5%nat /\
    PrepareScene st1 = Ok st2 /\
    m_loadedTextures st2 = 10 /\
    length (m_objectMaterials st2) = 10%nat.
Proof.
  split; [reflexivity|]. split; [reflexivity|].
  apply (PrepareScene_twice_doubles (fresh_state scene_files)).
  - reflexivity.
  - reflexivity.
  - reflexivity.
  - repeat split; eexists; (split; [reflexivity|left; reflexivity]).
  - eexists. reflexivity.
  - eexists. reflexivity.
Defined.

(** ** The transform composer *)

Section Matrices.

Import glm.
Local Open Scope R_scope.














End Matrices.

(** ** Further properties of the texture registry *)

Lemma fresh_name_bound (names : list Z) (id : Z) :
  id ∈ names -> id < fresh_name names.
Proof.
  unfold fresh_name. induction names as [|a names IH]; intros Hin.
  - now apply elem_of_nil in Hin.
  - apply elem_of_cons in Hin as [->|Hin]; cbn [foldr]; [lia|].
    specialize (IH Hin). lia.
Qed.

Lemma fresh_name_unused (names : list Z) : fresh_name names ∉ names.
Proof. intros Hin. apply fresh_name_bound in Hin. lia. Qed.

Lemma fresh_name_positive (names : list Z) : 1 <= fresh_name names.
Proof.
  unfold fresh_name.
  assert (0 <= foldr Z.max 0 names); [|lia].
  induction names as [|a names IH]; cbn [foldr]; lia.
Qed.

Lemma CreateGLTexture_cases (filename tag : string) (st : state) :
  0 <= m_loadedTextures st ->
  m_loadedTextures st < Z.of_nat (length (m_textureIDs st)) ->
  exists (b : bool) (st' : state),
    CreateGLTexture filename tag st = Ok (b, st') /\
    (b = true <-> loadable filename st) /\
    same_but_textures st st' /\
    length (m_textureIDs st') = length (m_textureIDs st) /\
    m_loadedTextures st' = (if b then m_loadedTextures st + 1 else m_loadedTextures st) /\
    registered st'
      = (if b
         then registered st ++ [TEXTURE_INFO.mk (fresh_name (gl_names (gl st))) tag]
         else registered st) /\
    fresh_name (gl_names (gl st)) ∉ gl_names (gl st).
Proof.
  intros Hpos Hlt.
  destruct (files st !! filename) as [image|] eqn:Hfile.
  - destruct (decide (img_channels image = 3 \/ img_channels image = 4)) as [Hch|Hch].
    + assert (Hload : loadable filename st) by (exists image; auto).
      destruct (CreateGLTexture_supported filename tag st Hload Hpos ltac:(lia))
        as (st' & Hcall & Hsame & Hcount & Harray).
      destruct (registered_after_load st st' _ Hpos ltac:(lia) Hcount Harray)
        as (Hreg & _ & Hlen).
      exists true, st'. split; [exact Hcall|]. split; [tauto|].
      split; [exact Hsame|]. split; [exact Hlen|]. split; [exact Hcount|].
      split; [exact Hreg|apply fresh_name_unused].
    + exists false. unfold CreateGLTexture. rewrite Hfile. cbn zeta.
      cbn [glGenTextures].
      destruct (Z.eqb_spec (img_channels image) 3) as [H3|_]; [tauto|].
      destruct (Z.eqb_spec (img_channels image) 4) as [H4|_]; [tauto|].
      eexists. split; [reflexivity|]. split.
      { split; [discriminate|]. intros (image' & Hfile' & Hch').
        rewrite Hfile in Hfile'. inversion Hfile'; subst. tauto. }
      split; [repeat split|]. split; [reflexivity|]. split; [reflexivity|].
      split; [reflexivity|apply fresh_name_unused].
  - exists false, st. unfold CreateGLTexture. rewrite Hfile.
    split; [reflexivity|]. split.
    { split; [discriminate|]. intros (image' & Hfile' & _). congruence. }
    split; [apply same_but_textures_refl|]. split; [reflexivity|].
    split; [reflexivity|]. split; [reflexivity|apply fresh_name_unused].
Qed.

(** X1.  The result of [CreateGLTexture] whenever the slot at the counter exists:
    it never faults, it returns [true] exactly when the file decodes to a
    three- or four-channel image, and only then does the registry grow, by
    one entry holding a name that was not in use and the given tag. *)
Theorem CreateGLTexture_outcome (filename tag : string) (st : state) :
  0 <= m_loadedTextures st ->
  m_loadedTextures st < Z.of_nat (length (m_textureIDs st)) ->
  exists (b : bool) (st' : state),
    CreateGLTexture filename tag st = Ok (b, st') /\
    (b = true <-> loadable filename st) /\
    same_but_textures st st' /\
    length (m_textureIDs st') = length (m_textureIDs st) /\
    m_loadedTextures st' = (if b then m_loadedTextures st + 1 else m_loadedTextures st) /\
    registered st'
      = (if b
         then registered st ++ [TEXTURE_INFO.mk (fresh_name (gl_names (gl st))) tag]
         else registered st) /\
    fresh_name (gl_names (gl st)) ∉ gl_names (gl st).
Proof.
  intros Hpos Hlt.
  destruct (CreateGLTexture_cases filename tag st Hpos Hlt) as (b & st' & H).
  exists b, st'. exact H.
Qed.

(** A file that cannot be decoded leaves the whole state as it is, the
    context included. *)
Lemma CreateGLTexture_undecodable (filename tag : string) (st : state) :
  files st !! filename = None -> CreateGLTexture filename tag st = Ok (false, st).
Proof. intros H. unfold CreateGLTexture. now rewrite H. Qed.

Lemma register_texture_overflow (textureID : Z) (tag : string) (st : state) :
  m_loadedTextures st < 0 \/ Z.of_nat (length (m_textureIDs st)) <= m_loadedTextures st ->
  register_texture textureID tag st = Fault OutOfBounds.
Proof.
  intros Hout. unfold register_texture, texture_update, texture_at.
  cbn [m_loadedTextures m_textureIDs set_gl set_image_buffers].
  destruct (Z.ltb_spec (m_loadedTextures st) 0) as [_|Hge]; [reflexivity|].
  rewrite (lookup_ge_None_2 (m_textureIDs st)); [reflexivity|lia].
Qed.

Lemma CreateGLTexture_out_of_slots (filename tag : string) (st : state) :
  loadable filename st ->
  m_loadedTextures st < 0 \/ Z.of_nat (length (m_textureIDs st)) <= m_loadedTextures st ->
  CreateGLTexture filename tag st = Fault OutOfBounds.
Proof.
  intros (image & Hfile & Hch) Hout.
  unfold CreateGLTexture. rewrite Hfile. cbn zeta. cbn [glGenTextures].
  destruct Hch as [H|H]; rewrite H; cbn [Z.eqb Pos.eqb];
    apply register_texture_overflow; exact Hout.
Qed.

(** X2.  Capacity.  When the counter is not the index of a slot of the array (the
    array is full, or the counter is negative), loading a supported image
    writes outside the array. *)
Theorem CreateGLTexture_overflow (filename tag : string) (st : state) :
  loadable filename st ->
  m_loadedTextures st < 0 \/ Z.of_nat (length (m_textureIDs st)) <= m_loadedTextures st ->
  CreateGLTexture filename tag st = Fault OutOfBounds.
Proof.
  intros Hload Hout.
  apply CreateGLTexture_out_of_slots; [exact Hload|exact Hout].
Qed.

Section BoundObject.

Variable c : GLContext.
Variable f : TextureObject -> TextureObject.

Lemma bound_2d_update_bound : bound_2d (update_bound f c) = bound_2d c.
Proof. reflexivity. Qed.

Lemma object_of_update_bound :
  object_of (update_bound f c) (bound_2d c) = f (object_of c (bound_2d c)).
Proof.
  unfold object_of at 1. unfold update_bound. cbn [gl_objects].
  now rewrite lookup_insert_eq.
Qed.

Lemma bound_2d_glBindTexture (id : Z) : bound_2d (glBindTexture id c) = id.
Proof.
  unfold bound_2d, glBindTexture, active_unit. cbn [gl_binding_2d gl_active].
  now rewrite lookup_insert_eq.
Qed.

Lemma object_of_glBindTexture (id : Z) :
  object_of (glBindTexture id c) id = object_of c id.
Proof.
  unfold object_of at 1. unfold glBindTexture. cbn [gl_objects].
  now rewrite lookup_insert_eq.
Qed.

Lemma object_of_glBindTexture_ne (id name : Z) :
  id <> name -> object_of (glBindTexture id c) name = object_of c name.
Proof.
  intros Hne. unfold object_of at 1. unfold glBindTexture. cbn [gl_objects].
  now rewrite lookup_insert_ne.
Qed.

Lemma object_of_update_bound_eq (id : Z) :
  bound_2d c = id -> object_of (update_bound f c) id = f (object_of c id).
Proof. intros <-. apply object_of_update_bound. Qed.

Lemma objects_update_bound_eq (id : Z) :
  bound_2d c = id -> gl_objects (update_bound f c) !! id = Some (f (object_of c id)).
Proof. intros <-. unfold update_bound. cbn [gl_objects]. apply lookup_insert_eq. Qed.

End BoundObject.

(** The registration tail, with what it does to the context and to the
    count of decoded buffers. *)
Lemma register_texture_context (textureID : Z) (tag : string) (st : state) :
  0 <= m_loadedTextures st ->
  m_loadedTextures st < Z.of_nat (length (m_textureIDs st)) ->
  exists st' : state,
    register_texture textureID tag st = Ok (true, st') /\
    gl st' = glBindTexture 0 (glGenerateMipmap (gl st)) /\
    image_buffers st' = image_buffers st - 1.
Proof.
  intros Hpos Hlt.
  destruct (lookup_lt_is_Some_2 (m_textureIDs st) (Z.to_nat (m_loadedTextures st)))
    as [e He]; [lia|].
  unfold register_texture. cbn zeta.
  rewrite (texture_update_ok _ _ _ e) by (cbn; assumption).
  cbn [mbind result_bind].
  rewrite (texture_update_ok _ _ _ (TEXTURE_INFO.mk textureID (TEXTURE_INFO.tag e))).
  2: { cbn. assumption. }
  2: { cbn. apply list_lookup_insert_eq. eapply lookup_lt_Some, He. }
  cbn. eexists. split; [reflexivity|]. split; reflexivity.
Qed.

Lemma loaded_texture_built (image : Image) (o : TextureObject) (internalformat : Z) :
  internalformat = (if img_channels image =? 3 then GL_RGB8 else GL_RGBA8) ->
  loaded_texture image
    (mkTextureObject
       (<[GL_TEXTURE_MAG_FILTER := GL_LINEAR]>
          (<[GL_TEXTURE_MIN_FILTER := GL_LINEAR]>
             (<[GL_TEXTURE_WRAP_T := GL_REPEAT]>
                (<[GL_TEXTURE_WRAP_S := GL_REPEAT]> (tex_params o)))))
       (Some (internalformat, img_width image, img_height image))
       true).
Proof.
  intros ->. unfold loaded_texture. cbn [tex_params tex_storage tex_mipmaps].
  repeat split.
  - rewrite !lookup_insert_ne by discriminate. apply lookup_insert_eq.
  - rewrite !lookup_insert_ne by discriminate. apply lookup_insert_eq.
  - rewrite !lookup_insert_ne by discriminate. apply lookup_insert_eq.
  - apply lookup_insert_eq.
Qed.

Lemma CreateGLTexture_context (filename tag : string) (image : Image)
    (st : state) :
  files st !! filename = Some image ->
  img_channels image = 3 \/ img_channels image = 4 ->
  0 <= m_loadedTextures st ->
  m_loadedTextures st < Z.of_nat (length (m_textureIDs st)) ->
  exists (st' : state) (o : TextureObject),
    CreateGLTexture filename tag st = Ok (true, st') /\
    gl_names (gl st') = fresh_name (gl_names (gl st)) :: gl_names (gl st) /\
    gl_objects (gl st') !! fresh_name (gl_names (gl st)) = Some o /\
    loaded_texture image o /\
    gl_binding_2d (gl st') !! active_unit (gl st) = Some 0 /\
    gl_active (gl st') = gl_active (gl st) /\
    image_buffers st' = image_buffers st.
Proof.
  intros Hfile Hch Hpos Hlt.
  pose proof (fresh_name_positive (gl_names (gl st))) as Hid.
  set (id := fresh_name (gl_names (gl st))) in *.
  unfold CreateGLTexture. rewrite Hfile. cbn zeta.
  cbn [glGenTextures gl set_image_buffers set_gl]. fold id.
  set (c1 := glBindTexture id _).
  set (c5 := glTexParameteri GL_TEXTURE_MAG_FILTER GL_LINEAR _).
  assert (Hbound5 : bound_2d c5 = id).
  { subst c5. unfold glTexParameteri. rewrite !bound_2d_update_bound.
    subst c1. apply bound_2d_glBindTexture. }
  assert (Hobj5 : exists o0 : TextureObject,
            object_of c5 id
            = mkTextureObject
                (<[GL_TEXTURE_MAG_FILTER := GL_LINEAR]>
                   (<[GL_TEXTURE_MIN_FILTER := GL_LINEAR]>
                      (<[GL_TEXTURE_WRAP_T := GL_REPEAT]>
                         (<[GL_TEXTURE_WRAP_S := GL_REPEAT]> (tex_params o0)))))
                (tex_storage o0) (tex_mipmaps o0)).
  { exists (object_of c1 id). subst c5. unfold glTexParameteri.
    assert (Hb1 : bound_2d c1 = id) by (subst c1; apply bound_2d_glBindTexture).
    rewrite !object_of_update_bound_eq by exact Hb1.
    reflexivity. }
  destruct Hobj5 as [o0 Hobj5].
  assert (Hfinal : forall (internalformat : Z) (st0 : state),
    internalformat = (if img_channels image =? 3 then GL_RGB8 else GL_RGBA8) ->
    m_loadedTextures st0 = m_loadedTextures st ->
    m_textureIDs st0 = m_textureIDs st ->
    image_buffers st0 = image_buffers st + 1 ->
    gl st0 = glTexImage2D internalformat (img_width image) (img_height image) c5 ->
    exists (st' : state) (o : TextureObject),
      register_texture id tag st0 = Ok (true, st') /\
      gl_names (gl st') = id :: gl_names (gl st) /\
      gl_objects (gl st') !! id = Some o /\
      loaded_texture image o /\
      gl_binding_2d (gl st') !! active_unit (gl st) = Some 0 /\
      gl_active (gl st') = gl_active (gl st) /\
      image_buffers st' = image_buffers st).
  { intros internalformat st0 Hfmt Hn Ha Hbuf Hgl.
    destruct (register_texture_context id tag st0) as (st' & Hcall & Hgl' & Hbuf');
      [lia|rewrite Hn, Ha; lia|].
    exists st',
      (mkTextureObject
         (<[GL_TEXTURE_MAG_FILTER := GL_LINEAR]>
            (<[GL_TEXTURE_MIN_FILTER := GL_LINEAR]>
               (<[GL_TEXTURE_WRAP_T := GL_REPEAT]>
                  (<[GL_TEXTURE_WRAP_S := GL_REPEAT]> (tex_params o0)))))
         (Some (internalformat, img_width image, img_height image)) true).
    split; [exact Hcall|].
    rewrite Hgl', Hgl. split; [reflexivity|]. split; [|split; [|split; [|split]]].
    - unfold glBindTexture at 1. cbn [gl_objects].
      rewrite lookup_insert_ne by lia.
      unfold glGenerateMipmap, glTexImage2D.
      rewrite objects_update_bound_eq by exact Hbound5.
      rewrite object_of_update_bound_eq by exact Hbound5.
      rewrite Hobj5. cbn [tex_params tex_storage tex_mipmaps]. reflexivity.
    - now apply loaded_texture_built.
    - unfold glBindTexture at 1. cbn [gl_binding_2d].
      replace (active_unit _) with (active_unit (gl st)) by reflexivity.
      apply lookup_insert_eq.
    - reflexivity.
    - lia. }
  destruct Hch as [H|H]; rewrite H; cbn [Z.eqb Pos.eqb].
  - apply (Hfinal GL_RGB8); try reflexivity. now rewrite H.
  - apply (Hfinal GL_RGBA8); try reflexivity. now rewrite H.
Qed.

(** X3.  What a successful load leaves in the context: one more name in use, a
    texture object behind it with repeat wrapping, linear filtering, the
    image stored as RGB8 or RGBA8 according to its channel count and
    mipmaps generated; no texture bound on the active unit; the active unit
    itself and the count of decoded buffers as before. *)
Theorem CreateGLTexture_texture_object (filename tag : string) (image : Image)
    (st : state) :
  files st !! filename = Some image ->
  img_channels image = 3 \/ img_channels image = 4 ->
  0 <= m_loadedTextures st ->
  m_loadedTextures st < Z.of_nat (length (m_textureIDs st)) ->
  exists (st' : state) (o : TextureObject),
    CreateGLTexture filename tag st = Ok (true, st') /\
    gl_names (gl st') = fresh_name (gl_names (gl st)) :: gl_names (gl st) /\
    gl_objects (gl st') !! fresh_name (gl_names (gl st)) = Some o /\
    loaded_texture image o /\
    gl_binding_2d (gl st') !! active_unit (gl st) = Some 0 /\
    gl_active (gl st') = gl_active (gl st) /\
    image_buffers st' = image_buffers st.
Proof.
  intros Hfile Hch Hpos Hlt.
  destruct (CreateGLTexture_context filename tag image st Hfile Hch Hpos Hlt)
    as (st' & o & H).
  exists st', o. exact H.
Qed.

(** ** The registry invariant *)

Lemma elem_of_insert_inv {A : Type} (l : list A) (i : nat) (x y : A) :
  y ∈ <[i:=x]> l -> y = x \/ y ∈ l.
Proof.
  revert i. induction l as [|a l IH]; intros i Hin; [now right|].
  destruct i as [|i]; cbn in Hin.
  - apply elem_of_cons in Hin as [->|Hin]; [now left|].
    right. now apply list_elem_of_further.
  - apply elem_of_cons in Hin as [->|Hin]; [right; apply list_elem_of_here|].
    destruct (IH i Hin) as [->|Hin']; [now left|].
    right. now apply list_elem_of_further.
Qed.

Lemma NoDup_insert_fresh {A : Type} (l : list A) (i : nat) (x : A) :
  NoDup l -> x ∉ l -> NoDup (<[i:=x]> l).
Proof.
  revert i. induction l as [|a l IH]; intros i Hnd Hx; [exact Hnd|].
  apply NoDup_cons in Hnd as [Ha Hnd].
  apply not_elem_of_cons in Hx as [Hxa Hx].
  destruct i as [|i]; cbn; apply NoDup_cons.
  - split; assumption.
  - split; [|now apply IH].
    intros Hin. apply elem_of_insert_inv in Hin as [->|Hin]; [congruence|tauto].
Qed.

Lemma bind_Ok {A B : Type} (r : result A) (k : A -> result B) (y : B) :
  r ≫= k = Ok y -> exists a : A, r = Ok a /\ k a = Ok y.
Proof. destruct r as [a|f]; cbn; [eauto|discriminate]. Qed.

(** The invariant reads the counter, the array and the context only. *)
Lemma registry_ok_ext (st st' : state) :
  m_loadedTextures st' = m_loadedTextures st ->
  m_textureIDs st' = m_textureIDs st ->
  gl_names (gl st') = gl_names (gl st) ->
  registry_ok st -> registry_ok st'.
Proof.
  intros Hn Ha Hg. unfold registry_ok, within_array, registered_IDs, registered.
  now rewrite Hn, Ha, Hg.
Qed.

Lemma registry_ok_more_names (st st' : state) (id : Z) :
  m_loadedTextures st' = m_loadedTextures st ->
  m_textureIDs st' = m_textureIDs st ->
  gl_names (gl st') = id :: gl_names (gl st) ->
  registry_ok st -> registry_ok st'.
Proof.
  intros Hn Ha Hg. unfold registry_ok, within_array, registered_IDs, registered.
  rewrite Hn, Ha, Hg. intros (H1 & H2 & H3 & H4).
  repeat split; try assumption.
  intros id' Hid'. apply list_elem_of_further. now apply H4.
Qed.

Lemma registry_ok_append (st st' : state) (tag : string) :
  registry_ok st ->
  m_loadedTextures st' = m_loadedTextures st + 1 ->
  length (m_textureIDs st') = length (m_textureIDs st) ->
  m_loadedTextures st < Z.of_nat (length (m_textureIDs st)) ->
  registered st'
    = registered st ++ [TEXTURE_INFO.mk (fresh_name (gl_names (gl st))) tag] ->
  gl_names (gl st') = fresh_name (gl_names (gl st)) :: gl_names (gl st) ->
  registry_ok st'.
Proof.
  intros (Hpos & Hin & Hnd & Hsub) Hn Hlen Hlt Hreg Hg.
  unfold registry_ok, within_array, registered_IDs in *.
  rewrite Hn, Hlen, Hreg, Hg, fmap_app. cbn [fmap list_fmap TEXTURE_INFO.ID].
  split; [lia|]. split; [lia|]. split.
  - apply NoDup_app. split; [exact Hnd|]. split; [|apply NoDup_singleton].
    intros id Hid Hnew. apply list_elem_of_singleton in Hnew. subst id.
    apply Hsub in Hid. now apply fresh_name_unused in Hid.
  - intros id [Hid|Hid]%elem_of_app.
    + apply list_elem_of_further. now apply Hsub.
    + apply list_elem_of_singleton in Hid. subst id. apply list_elem_of_here.
Qed.

Lemma CreateGLTexture_keeps_registry_ok (filename tag : string) (st st' : state)
    (b : bool) :
  registry_ok st -> CreateGLTexture filename tag st = Ok (b, st') ->
  registry_ok st'.
Proof.
  intros Hok Hcall. pose proof Hok as (Hpos & Hin & _ & _).
  destruct (files st !! filename) as [image|] eqn:Hfile.
  - destruct (decide (img_channels image = 3 \/ img_channels image = 4)) as [Hch|Hch].
    + destruct (decide (m_loadedTextures st < Z.of_nat (length (m_textureIDs st))))
        as [Hlt|Hge].
      * destruct (CreateGLTexture_cases filename tag st Hpos Hlt)
          as (b1 & st1 & Hcall1 & Hb1 & _ & Hlen & Hn & Hreg & _).
        destruct (CreateGLTexture_context filename tag image st
                    Hfile Hch Hpos Hlt)
          as (st2 & o & Hcall2 & Hnames & _).
        rewrite Hcall in Hcall1, Hcall2.
        inversion Hcall1; subst b1 st1. inversion Hcall2; subst b st2.
        eapply registry_ok_append; eassumption.
      * rewrite CreateGLTexture_out_of_slots in Hcall; [discriminate| |right; lia].
        exists image. auto.
    + destruct (CreateGLTexture_unsupported filename tag image st Hfile)
        as (st1 & Hcall1 & Hn & Ha & Hnames & _); [tauto|tauto|].
      rewrite Hcall in Hcall1. inversion Hcall1; subst b st1.
      eapply registry_ok_more_names; eassumption.
  - rewrite CreateGLTexture_undecodable in Hcall by assumption.
    now inversion Hcall; subst.
Qed.

Lemma BindGLTextures_keeps_registry_ok (st st' : state) :
  registry_ok st -> BindGLTextures st = Ok st' -> registry_ok st'.
Proof.
  intros Hok Hcall. pose proof Hok as (_ & Hin & _ & _).
  destruct (BindGLTextures_ok st Hin) as (st1 & Hcall1 & Hsame & Hnames & _).
  rewrite Hcall in Hcall1. inversion Hcall1; subst st1.
  destruct Hsame as (_ & Hn & Ha & _).
  eapply registry_ok_ext; eassumption.
Qed.

Lemma DestroyGLTextures_body_keeps_registry_ok (i : Z) (st st' : state) :
  registry_ok st -> DestroyGLTextures_body i st = Ok st' -> registry_ok st'.
Proof.
  intros (Hpos & Hin & Hnd & Hsub) Hbody.
  unfold DestroyGLTextures_body in Hbody. cbn [glGenTextures] in Hbody.
  unfold texture_update in Hbody.
  apply bind_Ok in Hbody as (e & Hat & Hret).
  inversion Hret; subst st'; clear Hret.
  unfold texture_at in Hat. cbn [m_textureIDs set_gl] in Hat.
  destruct (Z.ltb_spec i 0) as [|Hi]; [discriminate|].
  destruct (m_textureIDs st !! Z.to_nat i) as [e'|] eqn:He; [|discriminate].
  inversion Hat; subst e'; clear Hat.
  set (id := fresh_name (gl_names (gl st))).
  unfold registry_ok, within_array, registered_IDs, registered in *.
  cbn [m_loadedTextures m_textureIDs gl set_gl set_textureIDs gl_names].
  rewrite length_insert. split; [exact Hpos|]. split; [exact Hin|].
  destruct (decide (Z.to_nat i < Z.to_nat (m_loadedTextures st))%nat) as [Hlt|Hge].
  - rewrite take_insert_lt by exact Hlt. rewrite list_fmap_insert.
    cbn [TEXTURE_INFO.ID]. fold id. split.
    + apply NoDup_insert_fresh; [exact Hnd|].
      intros Hid. apply Hsub in Hid. now apply fresh_name_unused in Hid.
    + intros id' Hid'. apply elem_of_insert_inv in Hid' as [->|Hid'].
      * apply list_elem_of_here.
      * apply list_elem_of_further. now apply Hsub.
  - rewrite take_insert_ge by lia. split; [exact Hnd|].
    intros id' Hid'. apply list_elem_of_further. now apply Hsub.
Qed.

Lemma DestroyGLTextures_keeps_registry_ok (st st' : state) :
  registry_ok st -> DestroyGLTextures st = Ok st' -> registry_ok st'.
Proof.
  intros Hok Hcall. unfold DestroyGLTextures in Hcall.
  eapply (for_loop_preserves registry_ok DestroyGLTextures_body);
    [|exact Hok|exact Hcall].
  intros i s s'. apply DestroyGLTextures_body_keeps_registry_ok.
Qed.

(** ** Scene preparation in general *)

Lemma registered_same_context (st st' : state) :
  same_but_context st st' -> registered st' = registered st.
Proof. intros (_ & Hn & Ha & _). unfold registered. now rewrite Hn, Ha. Qed.

Lemma supported_loadable (filename : string) (st : state) :
  supported filename st = true <-> loadable filename st.
Proof.
  unfold supported, loadable. split.
  - destruct (files st !! filename) as [image|]; [|discriminate].
    intros H. exists image. split; [reflexivity|].
    apply orb_true_iff in H as [H|H]; apply Z.eqb_eq in H; auto.
  - intros (image & -> & [H|H]); rewrite H; reflexivity.
Qed.

Lemma supported_same_files (filename : string) (st st' : state) :
  same_but_textures st st' -> supported filename st' = supported filename st.
Proof. intros (_ & _ & _ & Hfiles). unfold supported. now rewrite Hfiles. Qed.

(** One load as a step of [LoadSceneTextures], whatever the file holds. *)
Lemma CreateGLTexture_any (filename tag : string) (st : state) :
  0 <= m_loadedTextures st ->
  m_loadedTextures st < Z.of_nat (length (m_textureIDs st)) ->
  exists st' : state,
    CreateGLTexture filename tag st = Ok (supported filename st, st') /\
    same_but_textures st st' /\
    length (m_textureIDs st') = length (m_textureIDs st) /\
    m_loadedTextures st' = m_loadedTextures st + Z.b2z (supported filename st) /\
    exists extra : list TEXTURE_INFO.t, registered st' = registered st ++ extra.
Proof.
  intros Hpos Hlt.
  destruct (CreateGLTexture_cases filename tag st Hpos Hlt)
    as (b & st' & Hcall & Hb & Hsame & Hlen & Hn & Hreg & _).
  assert (b = supported filename st) as ->.
  { destruct b, (supported filename st) eqn:E; try reflexivity.
    - apply proj1 in Hb. specialize (Hb eq_refl).
      apply supported_loadable in Hb. congruence.
    - apply supported_loadable, Hb in E. discriminate. }
  exists st'. split; [exact Hcall|]. split; [exact Hsame|]. split; [exact Hlen|].
  rewrite Hn, Hreg. destruct (supported filename st); cbn [Z.b2z].
  - split; [lia|]. eauto.
  - split; [lia|]. exists []. now rewrite app_nil_r.
Qed.

Lemma b2z_range (b : bool) : 0 <= Z.b2z b <= 1.
Proof. destruct b; cbn; lia. Qed.

Lemma LoadSceneTextures_any (st : state) :
  0 <= m_loadedTextures st ->
  m_loadedTextures st + 5 <= Z.of_nat (length (m_textureIDs st)) ->
  exists st' : state,
    LoadSceneTextures st = Ok st' /\
    same_but_textures st st' /\
    length (m_textureIDs st') = length (m_textureIDs st) /\
    m_loadedTextures st' = m_loadedTextures st + supported_scene_files st /\
    exists extra : list TEXTURE_INFO.t, registered st' = registered st ++ extra.
Proof.
  intros Hpos Hroom. unfold LoadSceneTextures, supported_scene_files.
  pose proof (b2z_range (supported "textures/Floor.jpg" st)) as R1.
  pose proof (b2z_range (supported "textures/Leg.jpg" st)) as R2.
  pose proof (b2z_range (supported "textures/Tabletop.jpg" st)) as R3.
  pose proof (b2z_range (supported "textures/Plate.jpg" st)) as R4.
  pose proof (b2z_range (supported "textures/Mug.jpg" st)) as R5.
  destruct (CreateGLTexture_any "textures/Floor.jpg" "floor" st)
    as (st1 & E1 & S1 & A1 & C1 & (x1 & X1)); [lia|lia|].
  rewrite E1. cbn [mbind result_bind].
  destruct (CreateGLTexture_any "textures/Leg.jpg" "leg" st1)
    as (st2 & E2 & S2 & A2 & C2 & (x2 & X2)); [lia|lia|].
  rewrite E2. cbn [mbind result_bind].
  rewrite (supported_same_files _ _ _ S1) in C2.
  pose proof (same_but_textures_trans _ _ _ S1 S2) as S12.
  destruct (CreateGLTexture_any "textures/Tabletop.jpg" "tabletop" st2)
    as (st3 & E3 & S3 & A3 & C3 & (x3 & X3)); [lia|lia|].
  rewrite E3. cbn [mbind result_bind].
  rewrite (supported_same_files _ _ _ S12) in C3.
  pose proof (same_but_textures_trans _ _ _ S12 S3) as S13.
  destruct (CreateGLTexture_any "textures/Plate.jpg" "plate" st3)
    as (st4 & E4 & S4 & A4 & C4 & (x4 & X4)); [lia|lia|].
  rewrite E4. cbn [mbind result_bind].
  rewrite (supported_same_files _ _ _ S13) in C4.
  pose proof (same_but_textures_trans _ _ _ S13 S4) as S14.
  destruct (CreateGLTexture_any "textures/Mug.jpg" "mug" st4)
    as (st5 & E5 & S5 & A5 & C5 & (x5 & X5)); [lia|lia|].
  rewrite E5. cbn [mbind result_bind].
  rewrite (supported_same_files _ _ _ S14) in C5.
  pose proof (same_but_textures_trans _ _ _ S14 S5) as S15.
  destruct (BindGLTextures_ok st5) as (st' & -> & S6 & _).
  { unfold within_array. lia. }
  pose proof (registered_same_context _ _ S6) as X6.
  destruct S6 as (S6 & C6 & A6 & _).
  exists st'. split; [reflexivity|].
  split; [eapply same_but_textures_trans; eassumption|].
  split; [congruence|]. split; [lia|].
  exists (x1 ++ x2 ++ x3 ++ x4 ++ x5).
  rewrite X6, X5, X4, X3, X2, X1. now rewrite <- !app_assoc.
Qed.

Lemma SetupSceneLights_null (st : state) :
  m_pShaderManager st = None -> SetupSceneLights st = Fault NullDereference.
Proof. intros H. unfold SetupSceneLights, deref_shader. now rewrite H. Qed.

(** X14.  Scene preparation does not depend on the textures being there: with
    both pointers set and five free slots it completes whatever the files
    hold; the texture count grows by the number of supported files, the five
    presets are appended to the materials and the five meshes generated. *)
Theorem PrepareScene_tolerates_missing_textures (st : state)
    (sm : ShaderManager) (ms : ShapeMeshes) :
  m_pShaderManager st = Some sm ->
  m_basicMeshes st = Some ms ->
  0 <= m_loadedTextures st ->
  m_loadedTextures st + 5 <= Z.of_nat (length (m_textureIDs st)) ->
  exists st' : state,
    PrepareScene st = Ok st' /\
    m_loadedTextures st' = m_loadedTextures st + supported_scene_files st /\
    m_objectMaterials st'
      = m_objectMaterials st
          ++ [gravelMaterial; metalMaterial; woodMaterial; porcelainMaterial;
              glassMaterial] /\
    m_basicMeshes st'
      = Some (ms ++ [PlaneMesh; BoxMesh; TaperedCylinderMesh; CylinderMesh;
                     TorusMesh]).
Proof.
  intros Hsm Hms Hpos Hroom. unfold PrepareScene.
  destruct (LoadSceneTextures_any st Hpos Hroom)
    as (st1 & -> & (S1 & S2 & S3 & S4) & Hlen & Hcount & _).
  cbn [mbind result_bind].
  destruct (SetupSceneLights_ok (DefineObjectMaterials st1) sm) as (sm' & ->).
  { cbn. congruence. }
  cbn [mbind result_bind].
  erewrite load_mesh_Some by (cbn; rewrite S2; exact Hms).
  cbn [mbind result_bind]. do 4 generate.
  eexists. split; [reflexivity|].
  cbn [m_loadedTextures m_objectMaterials m_basicMeshes set_meshes set_shader].
  split; [exact Hcount|].
  split; [rewrite DefineObjectMaterials_appends; now rewrite S3|].
  now rewrite <- !app_assoc.
Qed.

(** X15.  With a null shader-manager pointer scene preparation loads the textures
    and defines the materials, and then dereferences the pointer in
    [SetupSceneLights], which has no guard. *)
Theorem PrepareScene_null_shader_manager (st : state) :
  m_pShaderManager st = None ->
  0 <= m_loadedTextures st ->
  m_loadedTextures st + 5 <= Z.of_nat (length (m_textureIDs st)) ->
  PrepareScene st = Fault NullDereference.
Proof.
  intros Hnull Hpos Hroom. unfold PrepareScene.
  destruct (LoadSceneTextures_any st Hpos Hroom)
    as (st1 & -> & (S1 & _) & _).
  cbn [mbind result_bind].
  rewrite SetupSceneLights_null; [reflexivity|].
  cbn. congruence.
Qed.

Lemma LoadSceneTextures_overflow (st : state) :
  scene_loadable st ->
  0 <= m_loadedTextures st ->
  m_loadedTextures st <= Z.of_nat (length (m_textureIDs st)) ->
  Z.of_nat (length (m_textureIDs st)) < m_loadedTextures st + 5 ->
  LoadSceneTextures st = Fault OutOfBounds.
Proof.
  intros (L1 & L2 & L3 & L4 & L5) Hpos Hin Hfull. unfold LoadSceneTextures.
  destruct (decide (m_loadedTextures st < Z.of_nat (length (m_textureIDs st))))
    as [Hlt|Hge]; [|now rewrite CreateGLTexture_out_of_slots by (auto; right; lia)].
  destruct (CreateGLTexture_step "textures/Floor.jpg" "floor" st _ L1 eq_refl)
    as (st1 & E1 & S1 & C1 & A1); [lia|lia|].
  rewrite E1. cbn [mbind result_bind].
  apply (loadable_same_files _ _ _ S1) in L2, L3, L4, L5.
  destruct (decide (m_loadedTextures st1 < Z.of_nat (length (m_textureIDs st1))))
    as [Hlt1|Hge1]; [|now rewrite CreateGLTexture_out_of_slots by (auto; right; lia)].
  destruct (CreateGLTexture_step "textures/Leg.jpg" "leg" st1 _ L2 eq_refl)
    as (st2 & E2 & S2 & C2 & A2); [lia|lia|].
  rewrite E2. cbn [mbind result_bind].
  apply (loadable_same_files _ _ _ S2) in L3, L4, L5.
  destruct (decide (m_loadedTextures st2 < Z.of_nat (length (m_textureIDs st2))))
    as [Hlt2|Hge2]; [|now rewrite CreateGLTexture_out_of_slots by (auto; right; lia)].
  destruct (CreateGLTexture_step "textures/Tabletop.jpg" "tabletop" st2 _ L3 eq_refl)
    as (st3 & E3 & S3 & C3 & A3); [lia|lia|].
  rewrite E3. cbn [mbind result_bind].
  apply (loadable_same_files _ _ _ S3) in L4, L5.
  destruct (decide (m_loadedTextures st3 < Z.of_nat (length (m_textureIDs st3))))
    as [Hlt3|Hge3]; [|now rewrite CreateGLTexture_out_of_slots by (auto; right; lia)].
  destruct (CreateGLTexture_step "textures/Plate.jpg" "plate" st3 _ L4 eq_refl)
    as (st4 & E4 & S4 & C4 & A4); [lia|lia|].
  rewrite E4. cbn [mbind result_bind].
  apply (loadable_same_files _ _ _ S4) in L5.
  rewrite CreateGLTexture_out_of_slots; [reflexivity|exact L5|right; lia].
Qed.

(** X16.  Capacity at the level of the scene: when the five files are all
    supported and fewer than five slots are free, scene preparation writes
    outside the texture array. *)
Theorem PrepareScene_overflow (st : state) :
  scene_loadable st ->
  0 <= m_loadedTextures st ->
  m_loadedTextures st <= Z.of_nat (length (m_textureIDs st)) ->
  Z.of_nat (length (m_textureIDs st)) < m_loadedTextures st + 5 ->
  PrepareScene st = Fault OutOfBounds.
Proof.
  intros Hload Hpos Hin Hfull. unfold PrepareScene.
  now rewrite LoadSceneTextures_overflow.
Qed.

Lemma deref_shader_Ok (f : ShaderManager -> ShaderManager) (st st' : state) :
  deref_shader f st = Ok st' ->
  exists sm : ShaderManager,
    m_pShaderManager st = Some sm /\ st' = set_shader (Some (f sm)) st.
Proof.
  unfold deref_shader. destruct (m_pShaderManager st) as [sm|]; [|discriminate].
  intros H. inversion H. eauto.
Qed.

Lemma SetupSceneLights_Ok (st st' : state) :
  SetupSceneLights st = Ok st' ->
  exists sm' : ShaderManager, st' = set_shader (Some sm') st.
Proof.
  intros H. destruct (m_pShaderManager st) as [sm|] eqn:Hsm.
  - destruct (SetupSceneLights_ok st sm Hsm) as (sm' & Hcall).
    rewrite Hcall in H. inversion H. eauto.
  - rewrite SetupSceneLights_null in H by assumption. discriminate.
Qed.

Lemma load_mesh_Ok (m : mesh) (st st' : state) :
  load_mesh m st = Ok st' ->
  exists ms : ShapeMeshes, st' = set_meshes (Some ms) st.
Proof.
  unfold load_mesh. destruct (m_basicMeshes st) as [ms|]; [|discriminate].
  intros H. inversion H. eauto.
Qed.

Lemma LoadSceneTextures_keeps_registry_ok (st st' : state) :
  registry_ok st -> LoadSceneTextures st = Ok st' -> registry_ok st'.
Proof.
  intros Hok Hcall. unfold LoadSceneTextures in Hcall.
  apply bind_Ok in Hcall as ([b1 st1] & E1 & Hcall).
  apply CreateGLTexture_keeps_registry_ok in E1; [|exact Hok].
  apply bind_Ok in Hcall as ([b2 st2] & E2 & Hcall).
  apply CreateGLTexture_keeps_registry_ok in E2; [|exact E1].
  apply bind_Ok in Hcall as ([b3 st3] & E3 & Hcall).
  apply CreateGLTexture_keeps_registry_ok in E3; [|exact E2].
  apply bind_Ok in Hcall as ([b4 st4] & E4 & Hcall).
  apply CreateGLTexture_keeps_registry_ok in E4; [|exact E3].
  apply bind_Ok in Hcall as ([b5 st5] & E5 & Hcall).
  apply CreateGLTexture_keeps_registry_ok in E5; [|exact E4].
  eapply BindGLTextures_keeps_registry_ok; eassumption.
Qed.

Lemma PrepareScene_keeps_registry_ok (st st' : state) :
  registry_ok st -> PrepareScene st = Ok st' -> registry_ok st'.
Proof.
  intros Hok Hcall. unfold PrepareScene in Hcall.
  apply bind_Ok in Hcall as (st1 & E1 & Hcall).
  apply LoadSceneTextures_keeps_registry_ok in E1; [|exact Hok].
  apply bind_Ok in Hcall as (st2 & E2 & Hcall).
  apply SetupSceneLights_Ok in E2 as (sm' & ->).
  apply bind_Ok in Hcall as (st3 & E3 & Hcall).
  apply load_mesh_Ok in E3 as (ms3 & ->).
  apply bind_Ok in Hcall as (st4 & E4 & Hcall).
  apply load_mesh_Ok in E4 as (ms4 & ->).
  apply bind_Ok in Hcall as (st5 & E5 & Hcall).
  apply load_mesh_Ok in E5 as (ms5 & ->).
  apply bind_Ok in Hcall as (st6 & E6 & Hcall).
  apply load_mesh_Ok in E6 as (ms6 & ->).
  apply load_mesh_Ok in Hcall as (ms7 & ->).
  eapply registry_ok_ext; [| | |exact E1]; reflexivity.
Qed.

(** X4.  The registry invariant: once the counter is non-negative and within
    the array and the registered entries hold pairwise distinct names that
    are in use, every call of [CreateGLTexture], [BindGLTextures],
    [DestroyGLTextures] and [PrepareScene] that returns leaves it so. *)
Theorem registry_ok_preserved (st : state) :
  registry_ok st ->
  (forall (filename tag : string) (b : bool) (st' : state),
     CreateGLTexture filename tag st = Ok (b, st') -> registry_ok st') /\
  (forall st' : state, BindGLTextures st = Ok st' -> registry_ok st') /\
  (forall st' : state, DestroyGLTextures st = Ok st' -> registry_ok st') /\
  (forall st' : state, PrepareScene st = Ok st' -> registry_ok st').
Proof.
  intros Hok. split; [|split; [|split]].
  - intros filename tag b st'. now apply CreateGLTexture_keeps_registry_ok.
  - intros st'. now apply BindGLTextures_keeps_registry_ok.
  - intros st'. now apply DestroyGLTextures_keeps_registry_ok.
  - intros st'. now apply PrepareScene_keeps_registry_ok.
Qed.

(** ** Lookup, characterised *)

Lemma first_match_or_absent (tag : string) (l : list TEXTURE_INFO.t) :
  tag ∉ (TEXTURE_INFO.tag <$> l) \/
  exists (i : nat) (e : TEXTURE_INFO.t), first_match tag l i e.
Proof.
  induction l as [|a l IH].
  - left. cbn. apply not_elem_of_nil.
  - destruct (decide (TEXTURE_INFO.tag a = tag)) as [Ha|Ha].
    + right. exists 0%nat, a. split; [reflexivity|]. split; [exact Ha|].
      intros j e' Hj. lia.
    + destruct IH as [Habsent|(i & e & Hi & Htag & Hfirst)].
      * left. cbn. apply not_elem_of_cons. split; [congruence|exact Habsent].
      * right. exists (S i), e. split; [exact Hi|]. split; [exact Htag|].
        intros [|j] e' Hj He'; cbn in He'.
        -- inversion He'; subst. exact Ha.
        -- eapply Hfirst; [|exact He']. lia.
Qed.

Lemma FindTextureSlot_cases (tag : string) (st : state) :
  within_array st ->
  exists slot : Z,
    FindTextureSlot tag st = Ok slot /\
    (slot = -1 <-> tag ∉ (TEXTURE_INFO.tag <$> registered st)) /\
    (slot <> -1 ->
     0 <= slot < m_loadedTextures st /\
     exists e : TEXTURE_INFO.t,
       first_match tag (registered st) (Z.to_nat slot) e /\
       FindTextureID tag st = Ok (int_of_GLuint (TEXTURE_INFO.ID e))).
Proof.
  intros Hin.
  destruct (first_match_or_absent tag (registered st))
    as [Habsent|(i & e & Hfirst)].
  - exists (-1). split; [now apply FindTextureSlot_absent|].
    split; [tauto|congruence].
  - exists (Z.of_nat i).
    split; [now apply (FindTextureSlot_first tag st i e)|].
    pose proof Hfirst as (Hi & Htag & _).
    split.
    + split; [lia|]. intros Habsent. exfalso. apply Habsent.
      apply list_elem_of_fmap. exists e. split; [now symmetry|].
      eapply list_elem_of_lookup_2, Hi.
    + intros _. apply registered_lookup in Hi as [Hlt _].
      split; [lia|]. exists e. rewrite Nat2Z.id.
      split; [exact Hfirst|]. now apply (FindTextureID_first tag st i e).
Qed.

(** X5.  Both lookups return in every state whose counter is within the array.
    [FindTextureSlot] gives -1 exactly when no registered entry carries
    the tag; any other result is the index, below the counter, of the first
    registered entry carrying it, and [FindTextureID] then gives that
    entry's name. *)
Theorem FindTextureSlot_characterised (tag : string) (st : state) :
  within_array st ->
  exists slot : Z,
    FindTextureSlot tag st = Ok slot /\
    (slot = -1 <-> tag ∉ (TEXTURE_INFO.tag <$> registered st)) /\
    (slot <> -1 ->
     0 <= slot < m_loadedTextures st /\
     exists e : TEXTURE_INFO.t,
       first_match tag (registered st) (Z.to_nat slot) e /\
       FindTextureID tag st = Ok (int_of_GLuint (TEXTURE_INFO.ID e))).
Proof.
  intros Hin.
  destruct (FindTextureSlot_cases tag st Hin) as (slot & H).
  exists slot. exact H.
Qed.

(** ** A counter past the end of the array *)

Lemma texture_at_past (st : state) (i : nat) :
  m_textureIDs st !! i = None -> texture_at st (Z.of_nat i) = Fault OutOfBounds.
Proof.
  intros H. unfold texture_at.
  destruct (Z.ltb_spec (Z.of_nat i) 0) as [|_]; [reflexivity|].
  now rewrite Nat2Z.id, H.
Qed.

Lemma FindTextureSlot_loop_runs_off (tag : string) (st : state)
    (a rounds i : nat) (dflt : Z) :
  (a < rounds)%nat ->
  (forall k : nat, (k < a)%nat ->
     exists e, m_textureIDs st !! (i + k)%nat = Some e /\ TEXTURE_INFO.tag e <> tag) ->
  m_textureIDs st !! (i + a)%nat = None ->
  FindTextureSlot_loop rounds (Z.of_nat i) dflt tag st = Fault OutOfBounds.
Proof.
  revert rounds i. induction a as [|a IH]; intros rounds i Hlt Hmiss Hnone.
  - destruct rounds as [|rounds]; [lia|]. rewrite Nat.add_0_r in Hnone.
    cbn [FindTextureSlot_loop]. now rewrite texture_at_past.
  - destruct rounds as [|rounds]; [lia|].
    destruct (Hmiss 0%nat) as (e & He & Hne); [lia|].
    rewrite Nat.add_0_r in He. cbn [FindTextureSlot_loop].
    rewrite (texture_at_lookup _ _ _ He). cbn [mbind result_bind].
    apply String.eqb_neq in Hne. rewrite Hne.
    replace (Z.of_nat i + 1) with (Z.of_nat (S i)) by lia.
    apply IH; [lia| |].
    + intros k Hk. destruct (Hmiss (S k)) as (e' & He' & Hne'); [lia|].
      exists e'. split; [|assumption].
      now replace (S i + k)%nat with (i + S k)%nat by lia.
    + now replace (S i + a)%nat with (i + S a)%nat by lia.
Qed.

Lemma FindTextureID_loop_runs_off (tag : string) (st : state)
    (a rounds i : nat) (dflt : Z) :
  (a < rounds)%nat ->
  (forall k : nat, (k < a)%nat ->
     exists e, m_textureIDs st !! (i + k)%nat = Some e /\ TEXTURE_INFO.tag e <> tag) ->
  m_textureIDs st !! (i + a)%nat = None ->
  FindTextureID_loop rounds (Z.of_nat i) dflt tag st = Fault OutOfBounds.
Proof.
  revert rounds i. induction a as [|a IH]; intros rounds i Hlt Hmiss Hnone.
  - destruct rounds as [|rounds]; [lia|]. rewrite Nat.add_0_r in Hnone.
    cbn [FindTextureID_loop]. now rewrite texture_at_past.
  - destruct rounds as [|rounds]; [lia|].
    destruct (Hmiss 0%nat) as (e & He & Hne); [lia|].
    rewrite Nat.add_0_r in He. cbn [FindTextureID_loop].
    rewrite (texture_at_lookup _ _ _ He). cbn [mbind result_bind].
    apply String.eqb_neq in Hne. rewrite Hne.
    replace (Z.of_nat i + 1) with (Z.of_nat (S i)) by lia.
    apply IH; [lia| |].
    + intros k Hk. destruct (Hmiss (S k)) as (e' & He' & Hne'); [lia|].
      exists e'. split; [|assumption].
      now replace (S i + k)%nat with (i + S k)%nat by lia.
    + now replace (S i + a)%nat with (i + S a)%nat by lia.
Qed.

Lemma for_loop_app (body : Z -> state -> result state) (a b : nat) (i : Z)
    (st : state) :
  for_loop (a + b) i body st
    = for_loop a i body st ≫= for_loop b (i + Z.of_nat a) body.
Proof.
  revert i st. induction a as [|a IH]; intros i st.
  - cbn. f_equal. lia.
  - cbn [Nat.add for_loop]. destruct (body i st) as [st1|f]; [|reflexivity].
    cbn [mbind result_bind]. rewrite IH. do 2 f_equal. lia.
Qed.

Lemma BindGLTextures_body_past (i : nat) (st : state) :
  m_textureIDs st !! i = None ->
  BindGLTextures_body (Z.of_nat i) st = Fault OutOfBounds.
Proof.
  intros H. unfold BindGLTextures_body. cbn zeta.
  now rewrite texture_at_past.
Qed.

(** X6.  Nothing checks the counter against the size of the array: when the
    counter exceeds it, [BindGLTextures] reads outside the array, and so do
    both lookups for a tag that no slot of the array carries. *)
Theorem counter_past_array (tag : string) (st : state) :
  Z.of_nat (length (m_textureIDs st)) < m_loadedTextures st ->
  BindGLTextures st = Fault OutOfBounds /\
  (tag ∉ (TEXTURE_INFO.tag <$> m_textureIDs st) ->
   FindTextureSlot tag st = Fault OutOfBounds /\
   FindTextureID tag st = Fault OutOfBounds).
Proof.
  intros Hpast. split.
  - unfold BindGLTextures.
    replace (Z.to_nat (m_loadedTextures st))
      with (length (m_textureIDs st)
            + S (Z.to_nat (m_loadedTextures st) - S (length (m_textureIDs st))))%nat
      by lia.
    rewrite for_loop_app.
    destruct (BindGLTextures_loop (length (m_textureIDs st)) 0 st)
      as (st1 & Hloop & (_ & _ & Ha & _) & _); [lia|].
    change (Z.of_nat 0) with 0 in Hloop. rewrite Hloop.
    cbn [mbind result_bind for_loop].
    rewrite Z.add_0_l, BindGLTextures_body_past; [reflexivity|].
    rewrite Ha. now apply lookup_ge_None_2.
  - intros Habsent.
    assert (Hmiss : forall k : nat, (k < length (m_textureIDs st))%nat ->
              exists e, m_textureIDs st !! (0 + k)%nat = Some e /\
                        TEXTURE_INFO.tag e <> tag).
    { intros k Hk. destruct (lookup_lt_is_Some_2 _ _ Hk) as [e He].
      exists e. split; [exact He|]. intros Heq. apply Habsent.
      apply list_elem_of_fmap. exists e. split; [now symmetry|].
      eapply list_elem_of_lookup_2, He. }
    split.
    + apply (FindTextureSlot_loop_runs_off tag st (length (m_textureIDs st)) _ 0%nat);
        [lia|exact Hmiss|now apply lookup_ge_None_2].
    + apply (FindTextureID_loop_runs_off tag st (length (m_textureIDs st)) _ 0%nat);
        [lia|exact Hmiss|now apply lookup_ge_None_2].
Qed.

(** ** Binding, sampling and loading together *)


(** X7.  From loading to sampling: once [BindGLTextures] has run,
    [SetShaderTexture] on a registered tag turns texture sampling on and
    uploads as sampler the index of the first entry carrying the tag, and
    the texture unit with that index is bound to that entry's texture. *)
Theorem SetShaderTexture_after_BindGLTextures (tag : string) (st : state)
    (sm : ShaderManager) (i : nat) (e : TEXTURE_INFO.t) :
  m_pShaderManager st = Some sm ->
  within_array st ->
  first_match tag (registered st) i e ->
  exists (st1 st2 : state) (sm' : ShaderManager),
    BindGLTextures st = Ok st1 /\
    SetShaderTexture tag st1 = Ok st2 /\
    m_pShaderManager st2 = Some sm' /\
    sm' !! g_UseTextureName = Some (UInt 1) /\
    sm' !! g_TextureValueName = Some (USampler2D (Z.of_nat i)) /\
    gl_binding_2d (gl st2) !! Z.of_nat i = Some (TEXTURE_INFO.ID e).
Proof.
  intros Hsm Hin Hfirst.
  destruct (BindGLTextures_ok st Hin) as (st1 & Hbind & Hsame & _ & Hbound).
  pose proof (registered_same_context _ _ Hsame) as Hreg.
  pose proof Hsame as ((Hsm1 & _) & Hn & Ha & _).
  assert (Hin1 : within_array st1).
  { unfold within_array in *. now rewrite Hn, Ha. }
  rewrite <- Hreg in Hfirst.
  exists st1. eexists. eexists. split; [exact Hbind|].
  split; [|split; [|split; [|split]]].
  - unfold SetShaderTexture. rewrite Hsm1, Hsm.
    rewrite (FindTextureSlot_first tag st1 i e Hin1 Hfirst). reflexivity.
  - reflexivity.
  - unfold setSampler2DValue, setIntValue.
    rewrite lookup_insert_ne by discriminate. apply lookup_insert_eq.
  - apply lookup_insert_eq.
  - cbn [gl set_shader]. apply Hbound. rewrite <- Hreg. apply Hfirst.
Qed.

Lemma BindGLTextures_loop_active (trips i0 : nat) (st st' : state) :
  for_loop (S trips) (Z.of_nat i0) BindGLTextures_body st = Ok st' ->
  gl_active (gl st') = GL_TEXTURE0 + Z.of_nat (i0 + trips).
Proof.
  revert i0 st. induction trips as [|trips IH]; intros i0 st Hloop.
  - cbn [for_loop] in Hloop. apply bind_Ok in Hloop as (st1 & Hbody & Hret).
    inversion Hret; subst st1. unfold BindGLTextures_body in Hbody.
    cbn zeta in Hbody. apply bind_Ok in Hbody as (e & _ & Hret').
    inversion Hret'; subst st'. cbn. f_equal. lia.
  - rewrite (for_loop_app _ 1 (S trips)) in Hloop.
    apply bind_Ok in Hloop as (st1 & _ & Hloop).
    replace (Z.of_nat i0 + Z.of_nat 1) with (Z.of_nat (S i0)) in Hloop by lia.
    apply IH in Hloop. rewrite Hloop. f_equal. lia.
Qed.

(** X8.  Loading after binding.  [CreateGLTexture] binds and unbinds on the
    active texture unit, which [BindGLTextures] leaves at the unit of the
    last registered texture: a successful load made after [BindGLTextures]
    leaves that unit with no texture bound. *)
Theorem CreateGLTexture_after_BindGLTextures (filename tag : string) (st : state)
    (e : TEXTURE_INFO.t) :
  1 <= m_loadedTextures st ->
  m_loadedTextures st < Z.of_nat (length (m_textureIDs st)) ->
  loadable filename st ->
  registered st !! Z.to_nat (m_loadedTextures st - 1) = Some e ->
  exists st1 st2 : state,
    BindGLTextures st = Ok st1 /\
    gl_binding_2d (gl st1) !! (m_loadedTextures st - 1) = Some (TEXTURE_INFO.ID e) /\
    CreateGLTexture filename tag st1 = Ok (true, st2) /\
    gl_binding_2d (gl st2) !! (m_loadedTextures st - 1) = Some 0.
Proof.
  intros Hone Hroom (image & Hfile & Hch) He.
  assert (Hin : within_array st) by (unfold within_array; lia).
  destruct (BindGLTextures_ok st Hin) as (st1 & Hbind & Hsame & _ & Hbound).
  pose proof Hsame as ((_ & _ & _ & Hfiles) & Hn & Ha & _).
  assert (Hactive : active_unit (gl st1) = m_loadedTextures st - 1).
  { unfold BindGLTextures in Hbind.
    replace (Z.to_nat (m_loadedTextures st))
      with (S (Z.to_nat (m_loadedTextures st - 1))) in Hbind by lia.
    apply (BindGLTextures_loop_active _ 0 st st1) in Hbind.
    unfold active_unit. rewrite Hbind. lia. }
  destruct (CreateGLTexture_context filename tag image st1)
    as (st2 & o & Hcall & _ & _ & _ & Hunbound & _);
    [now rewrite Hfiles|exact Hch|lia|rewrite Hn, Ha; lia|].
  exists st1, st2. split; [exact Hbind|]. split.
  - specialize (Hbound _ _ He). rewrite Z2Nat.id in Hbound by lia. exact Hbound.
  - split; [exact Hcall|]. now rewrite <- Hactive.
Qed.

(** ** DestroyGLTextures in general *)

Lemma DestroyGLTextures_body_ok (i : nat) (st : state) (e : TEXTURE_INFO.t) :
  m_textureIDs st !! i = Some e ->
  DestroyGLTextures_body (Z.of_nat i) st
    = Ok (set_textureIDs
            (<[i := TEXTURE_INFO.mk (fresh_name (gl_names (gl st))) (TEXTURE_INFO.tag e)]>
               (m_textureIDs st))
            (set_gl (snd (glGenTextures (gl st))) st)).
Proof.
  intros He. unfold DestroyGLTextures_body. cbn [glGenTextures snd].
  rewrite (texture_update_ok _ _ _ e) by (cbn; rewrite ?Nat2Z.id; auto; lia).
  now rewrite Nat2Z.id.
Qed.

Lemma DestroyGLTextures_loop (trips i0 : nat) (st : state) :
  (i0 + trips <= length (m_textureIDs st))%nat ->
  exists st' : state,
    for_loop trips (Z.of_nat i0) DestroyGLTextures_body st = Ok st' /\
    same_but_textures st st' /\
    m_loadedTextures st' = m_loadedTextures st /\
    TEXTURE_INFO.tag <$> m_textureIDs st' = TEXTURE_INFO.tag <$> m_textureIDs st /\
    length (gl_names (gl st')) = (length (gl_names (gl st)) + trips)%nat /\
    gl_binding_2d (gl st') = gl_binding_2d (gl st) /\
    gl_objects (gl st') = gl_objects (gl st).
Proof.
  revert i0 st. induction trips as [|trips IH]; intros i0 st Hlen.
  - exists st. split; [reflexivity|]. split; [apply same_but_textures_refl|].
    repeat split; try reflexivity. lia.
  - destruct (lookup_lt_is_Some_2 (m_textureIDs st) i0) as [e He]; [lia|].
    cbn [for_loop]. rewrite (DestroyGLTextures_body_ok i0 st e He).
    cbn [mbind result_bind].
    set (st1 := set_textureIDs _ _).
    replace (Z.of_nat i0 + 1) with (Z.of_nat (S i0)) by lia.
    destruct (IH (S i0) st1)
      as (st' & Hloop & Hsame & Hn & Htags & Hnames & Hbind & Hobj).
    { subst st1. cbn. rewrite length_insert. lia. }
    exists st'. split; [exact Hloop|].
    split; [eapply same_but_textures_trans; [|exact Hsame]; repeat split|].
    split; [rewrite Hn; reflexivity|]. split.
    + rewrite Htags. subst st1. cbn [m_textureIDs set_textureIDs set_gl].
      rewrite list_fmap_insert. cbn [TEXTURE_INFO.tag].
      apply list_insert_id. now rewrite list_lookup_fmap, He.
    + rewrite Hnames, Hbind, Hobj. subst st1. cbn. repeat split. lia.
Qed.

(** X9.  [DestroyGLTextures] in any state whose counter is within the array: it
    returns, it keeps the counter and every tag, so that each tag resolves to
    the slot it resolved to, it keeps every texture name in use, and it
    takes one more name into use for each registered entry; bindings and
    texture objects are as before. *)
Theorem DestroyGLTextures_effect (st : state) :
  within_array st ->
  exists st' : state,
    DestroyGLTextures st = Ok st' /\
    m_loadedTextures st' = m_loadedTextures st /\
    TEXTURE_INFO.tag <$> registered st' = TEXTURE_INFO.tag <$> registered st /\
    (forall id : Z, id ∈ gl_names (gl st) -> id ∈ gl_names (gl st')) /\
    length (gl_names (gl st'))
      = (length (gl_names (gl st)) + Z.to_nat (m_loadedTextures st))%nat /\
    gl_binding_2d (gl st') = gl_binding_2d (gl st) /\
    gl_objects (gl st') = gl_objects (gl st).
Proof.
  intros Hin. unfold within_array in Hin.
  destruct (DestroyGLTextures_loop (Z.to_nat (m_loadedTextures st)) 0 st)
    as (st' & Hloop & _ & Hn & Htags & Hnames & Hbind & Hobj); [lia|].
  exists st'. split; [exact Hloop|]. split; [exact Hn|].
  split; [|split; [|split; [exact Hnames|split; assumption]]].
  - unfold registered. now rewrite Hn, !fmap_take, Htags.
  - intros id. now apply DestroyGLTextures_keeps_names.
Qed.

(** ** Material lookup on a match *)

Lemma FindMaterial_loop_hit (tag : string) (material m : OBJECT_MATERIAL.t)
    (mats : list OBJECT_MATERIAL.t) (k rounds index : nat) :
  (k < rounds)%nat ->
  mats !! (index + k)%nat = Some m -> OBJECT_MATERIAL.tag m = tag ->
  (forall (j : nat) (m' : OBJECT_MATERIAL.t),
     (j < k)%nat -> mats !! (index + j)%nat = Some m' ->
     OBJECT_MATERIAL.tag m' <> tag) ->
  FindMaterial_loop rounds index tag material mats = (true, copy_material m material).
Proof.
  revert rounds index. induction k as [|k IH]; intros rounds index Hlt Hm Htag Hbefore.
  - destruct rounds as [|rounds]; [lia|]. rewrite Nat.add_0_r in Hm.
    cbn [FindMaterial_loop]. rewrite Hm.
    apply String.eqb_eq in Htag. now rewrite Htag.
  - destruct rounds as [|rounds]; [lia|]. cbn [FindMaterial_loop].
    destruct (mats !! index) as [m0|] eqn:E0.
    + assert (Hne : OBJECT_MATERIAL.tag m0 <> tag).
      { apply (Hbefore 0%nat); [lia|now rewrite Nat.add_0_r]. }
      apply String.eqb_neq in Hne. rewrite Hne.
      apply IH; [lia| |exact Htag|].
      * now replace (S index + k)%nat with (index + S k)%nat by lia.
      * intros j m' Hj Hm'. apply (Hbefore (S j)); [lia|].
        now replace (index + S j)%nat with (S index + j)%nat by lia.
    + apply lookup_ge_None_1 in E0. apply lookup_lt_Some in Hm. lia.
Qed.

Lemma FindMaterial_first (tag : string) (material m : OBJECT_MATERIAL.t)
    (st : state) (i : nat) :
  first_material tag (m_objectMaterials st) i m ->
  FindMaterial tag material st = (true, copy_material m material).
Proof.
  intros (Hi & Htag & Hfirst). unfold FindMaterial.
  pose proof (lookup_lt_Some _ _ _ Hi) as Hlt.
  destruct (Nat.eqb_spec (length (m_objectMaterials st)) 0) as [H0|_]; [lia|].
  rewrite (FindMaterial_loop_hit tag material m _ i); auto.
Qed.

Lemma first_material_or_absent (tag : string) (l : list OBJECT_MATERIAL.t) :
  tag ∉ (OBJECT_MATERIAL.tag <$> l) \/
  exists (i : nat) (m : OBJECT_MATERIAL.t), first_material tag l i m.
Proof.
  induction l as [|a l IH].
  - left. cbn. apply not_elem_of_nil.
  - destruct (decide (OBJECT_MATERIAL.tag a = tag)) as [Ha|Ha].
    + right. exists 0%nat, a. split; [reflexivity|]. split; [exact Ha|].
      intros j m' Hj. lia.
    + destruct IH as [Habsent|(i & m & Hi & Htag & Hfirst)].
      * left. cbn. apply not_elem_of_cons. split; [congruence|exact Habsent].
      * right. exists (S i), m. split; [exact Hi|]. split; [exact Htag|].
        intros [|j] m' Hj Hm'; cbn in Hm'.
        -- inversion Hm'; subst. exact Ha.
        -- eapply Hfirst; [|exact Hm']. lia.
Qed.

Lemma first_material_app (tag : string) (l k : list OBJECT_MATERIAL.t) (i : nat)
    (m : OBJECT_MATERIAL.t) :
  first_material tag l i m -> first_material tag (l ++ k) i m.
Proof.
  intros (Hi & Htag & Hfirst).
  pose proof (lookup_lt_Some _ _ _ Hi) as Hlt.
  split; [now apply lookup_app_l_Some|]. split; [exact Htag|].
  intros j m' Hj Hm'. rewrite lookup_app_l in Hm' by lia. eauto.
Qed.

(** X10.  [FindMaterial] in full.  It returns [false] only for the empty
    registry.  On a registry holding the tag it copies the diffuse colour,
    the specular colour and the shininess of the first entry carrying the tag
    into the caller's object and leaves that object's tag alone; on a
    non-empty registry not holding the tag it returns [true] with the
    caller's object untouched. *)
Theorem FindMaterial_characterised (tag : string) (material : OBJECT_MATERIAL.t)
    (st : state) :
  (m_objectMaterials st = [] -> FindMaterial tag material st = (false, material)) /\
  (forall (i : nat) (m : OBJECT_MATERIAL.t),
     first_material tag (m_objectMaterials st) i m ->
     FindMaterial tag material st
       = (true,
          OBJECT_MATERIAL.mk (OBJECT_MATERIAL.diffuseColor m)
            (OBJECT_MATERIAL.specularColor m) (OBJECT_MATERIAL.shininess m)
            (OBJECT_MATERIAL.tag material))) /\
  (m_objectMaterials st <> [] ->
   tag ∉ (OBJECT_MATERIAL.tag <$> m_objectMaterials st) ->
   FindMaterial tag material st = (true, material)).
Proof.
  split; [apply FindMaterial_empty|]. split.
  - intros i m Hfirst. now rewrite (FindMaterial_first tag material m st i).
  - intros Hne Habsent. unfold FindMaterial.
    destruct (m_objectMaterials st) as [|m0 ms] eqn:E; [congruence|].
    cbn [length Nat.eqb].
    now rewrite (FindMaterial_loop_miss _ _ _ _ _ Habsent).
Qed.

(** X11.  Appending to the material registry.  A material pushed under a tag the
    registry does not hold is found under that tag; a material pushed under a
    tag the registry already holds is never returned, and no lookup of a tag
    held before changes. *)
Theorem push_back_then_FindMaterial (m material : OBJECT_MATERIAL.t) (st : state) :
  (OBJECT_MATERIAL.tag m ∉ (OBJECT_MATERIAL.tag <$> m_objectMaterials st) ->
   FindMaterial (OBJECT_MATERIAL.tag m) material (push_back m st)
     = (true, copy_material m material)) /\
  (forall tag : string,
     tag ∈ (OBJECT_MATERIAL.tag <$> m_objectMaterials st) ->
     FindMaterial tag material (push_back m st) = FindMaterial tag material st).
Proof.
  split.
  - intros Hfresh.
    apply (FindMaterial_first _ _ _ _ (length (m_objectMaterials st))).
    unfold push_back. cbn [m_objectMaterials set_objectMaterials].
    split; [|split; [reflexivity|]].
    + rewrite lookup_app_r by lia. now rewrite Nat.sub_diag.
    + intros j m' Hj Hm' Heq. rewrite lookup_app_l in Hm' by lia.
      apply Hfresh. apply list_elem_of_fmap. exists m'. split; [now symmetry|].
      eapply list_elem_of_lookup_2, Hm'.
  - intros tag Hheld.
    destruct (first_material_or_absent tag (m_objectMaterials st))
      as [Habsent|(i & m0 & Hfirst)]; [contradiction|].
    rewrite (FindMaterial_first tag material m0 st i Hfirst).
    apply (FindMaterial_first tag material m0 _ i).
    unfold push_back. cbn [m_objectMaterials set_objectMaterials].
    now apply first_material_app.
Qed.

(** ** Entries behind an earlier entry with the same tag *)

Lemma first_match_app (tag : string) (l k : list TEXTURE_INFO.t) (i : nat)
    (e : TEXTURE_INFO.t) :
  first_match tag l i e -> first_match tag (l ++ k) i e.
Proof.
  intros (Hi & Htag & Hfirst).
  pose proof (lookup_lt_Some _ _ _ Hi) as Hlt.
  split; [now apply lookup_app_l_Some|]. split; [exact Htag|].
  intros j e' Hj He'. rewrite lookup_app_l in He' by lia. eauto.
Qed.

Lemma first_match_held (tag : string) (l : list TEXTURE_INFO.t) :
  tag ∈ (TEXTURE_INFO.tag <$> l) ->
  exists (i : nat) (e : TEXTURE_INFO.t), first_match tag l i e.
Proof.
  intros Hheld. destruct (first_match_or_absent tag l) as [Habsent|H];
    [contradiction|exact H].
Qed.

(** Lookups of a tag already registered are not changed by entries
    registered later. *)
Lemma FindTexture_extended (tag : string) (st st' : state)
    (extra : list TEXTURE_INFO.t) :
  within_array st -> within_array st' ->
  registered st' = registered st ++ extra ->
  tag ∈ (TEXTURE_INFO.tag <$> registered st) ->
  FindTextureSlot tag st' = FindTextureSlot tag st /\
  FindTextureID tag st' = FindTextureID tag st.
Proof.
  intros Hin Hin' Hreg Hheld.
  destruct (first_match_held tag _ Hheld) as (i & e & Hfirst).
  pose proof (first_match_app tag _ extra i e Hfirst) as Hfirst'.
  rewrite <- Hreg in Hfirst'. split.
  - rewrite (FindTextureSlot_first tag st i e Hin Hfirst).
    apply (FindTextureSlot_first tag st' i e Hin' Hfirst').
  - rewrite (FindTextureID_first tag st i e Hin Hfirst).
    apply (FindTextureID_first tag st' i e Hin' Hfirst').
Qed.

Lemma FindMaterial_extended (tag : string) (material : OBJECT_MATERIAL.t)
    (st st' : state) (extra : list OBJECT_MATERIAL.t) :
  m_objectMaterials st' = m_objectMaterials st ++ extra ->
  tag ∈ (OBJECT_MATERIAL.tag <$> m_objectMaterials st) ->
  FindMaterial tag material st' = FindMaterial tag material st.
Proof.
  intros Hmats Hheld.
  destruct (first_material_or_absent tag (m_objectMaterials st))
    as [Habsent|(i & m & Hfirst)]; [contradiction|].
  rewrite (FindMaterial_first tag material m st i Hfirst).
  apply (FindMaterial_first tag material m st' i).
  rewrite Hmats. now apply first_material_app.
Qed.

(** X17.  A repeated [PrepareScene] adds entries that no lookup reaches: with
    both pointers set and five free slots the call completes, and every
    texture tag and every material tag registered before it resolves exactly
    as it did before. *)
Theorem PrepareScene_keeps_earlier_lookups (st : state) (sm : ShaderManager)
    (ms : ShapeMeshes) :
  m_pShaderManager st = Some sm ->
  m_basicMeshes st = Some ms ->
  0 <= m_loadedTextures st ->
  m_loadedTextures st + 5 <= Z.of_nat (length (m_textureIDs st)) ->
  exists st' : state,
    PrepareScene st = Ok st' /\
    (forall tag : string,
       tag ∈ (TEXTURE_INFO.tag <$> registered st) ->
       FindTextureSlot tag st' = FindTextureSlot tag st /\
       FindTextureID tag st' = FindTextureID tag st) /\
    (forall (tag : string) (material : OBJECT_MATERIAL.t),
       tag ∈ (OBJECT_MATERIAL.tag <$> m_objectMaterials st) ->
       FindMaterial tag material st' = FindMaterial tag material st).
Proof.
  intros Hsm Hms Hpos Hroom. unfold PrepareScene.
  destruct (LoadSceneTextures_any st Hpos Hroom)
    as (st1 & -> & (S1 & S2 & S3 & S4) & Hlen & Hcount & (extra & Hreg)).
  cbn [mbind result_bind].
  destruct (SetupSceneLights_ok (DefineObjectMaterials st1) sm) as (sm' & ->).
  { cbn. congruence. }
  cbn [mbind result_bind].
  erewrite load_mesh_Some by (cbn; rewrite S2; exact Hms).
  cbn [mbind result_bind]. do 4 generate.
  eexists. split; [reflexivity|].
  pose proof (b2z_range (supported "textures/Floor.jpg" st)) as R1.
  pose proof (b2z_range (supported "textures/Leg.jpg" st)) as R2.
  pose proof (b2z_range (supported "textures/Tabletop.jpg" st)) as R3.
  pose proof (b2z_range (supported "textures/Plate.jpg" st)) as R4.
  pose proof (b2z_range (supported "textures/Mug.jpg" st)) as R5.
  unfold supported_scene_files in Hcount.
  split.
  - intros tag Hheld.
    apply (FindTexture_extended tag st _ extra); [| | |exact Hheld].
    + unfold within_array. lia.
    + unfold within_array. cbn. lia.
    + exact Hreg.
  - intros tag material Hheld.
    eapply FindMaterial_extended; [|exact Hheld].
    cbn [m_objectMaterials set_meshes set_shader].
    rewrite DefineObjectMaterials_appends. now rewrite S3.
Qed.

(** ** The shader-state binder on a match *)

Lemma SetShaderMaterial_Some (materialTag : string)
    (indeterminate : OBJECT_MATERIAL.t) (st : state) (sm : ShaderManager) :
  m_pShaderManager st = Some sm ->
  exists sm' : ShaderManager,
    SetShaderMaterial materialTag indeterminate st = Ok (set_shader (Some sm') st) /\
    forall name : string,
      name <> "material.diffuseColor" -> name <> "material.specularColor" ->
      name <> "material.shininess" -> sm' !! name = sm !! name.
Proof.
  intros Hsm.
  assert (Hsame : set_shader (Some sm) st = st).
  { destruct st; cbn in *. now subst. }
  unfold SetShaderMaterial.
  destruct (0 <? length (m_objectMaterials st))%nat.
  - destruct (FindMaterial materialTag indeterminate st) as [[] material].
    + unfold deref_shader. rewrite Hsm. cbn [mbind result_bind m_pShaderManager set_shader].
      eexists. split; [reflexivity|].
      intros name H1 H2 H3. unfold setFloatValue, setVec3Value.
      now rewrite !lookup_insert_ne by congruence.
    + exists sm. now rewrite Hsame.
  - exists sm. now rewrite Hsame.
Qed.

(** X12.  The upload made for a tag the registry holds: the diffuse colour, the
    specular colour and the shininess of the first entry carrying the tag,
    whatever the uninitialised local held, and no other uniform. *)
Theorem SetShaderMaterial_uploads_first_match (materialTag : string)
    (indeterminate : OBJECT_MATERIAL.t) (st : state) (sm : ShaderManager)
    (i : nat) (m : OBJECT_MATERIAL.t) :
  m_pShaderManager st = Some sm ->
  first_material materialTag (m_objectMaterials st) i m ->
  exists sm' : ShaderManager,
    SetShaderMaterial materialTag indeterminate st = Ok (set_shader (Some sm') st) /\
    sm' !! "material.diffuseColor" = Some (UVec3 (OBJECT_MATERIAL.diffuseColor m)) /\
    sm' !! "material.specularColor" = Some (UVec3 (OBJECT_MATERIAL.specularColor m)) /\
    sm' !! "material.shininess" = Some (UFloat (OBJECT_MATERIAL.shininess m)) /\
    forall name : string,
      name <> "material.diffuseColor" -> name <> "material.specularColor" ->
      name <> "material.shininess" -> sm' !! name = sm !! name.
Proof.
  intros Hsm Hfirst. pose proof Hfirst as (Hi & _).
  pose proof (lookup_lt_Some _ _ _ Hi) as Hlt.
  unfold SetShaderMaterial.
  destruct (Nat.ltb_spec 0 (length (m_objectMaterials st))) as [_|Hle]; [|lia].
  rewrite (FindMaterial_first materialTag indeterminate m st i Hfirst).
  unfold deref_shader. rewrite Hsm. cbn [mbind result_bind m_pShaderManager set_shader].
  eexists. split; [reflexivity|].
  unfold setFloatValue, setVec3Value, copy_material.
  cbn [OBJECT_MATERIAL.diffuseColor OBJECT_MATERIAL.specularColor
       OBJECT_MATERIAL.shininess].
  split; [|split; [|split]].
  - rewrite !lookup_insert_ne by discriminate. apply lookup_insert_eq.
  - rewrite lookup_insert_ne by discriminate. apply lookup_insert_eq.
  - apply lookup_insert_eq.
  - intros name H1 H2 H3. now rewrite !lookup_insert_ne by congruence.
Qed.

Lemma texture_at_ext (st st' : state) (i : Z) :
  m_textureIDs st' = m_textureIDs st -> texture_at st' i = texture_at st i.
Proof. intros H. unfold texture_at. now rewrite H. Qed.

(** The lookups read the counter and the array only. *)
Lemma FindTextureSlot_ext (tag : string) (st' st : state) :
  m_loadedTextures st' = m_loadedTextures st ->
  m_textureIDs st' = m_textureIDs st ->
  FindTextureSlot tag st' = FindTextureSlot tag st.
Proof.
  intros Hn Ha. unfold FindTextureSlot. rewrite Hn.
  generalize (Z.to_nat (m_loadedTextures st)) as rounds.
  generalize 0 as index.
  intros index rounds. revert index.
  induction rounds as [|rounds IH]; intros index; [reflexivity|].
  cbn [FindTextureSlot_loop]. rewrite (texture_at_ext st st') by exact Ha.
  destruct (texture_at st index) as [e|]; [|reflexivity].
  cbn [mbind result_bind]. destruct (String.eqb _ _); [reflexivity|apply IH].
Qed.

(** X13.  Flat colour and texture exclude each other, and the later call
    decides: [SetShaderColor] always turns texture sampling off,
    [SetShaderTexture] always turns it on, and neither removes the value the
    other uploaded. *)
Theorem SetShaderColor_SetShaderTexture_last_wins (r g b a : R)
    (textureTag : string) (st : state) (sm : ShaderManager) :
  m_pShaderManager st = Some sm ->
  within_array st ->
  exists (slot : Z) (st1 st2 : state) (sm1 sm2 : ShaderManager),
    FindTextureSlot textureTag st = Ok slot /\
    SetShaderTexture textureTag (SetShaderColor r g b a st) = Ok st1 /\
    m_pShaderManager st1 = Some sm1 /\
    sm1 !! g_UseTextureName = Some (UInt 1) /\
    sm1 !! g_ColorValueName = Some (UVec4 (glm.mkvec4 r g b a)) /\
    sm1 !! g_TextureValueName = Some (USampler2D slot) /\
    SetShaderTexture textureTag st = Ok st2 /\
    m_pShaderManager (SetShaderColor r g b a st2) = Some sm2 /\
    sm2 !! g_UseTextureName = Some (UInt 0) /\
    sm2 !! g_ColorValueName = Some (UVec4 (glm.mkvec4 r g b a)) /\
    sm2 !! g_TextureValueName = Some (USampler2D slot).
Proof.
  intros Hsm Hin.
  destruct (FindTextureSlot_cases textureTag st Hin) as (slot & Hslot & _).
  set (color := glm.mkvec4 r g b a).
  assert (Hcolor : SetShaderColor r g b a st
                   = set_shader (Some (setVec4Value g_ColorValueName color
                                         (setIntValue g_UseTextureName 0 sm))) st).
  { unfold SetShaderColor, guarded_shader. now rewrite Hsm. }
  exists slot,
    (set_shader
       (Some (setSampler2DValue g_TextureValueName slot
                (setIntValue g_UseTextureName 1
                   (setVec4Value g_ColorValueName color
                      (setIntValue g_UseTextureName 0 sm))))) st),
    (set_shader
       (Some (setSampler2DValue g_TextureValueName slot
                (setIntValue g_UseTextureName 1 sm))) st),
    (setSampler2DValue g_TextureValueName slot
       (setIntValue g_UseTextureName 1
          (setVec4Value g_ColorValueName color
             (setIntValue g_UseTextureName 0 sm)))),
    (setVec4Value g_ColorValueName color
       (setIntValue g_UseTextureName 0
          (setSampler2DValue g_TextureValueName slot
             (setIntValue g_UseTextureName 1 sm)))).
  split; [exact Hslot|]. split.
  { rewrite Hcolor. unfold SetShaderTexture.
    cbn [m_pShaderManager set_shader].
    rewrite (FindTextureSlot_ext textureTag _ st) by reflexivity.
    rewrite Hslot. reflexivity. }
  split; [reflexivity|].
  unfold setSampler2DValue, setIntValue, setVec4Value.
  split; [rewrite lookup_insert_ne by discriminate; apply lookup_insert_eq|].
  split; [rewrite !lookup_insert_ne by discriminate; apply lookup_insert_eq|].
  split; [apply lookup_insert_eq|].
  split; [unfold SetShaderTexture; rewrite Hsm, Hslot; reflexivity|].
  split; [reflexivity|].
  split; [rewrite lookup_insert_ne by discriminate; apply lookup_insert_eq|].
  split; [apply lookup_insert_eq|].
  rewrite !lookup_insert_ne by discriminate. apply lookup_insert_eq.
Qed.

(** ** The transform composer, continued *)

Lemma guarded_shader_twice (f g : ShaderManager -> ShaderManager) (st : state) :
  guarded_shader f (guarded_shader g st) = guarded_shader (fun sm => f (g sm)) st.
Proof.
  unfold guarded_shader. destruct (m_pShaderManager st) as [sm|] eqn:E.
  - reflexivity.
  - now rewrite E.
Qed.

Lemma guarded_shader_ext (f g : ShaderManager -> ShaderManager) (st : state) :
  (forall sm : ShaderManager, f sm = g sm) ->
  guarded_shader f st = guarded_shader g st.
Proof.
  intros H. unfold guarded_shader.
  destruct (m_pShaderManager st); [now rewrite H|reflexivity].
Qed.

(** X18.  Transformations do not accumulate: [SetTransformations] replaces the
    model matrix, so a call undoes the effect of the call before it; and it
    touches neither the colour nor the UV scale, so it can be exchanged with
    [SetShaderColor] and with [SetTextureUVScale]. *)
Theorem SetTransformations_replaces (st : state)
    (s1 p1 s2 p2 : glm.vec3) (rx1 ry1 rz1 rx2 ry2 rz2 r g b a u v : R) :
  SetTransformations s2 rx2 ry2 rz2 p2 (SetTransformations s1 rx1 ry1 rz1 p1 st)
    = SetTransformations s2 rx2 ry2 rz2 p2 st /\
  SetTransformations s2 rx2 ry2 rz2 p2 (SetShaderColor r g b a st)
    = SetShaderColor r g b a (SetTransformations s2 rx2 ry2 rz2 p2 st) /\
  SetTransformations s2 rx2 ry2 rz2 p2 (SetTextureUVScale u v st)
    = SetTextureUVScale u v (SetTransformations s2 rx2 ry2 rz2 p2 st).
Proof.
  unfold SetTransformations, SetShaderColor, SetTextureUVScale. cbn zeta.
  rewrite !guarded_shader_twice. split; [|split]; apply guarded_shader_ext; intros sm.
  - unfold setMat4Value. apply insert_insert_eq.
  - unfold setMat4Value, setVec4Value, setIntValue.
    rewrite (insert_insert_ne _ g_ModelName g_ColorValueName) by discriminate.
    f_equal. now rewrite (insert_insert_ne _ g_ModelName g_UseTextureName) by discriminate.
  - unfold setMat4Value, setVec2Value.
    now rewrite (insert_insert_ne _ g_ModelName "UVscale") by discriminate.
Qed.

Section Affine.

Import glm.
Local Open Scope R_scope.














End Affine.


(** ** Rendering *)

Lemma SetShaderTexture_Some (textureTag : string) (st : state) (sm : ShaderManager) :
  m_pShaderManager st = Some sm -> within_array st ->
  exists slot : Z,
    SetShaderTexture textureTag st
      = Ok (set_shader
              (Some (setSampler2DValue g_TextureValueName slot
                       (setIntValue g_UseTextureName 1 sm))) st).
Proof.
  intros Hsm Hin.
  destruct (FindTextureSlot_cases textureTag st Hin) as (slot & Hslot & _).
  exists slot. unfold SetShaderTexture. now rewrite Hsm, Hslot.
Qed.

(** One object, with a shader manager and a mesh library present. *)
Lemma render_object_ok (indeterminate : OBJECT_MATERIAL.t) (o : SceneObject)
    (st : state) (frame : list draw) (sm : ShaderManager) (ms : ShapeMeshes) :
  m_pShaderManager st = Some sm -> m_basicMeshes st = Some ms -> within_array st ->
  exists sm' : ShaderManager,
    render_object indeterminate o st frame
      = Ok (set_shader (Some sm') st, frame ++ [(obj_mesh o, Some sm')]) /\
    (obj_material o = None -> material_uniforms sm' = material_uniforms sm) /\
    (obj_texture o = None -> sm' !! g_UseTextureName = Some (UInt 0)).
Proof.
  intros Hsm Hms Hin. unfold render_object. cbn zeta.
  unfold SetTransformations, SetShaderColor. cbn zeta.
  rewrite guarded_shader_twice. unfold guarded_shader. rewrite Hsm.
  set (model := glm.mul _ _).
  set (sm1 := setVec4Value _ _ _).
  assert (Hmat1 : material_uniforms sm1 = material_uniforms sm).
  { subst sm1. unfold material_uniforms, setVec4Value, setIntValue, setMat4Value.
    now rewrite !lookup_insert_ne by discriminate. }
  assert (Huse1 : sm1 !! g_UseTextureName = Some (UInt 0)).
  { subst sm1. unfold setVec4Value, setIntValue.
    rewrite lookup_insert_ne by discriminate. apply lookup_insert_eq. }
  assert (Htexture : exists sm2 : ShaderManager,
            match obj_texture o with
            | Some textureTag => SetShaderTexture textureTag (set_shader (Some sm1) st)
            | None => Ok (set_shader (Some sm1) st)
            end = Ok (set_shader (Some sm2) st) /\
            material_uniforms sm2 = material_uniforms sm /\
            (obj_texture o = None -> sm2 !! g_UseTextureName = Some (UInt 0))).
  { destruct (obj_texture o) as [textureTag|].
    - destruct (SetShaderTexture_Some textureTag (set_shader (Some sm1) st) sm1)
        as (slot & Hcall); [reflexivity|exact Hin|].
      eexists. split; [exact Hcall|]. split; [|discriminate].
      rewrite <- Hmat1. unfold material_uniforms, setSampler2DValue, setIntValue.
      now rewrite !lookup_insert_ne by discriminate.
    - exists sm1. auto. }
  destruct Htexture as (sm2 & -> & Hmat2 & Huse2). cbn [mbind result_bind].
  assert (Hmaterial : exists sm3 : ShaderManager,
            match obj_material o with
            | Some materialTag =>
                SetShaderMaterial materialTag indeterminate (set_shader (Some sm2) st)
            | None => Ok (set_shader (Some sm2) st)
            end = Ok (set_shader (Some sm3) st) /\
            (obj_material o = None -> material_uniforms sm3 = material_uniforms sm) /\
            (obj_texture o = None -> sm3 !! g_UseTextureName = Some (UInt 0))).
  { destruct (obj_material o) as [materialTag|].
    - destruct (SetShaderMaterial_Some materialTag indeterminate
                  (set_shader (Some sm2) st) sm2) as (sm3 & Hcall & Hframe);
        [reflexivity|].
      exists sm3. split; [exact Hcall|]. split; [discriminate|].
      intros Hnone. rewrite Hframe by discriminate. auto.
    - exists sm2. auto. }
  destruct Hmaterial as (sm3 & -> & Hmat3 & Huse3). cbn [mbind result_bind].
  unfold draw_mesh. cbn [m_basicMeshes m_pShaderManager set_shader]. rewrite Hms.
  exists sm3. auto.
Qed.

Lemma render_objects_ok (indeterminate : nat -> OBJECT_MATERIAL.t)
    (script : list SceneObject) (k : nat) (st : state) (frame : list draw)
    (sm : ShaderManager) (ms : ShapeMeshes) :
  m_pShaderManager st = Some sm -> m_basicMeshes st = Some ms -> within_array st ->
  exists (sm' : ShaderManager) (frame' : list draw),
    render_objects indeterminate k script st frame
      = Ok (set_shader (Some sm') st, frame ++ frame') /\
    fst <$> frame' = obj_mesh <$> script /\
    forall (j : nat) (o : SceneObject),
      script !! j = Some o ->
      exists before after : ShaderManager,
        (Some sm :: (snd <$> frame')) !! j = Some (Some before) /\
        frame' !! j = Some (obj_mesh o, Some after) /\
        (obj_material o = None -> material_uniforms after = material_uniforms before) /\
        (obj_texture o = None -> after !! g_UseTextureName = Some (UInt 0)).
Proof.
  revert k st frame sm.
  induction script as [|o script IH]; intros k st frame sm Hsm Hms Hin.
  - exists sm, []. cbn [render_objects]. rewrite app_nil_r.
    split; [f_equal; f_equal; destruct st; cbn in *; now subst|].
    split; [reflexivity|]. intros j o Hj. now rewrite lookup_nil in Hj.
  - cbn [render_objects].
    destruct (render_object_ok (indeterminate k) o st frame sm ms Hsm Hms Hin)
      as (sm1 & -> & Hmat & Huse).
    cbn [mbind result_bind].
    destruct (IH (S k) (set_shader (Some sm1) st) (frame ++ [(obj_mesh o, Some sm1)])
                sm1 eq_refl Hms Hin)
      as (sm' & frame' & -> & Hmeshes & Hdraws).
    exists sm', ((obj_mesh o, Some sm1) :: frame').
    split; [now rewrite <- app_assoc|].
    split; [cbn; now rewrite Hmeshes|].
    intros [|j] o' Hj; cbn in Hj.
    + inversion Hj; subst o'. exists sm, sm1. auto.
    + destruct (Hdraws j o' Hj) as (before & after & Hb & Ha & H1 & H2).
      exists before, after. auto.
Qed.

(** X20.  A frame with a shader manager and a mesh library present and the
    counter within the array: [RenderScene] returns, it changes nothing but
    the uniform table (registries, context and meshes are as before), and it
    issues one draw per scripted object, of that object's mesh, in script
    order. *)
Theorem RenderScene_completes (indeterminate : nat -> OBJECT_MATERIAL.t)
    (st : state) (sm : ShaderManager) (ms : ShapeMeshes) :
  m_pShaderManager st = Some sm -> m_basicMeshes st = Some ms -> within_array st ->
  exists (sm' : ShaderManager) (frame : list draw),
    RenderScene indeterminate st = Ok (set_shader (Some sm') st, frame) /\
    fst <$> frame = obj_mesh <$> scene_script /\
    length frame = 42%nat.
Proof.
  intros Hsm Hms Hin. unfold RenderScene.
  destruct (render_objects_ok indeterminate scene_script 0 st [] sm ms Hsm Hms Hin)
    as (sm' & frame & Hcall & Hmeshes & _).
  exists sm', frame. split; [exact Hcall|]. split; [exact Hmeshes|].
  apply (f_equal length) in Hmeshes. rewrite !length_fmap in Hmeshes.
  rewrite Hmeshes. reflexivity.
Qed.

(** X21.  Sticky uniforms.  In the frame [RenderScene] issues, an object whose
    group makes no [SetShaderMaterial] call is drawn with the material
    uniforms of the draw before it (of the state on entry, for the first
    object), and an object whose group makes no [SetShaderTexture] call is
    drawn with texture sampling off. *)
Theorem RenderScene_sticky_uniforms (indeterminate : nat -> OBJECT_MATERIAL.t)
    (st : state) (sm : ShaderManager) (ms : ShapeMeshes) :
  m_pShaderManager st = Some sm -> m_basicMeshes st = Some ms -> within_array st ->
  exists (st' : state) (frame : list draw),
    RenderScene indeterminate st = Ok (st', frame) /\
    forall (j : nat) (o : SceneObject),
      scene_script !! j = Some o ->
      exists before after : ShaderManager,
        (Some sm :: (snd <$> frame)) !! j = Some (Some before) /\
        frame !! j = Some (obj_mesh o, Some after) /\
        (obj_material o = None -> material_uniforms after = material_uniforms before) /\
        (obj_texture o = None -> after !! g_UseTextureName = Some (UInt 0)).
Proof.
  intros Hsm Hms Hin. unfold RenderScene.
  destruct (render_objects_ok indeterminate scene_script 0 st [] sm ms Hsm Hms Hin)
    as (sm' & frame & Hcall & _ & Hdraws).
  eexists. exists frame. split; [exact Hcall|exact Hdraws].
Qed.

Lemma render_object_null (indeterminate : OBJECT_MATERIAL.t) (o : SceneObject)
    (st : state) (frame : list draw) (ms : ShapeMeshes) :
  m_pShaderManager st = None -> m_basicMeshes st = Some ms ->
  (m_objectMaterials st = [] ->
   render_object indeterminate o st frame = Ok (st, frame ++ [(obj_mesh o, None)])) /\
  (m_objectMaterials st <> [] -> is_Some (obj_material o) ->
   render_object indeterminate o st frame = Fault NullDereference).
Proof.
  intros Hnull Hms. unfold render_object. cbn zeta.
  unfold SetTransformations, SetShaderColor. cbn zeta.
  rewrite guarded_shader_twice. unfold guarded_shader. rewrite Hnull.
  assert (Htexture : match obj_texture o with
                     | Some textureTag => SetShaderTexture textureTag st
                     | None => Ok st
                     end = Ok st).
  { destruct (obj_texture o); [|reflexivity]. unfold SetShaderTexture.
    now rewrite Hnull. }
  rewrite Htexture. cbn [mbind result_bind]. split.
  - intros Hempty.
    assert (Hmaterial : match obj_material o with
                        | Some materialTag => SetShaderMaterial materialTag indeterminate st
                        | None => Ok st
                        end = Ok st).
    { destruct (obj_material o); [|reflexivity]. unfold SetShaderMaterial.
      now rewrite Hempty. }
    rewrite Hmaterial. cbn [mbind result_bind]. unfold draw_mesh.
    now rewrite Hms, Hnull.
  - intros Hne [materialTag ->].
    rewrite SetShaderMaterial_null; [reflexivity|assumption|assumption|].
    now apply FindMaterial_nonempty.
Qed.

Lemma render_objects_null (indeterminate : nat -> OBJECT_MATERIAL.t)
    (script : list SceneObject) (k : nat) (st : state) (frame : list draw)
    (ms : ShapeMeshes) :
  m_pShaderManager st = None -> m_basicMeshes st = Some ms ->
  m_objectMaterials st = [] ->
  render_objects indeterminate k script st frame
    = Ok (st, frame ++ ((fun o => (obj_mesh o, None)) <$> script)).
Proof.
  intros Hnull Hms Hempty. revert k frame.
  induction script as [|o script IH]; intros k frame.
  - cbn. now rewrite app_nil_r.
  - cbn [render_objects].
    destruct (render_object_null (indeterminate k) o st frame ms Hnull Hms)
      as [Hok _].
    rewrite Hok by assumption. cbn [mbind result_bind]. rewrite IH.
    now rewrite <- app_assoc.
Qed.

(** X22.  A frame without a shader manager.  With materials defined,
    [RenderScene] dereferences the null pointer, in the [SetShaderMaterial]
    call of its first object.  With no material defined it returns with the
    state unchanged, having issued all its draw calls. *)
Theorem RenderScene_null_shader_manager (indeterminate : nat -> OBJECT_MATERIAL.t)
    (st : state) (ms : ShapeMeshes) :
  m_pShaderManager st = None -> m_basicMeshes st = Some ms ->
  (m_objectMaterials st <> [] ->
   RenderScene indeterminate st = Fault NullDereference) /\
  (m_objectMaterials st = [] ->
   RenderScene indeterminate st
     = Ok (st, (fun o => (obj_mesh o, None)) <$> scene_script)).
Proof.
  intros Hnull Hms. split.
  - intros Hne. unfold RenderScene, scene_script. cbn [render_objects].
    match goal with
    | |- context [render_object ?i ?o st []] =>
        destruct (render_object_null i o st [] ms Hnull Hms) as [_ Hfault]
    end.
    rewrite Hfault; [reflexivity|exact Hne|eexists; reflexivity].
  - intros Hempty. unfold RenderScene.
    now rewrite (render_objects_null _ _ _ _ _ ms).
Qed.

(** ** The script against the prepared scene *)

Lemma CreateGLTexture_registers (filename tag : string) (st : state) :
  loadable filename st ->
  0 <= m_loadedTextures st ->
  m_loadedTextures st < Z.of_nat (length (m_textureIDs st)) ->
  exists st' : state,
    CreateGLTexture filename tag st = Ok (true, st') /\
    same_but_textures st st' /\
    length (m_textureIDs st') = length (m_textureIDs st) /\
    m_loadedTextures st' = m_loadedTextures st + 1 /\
    TEXTURE_INFO.tag <$> registered st' = (TEXTURE_INFO.tag <$> registered st) ++ [tag].
Proof.
  intros Hload Hpos Hlt.
  destruct (CreateGLTexture_cases filename tag st Hpos Hlt)
    as (b & st' & Hcall & Hb & Hsame & Hlen & Hn & Hreg & _).
  apply Hb in Hload. subst b.
  exists st'. split; [exact Hcall|]. split; [exact Hsame|]. split; [exact Hlen|].
  split; [exact Hn|]. rewrite Hreg, fmap_app. reflexivity.
Qed.

Lemma LoadSceneTextures_registers (st : state) :
  scene_loadable st ->
  0 <= m_loadedTextures st ->
  m_loadedTextures st + 5 <= Z.of_nat (length (m_textureIDs st)) ->
  exists st' : state,
    LoadSceneTextures st = Ok st' /\
    same_but_textures st st' /\
    TEXTURE_INFO.tag <$> registered st'
      = (TEXTURE_INFO.tag <$> registered st)
          ++ ["floor"; "leg"; "tabletop"; "plate"; "mug"].
Proof.
  intros (L1 & L2 & L3 & L4 & L5) Hpos Hroom. unfold LoadSceneTextures.
  destruct (CreateGLTexture_registers "textures/Floor.jpg" "floor" st L1)
    as (st1 & E1 & S1 & A1 & C1 & T1); [lia|lia|].
  rewrite E1. cbn [mbind result_bind].
  apply (loadable_same_files _ _ _ S1) in L2, L3, L4, L5.
  destruct (CreateGLTexture_registers "textures/Leg.jpg" "leg" st1 L2)
    as (st2 & E2 & S2 & A2 & C2 & T2); [lia|lia|].
  rewrite E2. cbn [mbind result_bind].
  apply (loadable_same_files _ _ _ S2) in L3, L4, L5.
  destruct (CreateGLTexture_registers "textures/Tabletop.jpg" "tabletop" st2 L3)
    as (st3 & E3 & S3 & A3 & C3 & T3); [lia|lia|].
  rewrite E3. cbn [mbind result_bind].
  apply (loadable_same_files _ _ _ S3) in L4, L5.
  destruct (CreateGLTexture_registers "textures/Plate.jpg" "plate" st3 L4)
    as (st4 & E4 & S4 & A4 & C4 & T4); [lia|lia|].
  rewrite E4. cbn [mbind result_bind].
  apply (loadable_same_files _ _ _ S4) in L5.
  destruct (CreateGLTexture_registers "textures/Mug.jpg" "mug" st4 L5)
    as (st5 & E5 & S5 & A5 & C5 & T5); [lia|lia|].
  rewrite E5. cbn [mbind result_bind].
  destruct (BindGLTextures_ok st5) as (st' & -> & S6 & _).
  { unfold within_array. lia. }
  pose proof (registered_same_context _ _ S6) as X6. destruct S6 as (S6 & _).
  exists st'. split; [reflexivity|]. split.
  - eapply same_but_textures_trans; [exact S1|].
    eapply same_but_textures_trans; [exact S2|].
    eapply same_but_textures_trans; [exact S3|].
    eapply same_but_textures_trans; [exact S4|].
    eapply same_but_textures_trans; [exact S5|exact S6].
  - rewrite X6, T5, T4, T3, T2, T1. now rewrite <- !app_assoc.
Qed.

(** X23.  No dangling tags.  After a scene preparation in which the five texture
    files are supported, every texture tag and every material tag that
    [RenderScene] uses is registered: no [SetShaderTexture] call of the
    script uploads the sampler -1. *)
Theorem scene_script_tags_registered (st : state) (sm : ShaderManager)
    (ms : ShapeMeshes) :
  scene_loadable st ->
  m_pShaderManager st = Some sm ->
  m_basicMeshes st = Some ms ->
  0 <= m_loadedTextures st ->
  m_loadedTextures st + 5 <= Z.of_nat (length (m_textureIDs st)) ->
  exists st' : state,
    PrepareScene st = Ok st' /\
    forall o : SceneObject,
      o ∈ scene_script ->
      (forall textureTag : string,
         obj_texture o = Some textureTag ->
         textureTag ∈ (TEXTURE_INFO.tag <$> registered st') /\
         FindTextureSlot textureTag st' <> Ok (-1)) /\
      (forall materialTag : string,
         obj_material o = Some materialTag ->
         materialTag ∈ (OBJECT_MATERIAL.tag <$> m_objectMaterials st')).
Proof.
  intros Hload Hsm Hms Hpos Hroom. unfold PrepareScene.
  destruct (LoadSceneTextures_registers st Hload Hpos Hroom)
    as (st1 & Hcall & (S1 & S2 & S3 & S4) & Htags).
  destruct (LoadSceneTextures_ok st Hload Hpos Hroom)
    as (st1' & Hcall' & _ & Hcount & Hlen).
  rewrite Hcall in Hcall'. inversion Hcall'; subst st1'. clear Hcall'.
  rewrite Hcall. cbn [mbind result_bind].
  destruct (SetupSceneLights_ok (DefineObjectMaterials st1) sm) as (sm' & ->).
  { cbn. congruence. }
  cbn [mbind result_bind].
  erewrite load_mesh_Some by (cbn; rewrite S2; exact Hms).
  cbn [mbind result_bind]. do 4 generate.
  eexists. split; [reflexivity|].
  set (st' := set_meshes _ _).
  assert (Hreg : registered st' = registered st1) by reflexivity.
  assert (Hin : within_array st').
  { unfold within_array. subst st'. cbn. lia. }
  assert (Hmats : OBJECT_MATERIAL.tag <$> m_objectMaterials st'
                  = (OBJECT_MATERIAL.tag <$> m_objectMaterials st)
                      ++ ["gravel"; "metal"; "wood"; "porcelain"; "glass"]).
  { subst st'. cbn [m_objectMaterials set_meshes set_shader].
    rewrite DefineObjectMaterials_appends, S3, fmap_app. reflexivity. }
  assert (Htextures : forall t : string,
            t ∈ ["floor"; "leg"; "tabletop"; "plate"; "mug"] ->
            t ∈ (TEXTURE_INFO.tag <$> registered st') /\
            FindTextureSlot t st' <> Ok (-1)).
  { intros t Ht.
    assert (Hheld : t ∈ (TEXTURE_INFO.tag <$> registered st')).
    { rewrite Hreg, Htags. apply elem_of_app. now right. }
    split; [exact Hheld|].
    destruct (FindTextureSlot_cases t st' Hin) as (slot & -> & Habs & _).
    intros Heq. inversion Heq; subst slot. now apply Habs. }
  assert (Hmaterials : forall m : string,
            m ∈ ["gravel"; "metal"; "wood"; "porcelain"; "glass"] ->
            m ∈ (OBJECT_MATERIAL.tag <$> m_objectMaterials st')).
  { intros m Hm. rewrite Hmats. apply elem_of_app. now right. }
  clearbody st'. clear -Htextures Hmaterials.
  intros o Ho. unfold scene_script in Ho.
  repeat (apply elem_of_cons in Ho as [->|Ho];
          [split; cbn [obj_texture obj_material];
           [intros t Ht; inversion Ht; subst t; apply Htextures;
            repeat ((apply list_elem_of_here) || (apply list_elem_of_further))
           |intros m Hm; inversion Hm; subst m; apply Hmaterials;
            repeat ((apply list_elem_of_here) || (apply list_elem_of_further))]|]).
  now apply elem_of_nil in Ho.
Qed.

(** ** Instances *)

Lemma CreateGLTexture_outcome_witness :
  exists (b : bool) (st' : state),
    CreateGLTexture "textures/Floor.jpg" "floor" (fresh_state scene_files) = Ok (b, st') /\
    (b = true <-> loadable "textures/Floor.jpg" (fresh_state scene_files)).
Proof.
  destruct (CreateGLTexture_outcome "textures/Floor.jpg" "floor" (fresh_state scene_files))
    as (b & st' & Hcall & Hb & _); [simpl; lia|simpl; lia|].
  exists b, st'. split; assumption.
Defined.

Lemma CreateGLTexture_overflow_witness :
  loadable "textures/Floor.jpg" (counter_at 16) /\
  CreateGLTexture "textures/Floor.jpg" "floor" (counter_at 16) = Fault OutOfBounds.
Proof.
  assert (Hload : loadable "textures/Floor.jpg" (counter_at 16)).
  { exists (mkImage 1024 1024 3). split; [reflexivity|left; reflexivity]. }
  split; [exact Hload|].
  apply (CreateGLTexture_overflow "textures/Floor.jpg" "floor" (counter_at 16) Hload).
  right. simpl. lia.
Defined.

Lemma CreateGLTexture_texture_object_witness :
  exists (st' : state) (o : TextureObject),
    CreateGLTexture "textures/Floor.jpg" "floor" (fresh_state scene_files) = Ok (true, st') /\
    gl_objects (gl st') !! 1 = Some o /\
    loaded_texture (mkImage 1024 1024 3) o.
Proof.
  destruct (CreateGLTexture_texture_object "textures/Floor.jpg" "floor"
              (mkImage 1024 1024 3) (fresh_state scene_files))
    as (st' & o & Hcall & _ & Hobj & Hloaded & _);
    [reflexivity|left; reflexivity|simpl; lia|simpl; lia|].
  exists st', o. split; [exact Hcall|]. split; [exact Hobj|exact Hloaded].
Defined.

Lemma three_textures_registry_ok : registry_ok three_textures.
Proof.
  unfold registry_ok, within_array. split; [simpl; lia|]. split; [simpl; lia|].
  split.
  - apply (bool_decide_unpack _). vm_compute. exact I.
  - intros id Hid.
    change (registered_IDs three_textures) with [7; 8; 9] in Hid.
    change (gl_names (gl three_textures)) with [9; 8; 7].
    repeat (apply elem_of_cons in Hid as [->|Hid];
            [repeat (apply list_elem_of_here || apply list_elem_of_further)|]).
    now apply elem_of_nil in Hid.
Qed.

Lemma registry_ok_preserved_witness :
  registry_ok three_textures /\
  exists st' : state, DestroyGLTextures three_textures = Ok st' /\ registry_ok st'.
Proof.
  split; [exact three_textures_registry_ok|].
  destruct (registry_ok_preserved three_textures three_textures_registry_ok)
    as (_ & _ & Hdestroy & _).
  eexists. split; [vm_compute; reflexivity|]. apply Hdestroy. vm_compute. reflexivity.
Defined.

Lemma FindTextureSlot_characterised_witness :
  within_array three_textures /\
  exists slot : Z,
    FindTextureSlot "floor" three_textures = Ok slot /\
    (slot = -1 <-> "floor" ∉ (TEXTURE_INFO.tag <$> registered three_textures)).
Proof.
  assert (Hin : within_array three_textures) by (unfold within_array; simpl; lia).
  split; [exact Hin|].
  destruct (FindTextureSlot_characterised "floor" three_textures Hin)
    as (slot & Hslot & Habs & _).
  exists slot. split; assumption.
Defined.

Lemma counter_past_array_witness :
  Z.of_nat (length (m_textureIDs (counter_at 17))) < m_loadedTextures (counter_at 17) /\
  BindGLTextures (counter_at 17) = Fault OutOfBounds /\
  FindTextureSlot "floor" (counter_at 17) = Fault OutOfBounds.
Proof.
  assert (Hpast : Z.of_nat (length (m_textureIDs (counter_at 17)))
                  < m_loadedTextures (counter_at 17)) by (simpl; lia).
  split; [exact Hpast|].
  destruct (counter_past_array "floor" (counter_at 17) Hpast) as [Hbind Hfind].
  split; [exact Hbind|]. apply Hfind.
  apply (proj1 (bool_decide_eq_false _)). vm_compute. reflexivity.
Defined.

Lemma SetShaderTexture_after_BindGLTextures_witness :
  exists (st1 st2 : state) (sm' : ShaderManager),
    BindGLTextures three_textures = Ok st1 /\
    SetShaderTexture "floor" st1 = Ok st2 /\
    m_pShaderManager st2 = Some sm' /\
    sm' !! g_TextureValueName = Some (USampler2D 1) /\
    gl_binding_2d (gl st2) !! 1 = Some 8.
Proof.
  destruct (SetShaderTexture_after_BindGLTextures "floor" three_textures ∅ 1
              (TEXTURE_INFO.mk 8 "floor"))
    as (st1 & st2 & sm' & Hbind & Hset & Hsm & _ & Hsampler & Hunit).
  - reflexivity.
  - unfold within_array. simpl. lia.
  - split; [reflexivity|]. split; [reflexivity|].
    intros [|j] e' Hj He'; [|lia]. inversion He'; subst e'. discriminate.
  - exists st1, st2, sm'. auto.
Defined.

Lemma CreateGLTexture_after_BindGLTextures_witness :
  exists st1 st2 : state,
    BindGLTextures three_textures_on_disk = Ok st1 /\
    gl_binding_2d (gl st1) !! 2 = Some 9 /\
    CreateGLTexture "textures/Mug.jpg" "mug" st1 = Ok (true, st2) /\
    gl_binding_2d (gl st2) !! 2 = Some 0.
Proof.
  apply (CreateGLTexture_after_BindGLTextures "textures/Mug.jpg" "mug"
           three_textures_on_disk (TEXTURE_INFO.mk 9 "leg")).
  - simpl. lia.
  - simpl. lia.
  - exists (mkImage 256 256 3). split; [reflexivity|left; reflexivity].
  - reflexivity.
Defined.

Lemma DestroyGLTextures_effect_witness :
  within_array three_textures /\
  exists st' : state,
    DestroyGLTextures three_textures = Ok st' /\
    m_loadedTextures st' = 3 /\
    length (gl_names (gl st')) = 6%nat.
Proof.
  assert (Hin : within_array three_textures) by (unfold within_array; simpl; lia).
  split; [exact Hin|].
  destruct (DestroyGLTextures_effect three_textures Hin)
    as (st' & Hcall & Hn & _ & _ & Hnames & _).
  exists st'. split; [exact Hcall|]. split; [exact Hn|exact Hnames].
Defined.

Lemma defined_materials_metal :
  first_material "metal" (m_objectMaterials defined_materials) 1 metalMaterial.
Proof.
  split; [reflexivity|]. split; [reflexivity|].
  intros [|j] m' Hj Hm'; [|lia]. inversion Hm'; subst m'. discriminate.
Qed.

Lemma FindMaterial_characterised_witness :
  FindMaterial "metal" scrap_material defined_materials
    = (true, OBJECT_MATERIAL.mk (glm.mkvec3 0 0 0) (glm.mkvec3 0.78 0.78 0.78) 85 "").
Proof.
  destruct (FindMaterial_characterised "metal" scrap_material defined_materials)
    as (_ & Hfirst & _).
  exact (Hfirst 1%nat metalMaterial defined_materials_metal).
Defined.

Lemma push_back_then_FindMaterial_witness :
  FindMaterial "metal" scrap_material (push_back metalMaterial defined_materials)
    = FindMaterial "metal" scrap_material defined_materials.
Proof.
  destruct (push_back_then_FindMaterial metalMaterial scrap_material defined_materials)
    as [_ Hheld].
  apply Hheld. apply (bool_decide_unpack _). reflexivity.
Defined.

Lemma SetShaderMaterial_uploads_first_match_witness :
  exists sm' : ShaderManager,
    SetShaderMaterial "metal" scrap_material defined_materials
      = Ok (set_shader (Some sm') defined_materials) /\
    sm' !! "material.shininess" = Some (UFloat 85).
Proof.
  destruct (SetShaderMaterial_uploads_first_match "metal" scrap_material
              defined_materials ∅ 1 metalMaterial eq_refl defined_materials_metal)
    as (sm' & Hcall & _ & _ & Hshine & _).
  exists sm'. split; [exact Hcall|exact Hshine].
Defined.

Lemma SetShaderColor_SetShaderTexture_last_wins_witness :
  exists (st1 : state) (sm1 : ShaderManager),
    SetShaderTexture "floor" (SetShaderColor 1 1 1 1 three_textures) = Ok st1 /\
    m_pShaderManager st1 = Some sm1 /\
    sm1 !! g_UseTextureName = Some (UInt 1).
Proof.
  destruct (SetShaderColor_SetShaderTexture_last_wins 1 1 1 1 "floor"
              three_textures ∅ eq_refl)
    as (slot & st1 & st2 & sm1 & sm2 & _ & Hcall & Hsm & Huse & _).
  - unfold within_array. simpl. lia.
  - exists st1, sm1. auto.
Defined.

Lemma PrepareScene_tolerates_missing_textures_witness :
  exists st' : state,
    PrepareScene (fresh_state ∅) = Ok st' /\
    m_loadedTextures st' = 0 /\
    length (m_objectMaterials st') = 5%nat.
Proof.
  destruct (PrepareScene_tolerates_missing_textures (fresh_state ∅) ∅ [])
    as (st' & Hcall & Hn & Hmats & _);
    [reflexivity|reflexivity|simpl; lia|simpl; lia|].
  exists st'. split; [exact Hcall|]. split; [exact Hn|]. now rewrite Hmats.
Defined.

Lemma PrepareScene_null_shader_manager_witness :
  PrepareScene (set_shader None (fresh_state scene_files)) = Fault NullDereference.
Proof.
  apply PrepareScene_null_shader_manager; [reflexivity|simpl; lia|simpl; lia].
Defined.

Lemma counter_at_scene_loadable (n : Z) : scene_loadable (counter_at n).
Proof. repeat split; eexists; (split; [reflexivity|left; reflexivity]). Qed.

Lemma PrepareScene_overflow_witness :
  PrepareScene (counter_at 12) = Fault OutOfBounds.
Proof.
  apply PrepareScene_overflow;
    [exact (counter_at_scene_loadable 12)|simpl; lia|simpl; lia|simpl; lia].
Defined.

Lemma PrepareScene_keeps_earlier_lookups_witness :
  exists st' : state,
    PrepareScene three_textures_on_disk = Ok st' /\
    FindTextureSlot "leg" st' = Ok 0 /\
    FindTextureID "leg" st' = Ok 7.
Proof.
  destruct (PrepareScene_keeps_earlier_lookups three_textures_on_disk ∅ [])
    as (st' & Hcall & Htextures & _);
    [reflexivity|reflexivity|simpl; lia|simpl; lia|].
  exists st'. split; [exact Hcall|].
  destruct (Htextures "leg") as [Hslot Hid].
  - apply (bool_decide_unpack _). vm_compute. exact I.
  - rewrite Hslot, Hid. split; reflexivity.
Defined.


Lemma RenderScene_completes_witness :
  exists (sm' : ShaderManager) (frame : list draw),
    RenderScene scrap_locals (fresh_state scene_files)
      = Ok (set_shader (Some sm') (fresh_state scene_files), frame) /\
    length frame = 42%nat.
Proof.
  destruct (RenderScene_completes scrap_locals (fresh_state scene_files) ∅ [])
    as (sm' & frame & Hcall & _ & Hlen);
    [reflexivity|reflexivity|unfold within_array; simpl; lia|].
  exists sm', frame. split; assumption.
Defined.

Lemma RenderScene_sticky_uniforms_witness :
  exists (st' : state) (frame : list draw) (before after : ShaderManager),
    RenderScene scrap_locals (fresh_state scene_files) = Ok (st', frame) /\
    frame !! 35%nat = Some (TaperedCylinderMesh, Some before) /\
    frame !! 36%nat = Some (CylinderMesh, Some after) /\
    material_uniforms after = material_uniforms before /\
    after !! g_UseTextureName = Some (UInt 0).
Proof.
  destruct (RenderScene_sticky_uniforms scrap_locals (fresh_state scene_files) ∅ [])
    as (st' & frame & Hcall & Hdraws);
    [reflexivity|reflexivity|unfold within_array; simpl; lia|].
  destruct (Hdraws 35%nat _ eq_refl) as (b35 & a35 & _ & Hd35 & _).
  destruct (Hdraws 36%nat _ eq_refl) as (b36 & a36 & Hb36 & Hd36 & Hmat & Huse).
  cbn [obj_mesh obj_material obj_texture] in *.
  change ((Some ∅ :: (snd <$> frame)) !! 36%nat) with ((snd <$> frame) !! 35%nat) in Hb36.
  rewrite list_lookup_fmap, Hd35 in Hb36. cbn in Hb36. inversion Hb36; subst b36.
  exists st', frame, a35, a36.
  split; [exact Hcall|]. split; [exact Hd35|]. split; [exact Hd36|].
  split; [exact (Hmat eq_refl)|exact (Huse eq_refl)].
Defined.

Lemma RenderScene_null_shader_manager_witness :
  RenderScene scrap_locals null_shader = Fault NullDereference /\
  RenderScene scrap_locals (set_shader None (fresh_state ∅))
    = Ok (set_shader None (fresh_state ∅),
          (fun o => (obj_mesh o, None)) <$> scene_script).
Proof.
  split.
  - destruct (RenderScene_null_shader_manager scrap_locals null_shader [])
      as [Hfault _]; [reflexivity|reflexivity|].
    apply Hfault. discriminate.
  - destruct (RenderScene_null_shader_manager scrap_locals
                (set_shader None (fresh_state ∅)) [])
      as [_ Hdraws]; [reflexivity|reflexivity|].
    apply Hdraws. reflexivity.
Defined.

Lemma scene_script_tags_registered_witness :
  exists st' : state,
    PrepareScene (fresh_state scene_files) = Ok st' /\
    FindTextureSlot "floor" st' <> Ok (-1).
Proof.
  destruct (scene_script_tags_registered (fresh_state scene_files) ∅ [])
    as (st' & Hcall & Htags);
    [exact (counter_at_scene_loadable 0)|reflexivity|reflexivity
    |simpl; lia|simpl; lia|].
  exists st'. split; [exact Hcall|].
  destruct (Htags (mkSceneObject (glm.mkvec3 20 1 10) 0 0 0 (glm.mkvec3 0 0 0)
                     (glm.mkvec4 1 1 1 1) (Some "floor") (Some "gravel") PlaneMesh))
    as [Htexture _]; [apply list_elem_of_here|].
  now destruct (Htexture "floor" eq_refl).
Defined.
